(** * Billing-report pipeline: a shallow embedding of [src/main.py]

    The script downloads a billing export, loads it with pandas, derives
    the [Month] and [Year] columns and writes four aggregate reports.
    This file embeds the pandas operations the script calls ([groupby],
    [agg] with ["sum"], [reset_index], [to_csv], [to_datetime],
    [dt.to_period]), the four report generators, [main] and the
    [__main__] block, and proves the properties stated about them.

    Numbers.  [CostInBillingCurrency] is declared ["float"].  A float64
    cell is modelled by the rational number it denotes ([Qc], canonical
    rationals, so that equal values are equal terms); the binary64 values
    are the rationals that [round64] leaves as they are.  Addition and
    subtraction round to the nearest binary64, a tie going to the even
    significand, and a group is summed the way pandas sums it, by
    compensated (Kahan) summation in row order.  Infinities, the sign of
    zero and overflow are not represented: statements about amounts are
    made for tables whose sums stay inside the binary64 range. *)

From Stdlib Require Import ZArith QArith Qcanon Qabs String Ascii List Lia Lqa
  DecimalString.
From stdpp Require Import gmap strings list sorting.

Open Scope string_scope.

(** ** Exceptions and results *)

Inductive exn : Type :=
| AssertionError (msg : string)
| ValueError (msg : string)
| KeyError (col : string)
| TypeError (msg : string)
| AttributeError (msg : string)
| DateParseError (text : string)
| OSError (msg : string)
| ParserError
| TransferError.

Inductive result (A : Type) : Type :=
| Ok (a : A)
| Raise (e : exn).
Arguments Ok {A} a.
Arguments Raise {A} e.

#[global] Instance result_ret : MRet result := fun A a => Ok a.
#[global] Instance result_bind : MBind result := fun A B f r =>
  match r with
  | Ok a => f a
  | Raise e => Raise e
  end.

(** ** Data model: typed columns and frames *)

(** A parsed calendar date (the value of a [datetime64] cell whose time of
    day is midnight, which is what a date-only string parses to). *)
Record Timestamp : Type := mkTimestamp { ts_year : Z; ts_month : Z; ts_day : Z }.

Inductive freq : Type := FreqM | FreqY.

(** A column carries its dtype.  [None] is the missing value of the dtype
    ([NaN] for text and floats, [NaT] for dates and periods).  A period is
    stored as pandas stores it: its ordinal, counted from 1970. *)
Inductive column : Type :=
| ColStr (xs : list (option string))
| ColFloat (xs : list (option Qc))
| ColDatetime (xs : list (option Timestamp))
| ColPeriod (f : freq) (xs : list (option Z)).

(** Columns in their order; names are unique in a frame built by the
    operations below. *)
Definition DataFrame : Type := list (string * column).

Definition col_len (c : column) : nat :=
  match c with
  | ColStr xs => length xs
  | ColFloat xs => length xs
  | ColDatetime xs => length xs
  | ColPeriod _ xs => length xs
  end.

Definition nrows (df : DataFrame) : nat :=
  match df with
  | [] => 0
  | (_, c) :: _ => col_len c
  end.

Definition column_names (df : DataFrame) : list string := map fst df.

(** [df[name]]: the first column of that name, [KeyError] when absent. *)
Fixpoint get_column (df : DataFrame) (name : string) : result column :=
  match df with
  | [] => Raise (KeyError name)
  | (n, c) :: rest => if String.eqb n name then Ok c else get_column rest name
  end.

(** [df[name] = c]: replaces the column in place when the name exists,
    appends it as the last column otherwise. *)
Fixpoint set_column (df : DataFrame) (name : string) (c : column) : DataFrame :=
  match df with
  | [] => [(name, c)]
  | (n, c') :: rest =>
      if String.eqb n name then (name, c) :: rest
      else (n, c') :: set_column rest name c
  end.

(** Every column has as many cells as the frame has rows. *)
Definition rectangular (df : DataFrame) : Prop :=
  Forall (fun nc => col_len (snd nc) = nrows df) df.

(** ** The declared column types (BILLING_DETAIL_TYPES) *)

Inductive dtype : Type := DStr | DFloat.

Definition BILLING_DETAIL_TYPES : list (string * dtype) :=
  [ ("InvoiceSectionName", DStr); ("AccountName", DStr);
    ("AccountOwnerId", DStr); ("SubscriptionId", DStr);
    ("SubscriptionName", DStr); ("ResourceGroup", DStr);
    ("ResourceLocation", DStr); ("Date", DStr); ("ProductName", DStr);
    ("MeterCategory", DStr); ("MeterSubCategory", DStr); ("MeterId", DStr);
    ("MeterName", DStr); ("MeterRegion", DStr); ("UnitOfMeasure", DStr);
    ("Quantity", DStr); ("EffectivePrice", DStr);
    ("CostInBillingCurrency", DFloat); ("CostCenter", DStr);
    ("ConsumedService", DStr); ("ResourceId", DStr); ("Tags", DStr);
    ("OfferId", DStr); ("AdditionalInfo", DStr); ("ServiceInfo1", DStr);
    ("ServiceInfo2", DStr); ("ResourceName", DStr); ("ReservationId", DStr);
    ("ReservationName", DStr); ("UnitPrice", DStr); ("ProductOrderId", DStr);
    ("ProductOrderName", DStr); ("Term", DStr); ("PublisherType", DStr);
    ("PublisherName", DStr); ("ChargeType", DStr); ("Frequency", DStr);
    ("PricingModel", DStr); ("AvailabilityZone", DStr);
    ("BillingAccountId", DStr); ("BillingAccountName", DStr);
    ("BillingCurrencyCode", DStr); ("BillingPeriodStartDate", DStr);
    ("BillingPeriodEndDate", DStr); ("BillingProfileId", DStr);
    ("BillingProfileName", DStr); ("InvoiceSectionId", DStr);
    ("IsAzureCreditEligible", DStr); ("PartNumber", DStr);
    ("PayGPrice", DStr); ("PlanName", DStr); ("ServiceFamily", DStr);
    ("CostAllocationRuleName", DStr) ].

Definition has_dtype (c : column) (d : dtype) : bool :=
  match c, d with
  | ColStr _, DStr => true
  | ColFloat _, DFloat => true
  | _, _ => false
  end.

(** A frame as [read_csv(..., dtype=BILLING_DETAIL_TYPES)] returns it:
    every declared column that is present has its declared dtype. *)
Definition conforms (df : DataFrame) : Prop :=
  rectangular df /\
  Forall (fun nd => forall c, get_column df (fst nd) = Ok c ->
                              has_dtype c (snd nd) = true)
         BILLING_DETAIL_TYPES.

(** ** Group keys: the order pandas sorts each dtype by *)

Class KeyDtype (K : Type) : Type := {
  key_le : relation K;
  key_eq_dec :: EqDecision K;
  key_le_dec :: RelDecision key_le;
  key_le_trans :: Transitive key_le;
  key_le_total :: Total key_le;
  key_le_antisym :: AntiSymm eq key_le
}.

Definition key_lt {K} `{KeyDtype K} (a b : K) : Prop := key_le a b /\ a <> b.

(** Text is ordered as Python orders [str]: character by character. *)
Definition str_le (a b : string) : Prop := String.leb a b = true.

(** Dates are ordered chronologically. *)
Definition ts_le (a b : Timestamp) : Prop :=
  (ts_year a < ts_year b)%Z \/
  (ts_year a = ts_year b /\
   ((ts_month a < ts_month b)%Z \/
    (ts_month a = ts_month b /\ (ts_day a <= ts_day b)%Z))).

#[global] Instance Timestamp_eq_dec : EqDecision Timestamp.
Proof. solve_decision. Defined.

#[global] Instance freq_eq_dec : EqDecision freq.
Proof. solve_decision. Defined.

#[global] Instance str_le_dec : RelDecision str_le.
Proof. intros a b. unfold str_le. apply _. Defined.

#[global] Instance ts_le_dec : RelDecision ts_le.
Proof. intros a b. unfold ts_le. apply _. Defined.

Definition Qc_le (a b : Qc) : Prop := Qle_bool a b = true.

#[global] Instance Qc_le_dec : RelDecision Qc_le.
Proof. intros a b. unfold Qc_le. apply _. Defined.

(** ** binary64 arithmetic *)

(** The integer nearest to [n / d] (for [d > 0]), a tie going to the even
    one. *)
Definition round_half_even (n d : Z) : Z :=
  let q := (n / d)%Z in
  match (2 * (n mod d) ?= d)%Z with
  | Lt => q
  | Gt => (q + 1)%Z
  | Eq => if Z.even q then q else (q + 1)%Z
  end.

(** The exponent [e] of the last place of the binary64 nearest to [q]:
    the significand [q / 2^e] has 53 bits, except that [e] does not go
    below [-1074] (the subnormal numbers). *)
Definition ulp_exponent (q : Q) : Z :=
  let n := Z.abs (Qnum q) in
  let d := Zpos (Qden q) in
  let l := (Z.log2 n - Z.log2 d)%Z in
  let e0 := if (2 ^ Z.max l 0 * d <=? 2 ^ Z.max (- l) 0 * n)%Z then l
            else (l - 1)%Z in
  Z.max (e0 - 52) (-1074).

(** [m * 2^e] as a rational. *)
Definition scale2 (m e : Z) : Q :=
  Qmake (m * 2 ^ Z.max e 0) (Z.to_pos (2 ^ Z.max (- e) 0)).

(** Rounding to the nearest binary64 (round-half-even). *)
Definition round64Q (q : Q) : Q :=
  let e := ulp_exponent q in
  scale2 (round_half_even (Qnum q * 2 ^ Z.max (- e) 0)
                          (Zpos (Qden q) * 2 ^ Z.max e 0)) e.

Definition round64 (q : Qc) : Qc := Q2Qc (round64Q q).

(** The rationals that are binary64 values. *)
Definition is_float64 (q : Qc) : Prop := round64 q = q.

#[global] Instance is_float64_dec (q : Qc) : Decision (is_float64 q).
Proof. unfold is_float64. apply Qc_eq_dec. Defined.

(** One step of the sum of a group as pandas computes it, the loop body of
    [group_sum] in its grouping kernels:
    [y = val - compensation; t = sumx + y;
     compensation = t - sumx - y; sumx = t].
    [acc] holds the running sum [sumx] and the [compensation], which
    carries what the last addition lost; both start at 0. *)
Definition kahan_step (acc : Qc * Qc) (x : Qc) : Qc * Qc :=
  let y := round64 (x - acc.2)%Qc in
  let t := round64 (acc.1 + y)%Qc in
  (t, round64 (round64 (t - acc.1) - y)%Qc).

Definition kahan_sum (xs : list Qc) : Qc :=
  (foldl kahan_step (0%Qc, 0%Qc) xs).1.

(** ** Grouping: [groupby(by)] with its defaults [sort=True, dropna=True],
       aggregated with ["sum"] *)

Section GroupBy.
Context {K : Type} `{KeyDtype K}.

(** The key values that are present, row by row. *)
Definition present (keys : list (option K)) : list K := omap id keys.

(** The group labels: the distinct present key values, ascending. *)
Definition group_keys (keys : list (option K)) : list K :=
  merge_sort key_le (remove_dups (present keys)).

(** Sum of the cells of a group, missing cells skipped, in row order. *)
Definition nansum (vals : list (option Qc)) : Qc :=
  kahan_sum (omap id vals).

(** The cells of [vals] on the rows whose key satisfies [P]. *)
Definition select (P : option K -> bool) (keys : list (option K))
    (vals : list (option Qc)) : list (option Qc) :=
  map snd (filter (fun kv => P (fst kv) = true) (zip keys vals)).

Definition is_key (k : K) (o : option K) : bool := bool_decide (o = Some k).


Definition group_sum (k : K) (keys : list (option K))
    (vals : list (option Qc)) : Qc :=
  nansum (select (is_key k) keys vals).

Definition group_sums (keys : list (option K)) (vals : list (option Qc))
  : list Qc :=
  map (fun k => group_sum k keys vals) (group_keys keys).
End GroupBy.

(** *** The four key dtypes *)

#[global] Instance str_le_trans : Transitive str_le.
Proof.
  assert (Hlt : forall a b c : string,
             String.compare a b = Lt -> String.compare b c = Lt ->
             String.compare a c = Lt).
  { induction a as [|x a IH]; intros [|y b] [|z c]; simpl; try congruence.
    unfold Ascii.compare.
    destruct (N.compare_spec (N_of_ascii x) (N_of_ascii y)) as [Exy|Lxy|Gxy];
      try congruence;
      destruct (N.compare_spec (N_of_ascii y) (N_of_ascii z)) as [Eyz|Lyz|Gyz];
      try congruence; intros Hab Hbc.
    - rewrite Exy, Eyz, N.compare_refl. eauto.
    - rewrite Exy. apply N.compare_lt_iff in Lyz. rewrite Lyz. reflexivity.
    - rewrite <- Eyz. apply N.compare_lt_iff in Lxy. rewrite Lxy. reflexivity.
    - assert (Hxz : (N_of_ascii x < N_of_ascii z)%N) by lia.
      apply N.compare_lt_iff in Hxz. rewrite Hxz. reflexivity. }
  assert (Halt : forall a b : string,
             str_le a b <-> String.compare a b <> Gt).
  { intros a b. unfold str_le, String.leb.
    destruct (String.compare a b); split; congruence. }
  intros a b c Hab Hbc. apply Halt in Hab, Hbc. apply Halt.
  destruct (String.compare a b) eqn:Eab; [| |congruence].
  - apply String.compare_eq_iff in Eab. subst. exact Hbc.
  - destruct (String.compare b c) eqn:Ebc; [| |congruence].
    + apply String.compare_eq_iff in Ebc. subst. rewrite Eab. congruence.
    + rewrite (Hlt a b c Eab Ebc). congruence.
Qed.

#[global] Instance str_le_total : Total str_le.
Proof. intros a b. apply String.leb_total. Qed.

#[global] Instance str_le_antisym : AntiSymm eq str_le.
Proof. intros a b. apply String.leb_antisym. Qed.

#[global] Instance string_key : KeyDtype string := {| key_le := str_le |}.

#[global] Instance Z_key : KeyDtype Z := {| key_le := Z.le |}.

#[global] Instance ts_le_trans : Transitive ts_le.
Proof. intros a b c. unfold ts_le. lia. Qed.

#[global] Instance ts_le_total : Total ts_le.
Proof. intros a b. unfold ts_le. lia. Qed.

#[global] Instance ts_le_antisym : AntiSymm eq ts_le.
Proof.
  intros [ya ma da] [yb mb db]. unfold ts_le. simpl. intros Hab Hba.
  f_equal; lia.
Qed.

#[global] Instance Timestamp_key : KeyDtype Timestamp := {| key_le := ts_le |}.

#[global] Instance Qc_le_trans : Transitive Qc_le.
Proof.
  intros a b c. unfold Qc_le. rewrite !Qle_bool_iff. apply Qle_trans.
Qed.

#[global] Instance Qc_le_total : Total Qc_le.
Proof.
  intros a b. unfold Qc_le. rewrite !Qle_bool_iff.
  destruct (Qlt_le_dec a b) as [Hlt|Hle]; [left; apply Qlt_le_weak|right];
    assumption.
Qed.

#[global] Instance Qc_le_antisym : AntiSymm eq Qc_le.
Proof.
  intros a b. unfold Qc_le. rewrite !Qle_bool_iff. intros Hab Hba.
  apply Qc_is_canon. apply Qle_antisym; assumption.
Qed.

#[global] Instance Qc_key : KeyDtype Qc := {| key_le := Qc_le |}.

(** ** Frame-level [groupby], [agg] and [reset_index] *)

(** [df.groupby(by)]: fails at once when the key column is absent. *)
Record DataFrameGroupBy : Type := mkGroupBy {
  gb_obj : DataFrame;
  gb_by : string;
  gb_keys : column
}.

Definition groupby (df : DataFrame) (by_ : string) : result DataFrameGroupBy :=
  keys ← get_column df by_;
  mret (mkGroupBy df by_ keys).

(** A frame whose row labels are the group keys (the result of [agg]). *)
Record IndexedFrame : Type := mkIndexed {
  ix_name : string;
  ix_labels : column;
  ix_data : DataFrame
}.

(** The group labels of a key column, in the dtype of the column. *)
Definition column_group_keys (keys : column) : column :=
  match keys with
  | ColStr ks => ColStr (Some <$> group_keys ks)
  | ColFloat ks => ColFloat (Some <$> group_keys ks)
  | ColDatetime ks => ColDatetime (Some <$> group_keys ks)
  | ColPeriod f ks => ColPeriod f (Some <$> group_keys ks)
  end.

(** The sum of [vals] in each group, in the order of the labels. *)
Definition column_group_sums (keys : column) (vals : list (option Qc)) : list Qc :=
  match keys with
  | ColStr ks => group_sums ks vals
  | ColFloat ks => group_sums ks vals
  | ColDatetime ks => group_sums ks vals
  | ColPeriod _ ks => group_sums ks vals
  end.

(** [.agg({col: "sum"})].  The grouping column is not among the columns
    that can be aggregated.  The model covers float64 value columns, the
    dtype the script declares for the cost. *)
Definition agg_sum (g : DataFrameGroupBy) (col : string) : result IndexedFrame :=
  if String.eqb col (gb_by g) then Raise (KeyError col)
  else
    c ← get_column (gb_obj g) col;
    match c with
    | ColFloat vals =>
        mret (mkIndexed (gb_by g) (column_group_keys (gb_keys g))
                [(col, ColFloat (Some <$> column_group_sums (gb_keys g) vals))])
    | _ => Raise (TypeError "sum of a column that is not float64")
    end.

(** [.reset_index()]: the labels become the first column. *)
Definition reset_index (fr : IndexedFrame) : result DataFrame :=
  if bool_decide (ix_name fr ∈ column_names (ix_data fr))
  then Raise (ValueError "cannot insert, already exists")
  else mret ((ix_name fr, ix_labels fr) :: ix_data fr).

(** The expression every report generator builds:
    [df.groupby(by).agg({"CostInBillingCurrency": "sum"}).reset_index()]. *)
Definition aggregate (df : DataFrame) (by_ : string) : result DataFrame :=
  g ← groupby df by_;
  fr ← agg_sum g "CostInBillingCurrency";
  reset_index fr.

(** ** Text of a cell *)

Definition digits (n : Z) : string := NilZero.string_of_uint (N.to_uint (Z.to_N n)).

Definition zeros (n : nat) : string := string_of_list_ascii (replicate n "0"%char).

(** Left-pads with zeros to [width] characters. *)
Definition zfill (width : nat) (s : string) : string :=
  zeros (width - String.length s) ++ s.

(** The least [k] with [den] dividing [10^k], searched up to [fuel]. *)
Fixpoint decimal_scale (fuel : nat) (den : Z) (k : nat) : option nat :=
  if ((10 ^ Z.of_nat k) mod den =? 0)%Z then Some k
  else match fuel with
       | O => None
       | S fuel' => decimal_scale fuel' den (S k)
       end.

Fixpoint drop_zeros (l : list ascii) : list ascii :=
  match l with
  | c :: l' => if Ascii.eqb c "0" then drop_zeros l' else l
  | [] => []
  end.

Definition strip_trailing_zeros (s : string) : string :=
  string_of_list_ascii (rev (drop_zeros (rev (list_ascii_of_string s)))).

(** Text of a decimal number in the layout of [repr]: positional
    notation with at least one fractional digit when the decimal exponent
    lies in [-4, 16), exponent notation otherwise.  The digits are those of
    the decimal expansion of [q]; a rational with no finite expansion
    (none is printed below) is cut after 17 places. *)
Definition decimal_repr (q : Qc) : string :=
  let n := Qnum q in
  let d := Zpos (Qden q) in
  let k := default 17%nat (decimal_scale (Pos.size_nat (Qden q)) d 0) in
  let m := (Z.abs n * 10 ^ Z.of_nat k / d)%Z in
  let sign := if (n <? 0)%Z then "-" else "" in
  if (m =? 0)%Z then sign ++ "0.0"
  else
    let ds := digits m in
    let len := String.length ds in
    let e := (Z.of_nat len - 1 - Z.of_nat k)%Z in
    if ((-4 <=? e) && (e <? 16))%Z then
      if (k =? 0)%nat then sign ++ ds ++ ".0"
      else if (k <? len)%nat then
        sign ++ substring 0 (len - k) ds ++ "." ++ substring (len - k) k ds
      else sign ++ "0." ++ zeros (k - len) ++ ds
    else
      let sig := strip_trailing_zeros ds in
      let frac := substring 1 (String.length sig - 1) sig in
      sign ++ substring 0 1 sig
           ++ (if String.eqb frac "" then "" else "." ++ frac)
           ++ "e" ++ (if (e <? 0)%Z then "-" else "+")
           ++ zfill 2 (digits (Z.abs e)).

(** [m * 10^e] as a rational. *)
Definition scale10 (m e : Z) : Q :=
  Qmake (m * 10 ^ Z.max e 0) (Z.to_pos (10 ^ Z.max (- e) 0)).

Definition nb_digits (n : Z) : Z := Z.of_nat (String.length (digits n)).

(** The decimal exponent [E] of [q <> 0]: [10^E <= |q| < 10^(E+1)]. *)
Definition decimal_exponent (q : Q) : Z :=
  let n := Z.abs (Qnum q) in
  let d := Zpos (Qden q) in
  let l := (nb_digits n - nb_digits d)%Z in
  if (10 ^ Z.max l 0 * d <=? 10 ^ Z.max (- l) 0 * n)%Z then l else (l - 1)%Z.

(** [q] rounded to [sig] significant decimal digits. *)
Definition round_decimal (q : Qc) (sig : nat) : Qc :=
  let s := (decimal_exponent q - Z.of_nat sig + 1)%Z in
  Q2Qc (scale10 (round_half_even (Qnum q * 10 ^ Z.max (- s) 0)
                                 (Zpos (Qden q) * 10 ^ Z.max s 0)) s).

(** The shortest decimal that rounds to the binary64 [x], the nearest to
    [x] among those of that length; 17 digits always suffice. *)
Fixpoint shortest_decimal (fuel : nat) (sig : nat) (x : Qc) : Qc :=
  let d := round_decimal x sig in
  match fuel with
  | O => d
  | S fuel' => if bool_decide (round64 d = x) then d
               else shortest_decimal fuel' (S sig) x
  end.

(** Text of a float64 cell, as [to_csv] writes it: [repr] of the float,
    the shortest decimal that reads back as the same binary64. *)
Definition float_repr (q : Qc) : string :=
  let x := round64 q in
  if (Qnum x =? 0)%Z then "0.0" else decimal_repr (shortest_decimal 16 1 x).

Definition date_text (t : Timestamp) : string :=
  zfill 4 (digits (ts_year t)) ++ "-" ++ zfill 2 (digits (ts_month t))
    ++ "-" ++ zfill 2 (digits (ts_day t)).

(** A period prints as the calendar span it denotes. *)
Definition period_text (f : freq) (ordinal : Z) : string :=
  match f with
  | FreqM => zfill 4 (digits (1970 + ordinal / 12)) ++ "-"
               ++ zfill 2 (digits (ordinal mod 12 + 1))
  | FreqY => zfill 4 (digits (1970 + ordinal))
  end.

(** The cells of a column as text; a missing cell is the empty text
    ([na_rep] is left at its default). *)
Definition column_text (c : column) : list string :=
  match c with
  | ColStr xs => map (fun x => default "" x) xs
  | ColFloat xs => map (fun x => default "" (float_repr <$> x)) xs
  | ColDatetime xs => map (fun x => default "" (date_text <$> x)) xs
  | ColPeriod f xs => map (fun x => default "" (period_text f <$> x)) xs
  end.

(** ** [to_csv(path, index=False)] *)

Definition comma : ascii := ",".
Definition dquote : ascii := "034".
Definition LF : ascii := "010".
Definition CR : ascii := "013".

Definition special (c : ascii) : bool :=
  Ascii.eqb c comma || Ascii.eqb c dquote || Ascii.eqb c LF || Ascii.eqb c CR.

Fixpoint needs_quote (s : string) : bool :=
  match s with
  | EmptyString => false
  | String c s' => special c || needs_quote s'
  end.

(** Every quote character inside a quoted field is written twice. *)
Fixpoint double_quotes (s : string) : string :=
  match s with
  | EmptyString => EmptyString
  | String c s' =>
      if Ascii.eqb c dquote then String dquote (String dquote (double_quotes s'))
      else String c (double_quotes s')
  end.

(** Minimal quoting: a field is quoted only when it holds a separator, a
    quote or a line break. *)
Definition csv_field (s : string) : string :=
  if needs_quote s then String dquote (double_quotes s ++ String dquote "")
  else s.

Fixpoint join (sep : string) (fields : list string) : string :=
  match fields with
  | [] => ""
  | [f] => f
  | f :: rest => f ++ sep ++ join sep rest
  end.

Definition csv_line (fields : list string) : string :=
  join "," (map csv_field fields).

(** The records of the file: the header, then the rows in frame order.
    Row [i] takes cell [i] of every column. *)
Definition csv_records (df : DataFrame) : list (list string) :=
  column_names df ::
  map (fun i => map (fun nc => nth i (column_text (snd nc)) "") df)
      (seq 0 (nrows df)).

Definition to_csv_lines (df : DataFrame) : list string :=
  map csv_line (csv_records df).

(** The file content: every record is followed by a line feed. *)
Definition to_csv (df : DataFrame) : string :=
  String.concat "" (map (fun l => l ++ String LF "") (to_csv_lines df)).

(** ** [pd.to_datetime] and [.dt.to_period] *)

Definition digit_value (c : ascii) : option Z :=
  let n := Z.of_nat (nat_of_ascii c) in
  if ((48 <=? n) && (n <=? 57))%Z then Some (n - 48)%Z else None.

Fixpoint number (cs : list ascii) (acc : Z) : option Z :=
  match cs with
  | [] => Some acc
  | c :: cs' => d ← digit_value c; number cs' (10 * acc + d)%Z
  end.

Definition is_leap (y : Z) : bool :=
  ((y mod 4 =? 0) && (negb (y mod 100 =? 0) || (y mod 400 =? 0)))%Z.

Definition days_in_month (y m : Z) : Z :=
  if (m =? 2)%Z then (if is_leap y then 29 else 28)%Z
  else if ((m =? 4) || (m =? 6) || (m =? 9) || (m =? 11))%Z then 30%Z
  else 31%Z.

(** A calendar date that a nanosecond timestamp can hold: the whole years
    1678 to 2261 lie inside the representable range. *)
Definition valid_date (y m d : Z) : bool :=
  ((1678 <=? y) && (y <=? 2261) && (1 <=? m) && (m <=? 12)
   && (1 <=? d) && (d <=? days_in_month y m))%Z.

(** The ISO 8601 calendar-date form [YYYY-MM-DD].  A column in which every
    text has this form is one that pandas parses, whatever its version,
    to these dates.  pandas accepts further forms through format
    inference; they are outside this model, which answers [None] for
    them. *)
Definition parse_iso_date (s : string) : option Timestamp :=
  match list_ascii_of_string s with
  | [y1; y2; y3; y4; s1; m1; m2; s2; d1; d2] =>
      if Ascii.eqb s1 "-" && Ascii.eqb s2 "-" then
        y ← number [y1; y2; y3; y4] 0;
        m ← number [m1; m2] 0;
        d ← number [d1; d2] 0;
        if valid_date y m d then Some (mkTimestamp y m d) else None
      else None
  | _ => None
  end.

Fixpoint parse_dates (xs : list (option string)) : result (list (option Timestamp)) :=
  match xs with
  | [] => Ok []
  | None :: xs' => ts ← parse_dates xs'; mret (None :: ts)
  | Some s :: xs' =>
      match parse_iso_date s with
      | Some t => ts ← parse_dates xs'; mret (Some t :: ts)
      | None => Raise (DateParseError s)
      end
  end.

(** [pd.to_datetime(column)]: a missing cell becomes [NaT], a text cell is
    parsed, and one text that does not parse fails the whole call.  The
    model covers text columns, the declared dtype of [Date].  Where this
    returns dates, pandas returns the same dates; where it raises, pandas
    may still have parsed the column (a form other than [YYYY-MM-DD]), so
    the statements below rest on a parse that succeeds and none concludes
    that a date fails to parse. *)
Definition to_datetime (c : column) : result column :=
  match c with
  | ColStr xs => ts ← parse_dates xs; mret (ColDatetime ts)
  | ColDatetime xs => Ok (ColDatetime xs)
  | _ => Raise (TypeError "to_datetime of a column that is not text")
  end.

Definition period_ordinal (f : freq) (t : Timestamp) : Z :=
  match f with
  | FreqM => ((ts_year t - 1970) * 12 + (ts_month t - 1))%Z
  | FreqY => (ts_year t - 1970)%Z
  end.

(** [column.dt.to_period(freq)]: only a datetime column has [.dt]. *)
Definition to_period (c : column) (f : freq) : result column :=
  match c with
  | ColDatetime xs => Ok (ColPeriod f (map (option_map (period_ordinal f)) xs))
  | _ => Raise (AttributeError "Can only use .dt accessor with datetimelike values")
  end.

(** The three assignments under "Add temporal columns" in [main]. *)
Definition add_temporal_columns (df : DataFrame) : result DataFrame :=
  date ← get_column df "Date";
  parsed ← to_datetime date;
  let df := set_column df "Date" parsed in
  date ← get_column df "Date";
  month ← to_period date FreqM;
  let df := set_column df "Month" month in
  date ← get_column df "Date";
  year ← to_period date FreqY;
  mret (set_column df "Year" year).

(** ** The world the script acts on *)

Inductive output : Type :=
| Line (text : string)
| Frame (df : DataFrame).

(** Directories created, files by path, what was printed, and the blob
    URLs a download was requested for (latest first). *)
Record World : Type := mkWorld {
  dirs : gset string;
  files : gmap string string;
  stdout : list output;
  requests : list string
}.

Definition empty_world : World := mkWorld ∅ ∅ [] [].

(** A computation runs in a world and ends normally or by raising; the
    world it leaves behind is kept in both cases. *)
Record M (A : Type) : Type := mkM { run : World -> World * result A }.
Arguments mkM {A} run.
Arguments run {A} m w.

#[global] Instance M_ret : MRet M := fun A a => mkM (fun w => (w, Ok a)).
#[global] Instance M_bind : MBind M := fun A B f m =>
  mkM (fun w =>
         match run m w with
         | (w', Ok a) => run (f a) w'
         | (w', Raise e) => (w', Raise e)
         end).

Definition raise {A} (e : exn) : M A := mkM (fun w => (w, Raise e)).

Definition lift {A} (r : result A) : M A := mkM (fun w => (w, r)).

Definition print (text : string) : M unit :=
  mkM (fun w => (mkWorld (dirs w) (files w) (stdout w ++ [Line text]) (requests w),
                 Ok tt)).

Definition print_frame (df : DataFrame) : M unit :=
  mkM (fun w => (mkWorld (dirs w) (files w) (stdout w ++ [Frame df]) (requests w),
                 Ok tt)).

(** [os.makedirs(path, exist_ok=True)]: an existing directory is fine, an
    existing file of that name is not. *)
Definition makedirs (path : string) : M unit :=
  mkM (fun w =>
         match files w !! path with
         | Some _ => (w, Raise (OSError "FileExistsError"))
         | None => (mkWorld ({[path]} ∪ dirs w) (files w) (stdout w) (requests w),
                    Ok tt)
         end).

(** Writing a file replaces what the path held. *)
Definition write_file (path data : string) : M unit :=
  mkM (fun w => (mkWorld (dirs w) (<[path := data]> (files w)) (stdout w)
                         (requests w), Ok tt)).

Definition read_file (path : string) : M string :=
  mkM (fun w =>
         match files w !! path with
         | Some data => (w, Ok data)
         | None => (w, Raise (OSError "FileNotFoundError"))
         end).

(** [os.path.join] of two components (POSIX). *)
Definition starts_with_sep (s : string) : bool :=
  match s with
  | String c _ => Ascii.eqb c "/"
  | EmptyString => false
  end.

Fixpoint ends_with_sep (s : string) : bool :=
  match s with
  | EmptyString => false
  | String c EmptyString => Ascii.eqb c "/"
  | String _ s' => ends_with_sep s'
  end.

Definition os_path_join (a b : string) : string :=
  if starts_with_sep b then b
  else if String.eqb a "" || ends_with_sep a then a ++ b
  else a ++ "/" ++ b.

(** What lies outside the script: the clock, the blob service and the
    CSV reader of pandas. *)
Record datetime : Type := mkDatetime {
  year : nat; month : nat; day : nat; hour : nat; minute : nat; second : nat
}.

Record Env : Type := mkEnv {
  (** [datetime.now()] *)
  now : datetime;
  (** [BlobClient.from_blob_url]: rejects a malformed URL *)
  from_blob_url : string -> result string;
  (** [download_blob()] followed by [readall()] *)
  download_blob : string -> result string;
  (** [pd.read_csv(text, header=0, dtype=...)] on the content of the file *)
  read_csv : string -> list (string * dtype) -> result DataFrame
}.

Definition nat_digits (n : nat) : string := NilZero.string_of_uint (Nat.to_uint n).

(** [strftime("%Y%m%dT%H%M%S")] *)
Definition strftime (t : datetime) : string :=
  zfill 4 (nat_digits (year t)) ++ zfill 2 (nat_digits (month t))
    ++ zfill 2 (nat_digits (day t)) ++ "T" ++ zfill 2 (nat_digits (hour t))
    ++ zfill 2 (nat_digits (minute t)) ++ zfill 2 (nat_digits (second t)).

(** ** The functions of the script *)

(** The destination is opened for writing (and so emptied) before the
    download starts; a failed download leaves it empty. *)
Definition load_csv_from_azure_blob (env : Env) (blob_url dest_file : string)
  : M unit :=
  blob_client ← lift (from_blob_url env blob_url);
  write_file dest_file "";;
  mkM (fun w => (mkWorld (dirs w) (files w) (stdout w) (blob_client :: requests w),
                 Ok tt));;
  data ← lift (download_blob env blob_client);
  write_file dest_file data;;
  print ("Downloaded blob data to " ++ dest_file).

(** [agg_df.to_csv(file_path, index=False)] *)
Definition df_to_csv (agg_df : DataFrame) (file_path : string) : M unit :=
  write_file file_path (to_csv agg_df).

Definition cost_by_sub (df : DataFrame) (dest_dir file_name : string) : M unit :=
  let file_path := os_path_join dest_dir file_name in
  print ("Creating Cost by Subscription report to " ++ file_path);;
  agg_df ← lift (g ← groupby df "SubscriptionName";
                 fr ← agg_sum g "CostInBillingCurrency";
                 reset_index fr);
  df_to_csv agg_df file_path.

Definition cost_by_meter_cat (df : DataFrame) (dest_dir file_name : string) : M unit :=
  let file_path := os_path_join dest_dir file_name in
  print ("Creating Cost by MeterCategory report to " ++ file_path);;
  agg_df ← lift (g ← groupby df "MeterCategory";
                 fr ← agg_sum g "CostInBillingCurrency";
                 reset_index fr);
  df_to_csv agg_df file_path.

Definition cost_by_account (df : DataFrame) (dest_dir file_name : string) : M unit :=
  let file_path := os_path_join dest_dir file_name in
  print ("Creating Cost by AccountName report to " ++ file_path);;
  agg_df ← lift (g ← groupby df "AccountName";
                 fr ← agg_sum g "CostInBillingCurrency";
                 reset_index fr);
  df_to_csv agg_df file_path.

Definition cost_by_month (df : DataFrame) (dest_dir file_name : string) : M unit :=
  let file_path := os_path_join dest_dir file_name in
  print ("Creating Cost by Month report to " ++ file_path);;
  agg_df ← lift (g ← groupby df "Month";
                 fr ← agg_sum g "CostInBillingCurrency";
                 reset_index fr);
  df_to_csv agg_df file_path.

(** [df.head()]: the first five rows. *)
Definition head_column (c : column) : column :=
  match c with
  | ColStr xs => ColStr (take 5 xs)
  | ColFloat xs => ColFloat (take 5 xs)
  | ColDatetime xs => ColDatetime (take 5 xs)
  | ColPeriod f xs => ColPeriod f (take 5 xs)
  end.

Definition head (df : DataFrame) : DataFrame :=
  map (fun nc => (fst nc, head_column (snd nc))) df.

Definition main (env : Env) (source out_dir : string) : M unit :=
  (if (0 <? String.length source)%nat then mret tt
   else raise (AssertionError "Source is required."));;
  let timestamp := strftime (now env) in
  let report_dir := os_path_join out_dir timestamp in
  let download_dir := os_path_join out_dir "raw" in
  let billing_file := os_path_join download_dir (timestamp ++ ".billing.csv") in
  makedirs out_dir;;
  makedirs report_dir;;
  makedirs download_dir;;
  load_csv_from_azure_blob env source billing_file;;
  text ← read_file billing_file;
  df ← lift (read_csv env text BILLING_DETAIL_TYPES);
  df ← lift (add_temporal_columns df);
  print_frame (head df);;
  cost_by_sub df report_dir "cost_by_subscription.csv";;
  cost_by_meter_cat df report_dir "cost_by_meter_cat.csv";;
  cost_by_account df report_dir "cost_by_account.csv";;
  cost_by_month df report_dir "cost_by_month.csv".

(** The parsed command line: a flag that was not given is [None]. *)
Record Namespace : Type := mkNamespace {
  args_source : option string;
  args_out : option string
}.

(** Python's [a or b] on optional text: [a] when it is truthy, [b]
    otherwise. *)
Definition py_or (a b : option string) : option string :=
  match a with
  | Some s => if String.eqb s "" then b else Some s
  | None => b
  end.

Definition truthy (a : option string) : bool :=
  match a with
  | Some s => negb (String.eqb s "")
  | None => false
  end.

(** The [__main__] block; [environ] is [os.environ] once [load_dotenv]
    has run. *)
Definition program (env : Env) (args : Namespace) (environ : gmap string string)
  : M unit :=
  let STORAGE_URL := py_or (args_source args) (environ !! "STORAGE_URL") in
  let OUT_FOLDER := py_or (args_out args) (environ !! "OUT_FOLDER") in
  if negb (truthy STORAGE_URL) then
    raise (ValueError "Source is required. Have you set the STORAGE_URL env variable?")
  else if negb (truthy OUT_FOLDER) then
    raise (ValueError "Out is required. Have you set the OUT_FOLDER env variable?")
  else main env (default "" STORAGE_URL) (default "" OUT_FOLDER).

(** ** Notions the statements use *)

Definition COST : string := "CostInBillingCurrency".

(** *** Exact sums, and how near a float64 sum is to them *)

Definition qsum (l : list Qc) : Qc := foldr Qcplus 0%Qc l.

(** The sum of the cells that are present, as a rational number: nothing
    is rounded. *)
Definition exact_sum (vals : list (option Qc)) : Qc :=
  foldr (fun v acc => (default 0 v + acc)%Qc) 0%Qc vals.

Definition Qcabs (q : Qc) : Qc := Q2Qc (Qabs q).

(** The sum of the absolute values of the cells. *)
Definition abs_sum (vals : list (option Qc)) : Qc :=
  exact_sum (map (option_map Qcabs) vals).

(** [2^-50]: eight times [2^-53], the largest relative error of one
    rounding to binary64. *)
Definition tolerance : Qc := Q2Qc (1 # 1125899906842624).

(** [a] is [b] within floating-point tolerance, for amounts that add up
    to [scale] in absolute value. *)
Definition close_to (a b scale : Qc) : Prop :=
  (Qcabs (a - b) <= tolerance * scale)%Qc.

(** A cost column as the loader makes it, of a size for which no sum
    overflows: its cells are binary64 values, it has at most [2^32] rows
    and the absolute values add up to at most [2^1000]. *)
Definition float64_costs (vals : list (option Qc)) : Prop :=
  Forall is_float64 (omap id vals) /\
  (Z.of_nat (length vals) <= 2 ^ 32)%Z /\
  (abs_sum vals <= Q2Qc (inject_Z (2 ^ 1000)))%Qc.



(** The cells of [vals] on the rows the mask keeps. *)
Definition masked (mask : list bool) (vals : list (option Qc))
  : list (option Qc) :=
  map snd (filter (fun bv => fst bv = true) (zip mask vals)).

(** The rows whose key is the label at position [j] of a report. *)
Definition label_rows (keys labels : column) (j : nat) : option (list bool) :=
  match keys, labels with
  | ColStr ks, ColStr ls => l ← ls !! j; k ← l; Some (map (is_key k) ks)
  | ColFloat ks, ColFloat ls => l ← ls !! j; k ← l; Some (map (is_key k) ks)
  | ColDatetime ks, ColDatetime ls =>
      l ← ls !! j; k ← l; Some (map (is_key k) ks)
  | ColPeriod _ ks, ColPeriod _ ls =>
      l ← ls !! j; k ← l; Some (map (is_key k) ks)
  | _, _ => None
  end.

(** The number of distinct values among the cells that are present. *)
Definition distinct_count `{Countable K} (xs : list (option K)) : nat :=
  size (list_to_set (C := gset K) (omap id xs)).

(** A well-formed Billing Record Table: it has the declared dtypes, the
    five columns the pipeline reads, and every [Date] cell holds a
    calendar date. *)
Definition well_formed (df : DataFrame) : Prop :=
  conforms df /\
  (forall name, name ∈ ["SubscriptionName"; "MeterCategory"; "AccountName"; COST] ->
                exists c, get_column df name = Ok c) /\
  exists ds, get_column df "Date" = Ok (ColStr ds) /\
             Forall (fun x => exists s, x = Some s /\ is_Some (parse_iso_date s)) ds.




(** The key of each report and the function that writes it. *)
Definition report_generators
  : list (string * (DataFrame -> string -> string -> M unit)) :=
  [ ("SubscriptionName", cost_by_sub); ("MeterCategory", cost_by_meter_cat);
    ("AccountName", cost_by_account); ("Month", cost_by_month) ].

(** The columns [Month] and [Year] of a table whose dates are [ts]. *)
Definition month_column (ts : list (option Timestamp)) : column :=
  ColPeriod FreqM (map (option_map (period_ordinal FreqM)) ts).

Definition year_column (ts : list (option Timestamp)) : column :=
  ColPeriod FreqY (map (option_map (period_ordinal FreqY)) ts).

(** The table of the worked example, loaded with the declared dtypes. *)
Definition cost (n : Z) : option Qc := Some (Q2Qc (inject_Z n)).

Definition example_table : DataFrame :=
  [ ("SubscriptionName", ColStr [Some "A"; Some "A"; Some "B"]);
    ("CostInBillingCurrency", ColFloat [cost 10; cost 5; cost 3]);
    ("Date", ColStr [Some "2024-01-01"; Some "2024-01-15"; Some "2024-02-01"]) ].


(** A table with every key of every row present. *)
Definition complete_table : DataFrame :=
  [ ("SubscriptionName", ColStr [Some "A"; Some "A"; Some "B"]);
    ("MeterCategory", ColStr [Some "Storage"; Some "Compute"; Some "Storage"]);
    ("AccountName", ColStr [Some "Ops"; Some "Ops"; Some "Dev"]);
    ("Date", ColStr [Some "2024-01-01"; Some "2024-01-15"; Some "2024-02-01"]);
    ("CostInBillingCurrency", ColFloat [cost 10; cost 5; cost 3]) ].

(** The cost cells of a frame, as the rationals they denote. *)
Definition cost_values (df : DataFrame) : list (option Q) :=
  match get_column df COST with
  | Ok (ColFloat vals) => map (option_map this) vals
  | _ => []
  end.

Definition nl : string := String LF "".

(** The content of the file a computation leaves at [path], started in
    the empty world. *)
Definition written (m : M unit) (path : string) : option string :=
  files (fst (run m empty_world)) !! path.

(** The file names [main] gives the four reports. *)
Definition report_files : list string :=
  [ "cost_by_subscription.csv"; "cost_by_meter_cat.csv";
    "cost_by_account.csv"; "cost_by_month.csv" ].

(** The paths [main] computes. *)
Definition report_dir (env : Env) (out_dir : string) : string :=
  os_path_join out_dir (strftime (now env)).

Definition download_dir (out_dir : string) : string := os_path_join out_dir "raw".

Definition billing_file (env : Env) (out_dir : string) : string :=
  os_path_join (download_dir out_dir) (strftime (now env) ++ ".billing.csv").

(** An environment for the examples: a clock reading, a blob service that
    serves one text and a reader that loads [complete_table] from it. *)
Definition example_env (t : datetime) : Env :=
  mkEnv t (fun url => Ok url) (fun _ => Ok "billing export")
        (fun _ _ => Ok complete_table).

Definition clock_1 : datetime := mkDatetime 2024 3 5 10 20 30.
Definition clock_2 : datetime := mkDatetime 2024 3 6 8 0 1.

(** Which key goes to which file in [main]. *)
Definition report_plan : list (string * string) :=
  [ ("SubscriptionName", "cost_by_subscription.csv");
    ("MeterCategory", "cost_by_meter_cat.csv");
    ("AccountName", "cost_by_account.csv");
    ("Month", "cost_by_month.csv") ].

(** A run of [main] that gets as far as the loaded table [df]: the source
    is given, no file stands where a directory is to be made, the
    download succeeds and the reader returns [df]. *)
Definition loads (env : Env) (source out_dir : string) (w : World)
    (df : DataFrame) : Prop :=
  source <> "" /\
  (files w !! out_dir = None) /\
  (files w !! report_dir env out_dir = None) /\
  (files w !! download_dir out_dir = None) /\
  exists client text,
    from_blob_url env source = Ok client /\
    download_blob env client = Ok text /\
    read_csv env text BILLING_DETAIL_TYPES = Ok df.

(** The number of occurrences of a character, and the number of physical
    lines of a text: its line feeds. *)
Fixpoint count_char (c : ascii) (s : string) : nat :=
  match s with
  | EmptyString => 0
  | String c' s' => (if Ascii.eqb c' c then 1 else 0) + count_char c s'
  end.

Definition line_count (text : string) : nat := count_char LF text.

(** A table in which one subscription name holds a line break. *)
Definition table_line_break : DataFrame :=
  [ ("SubscriptionName", ColStr [Some ("A" ++ nl ++ "B")]);
    ("MeterCategory", ColStr [Some "Storage"]);
    ("AccountName", ColStr [Some "Ops"]);
    ("Date", ColStr [Some "2024-01-01"]);
    ("CostInBillingCurrency", ColFloat [cost 1]) ].

(** Environments in which the blob service fails: one whose download
    fails, one that rejects the URL, one whose reader fails. *)
Definition offline_env (t : datetime) : Env :=
  mkEnv t (fun url => Ok url) (fun _ => Raise TransferError)
        (fun _ _ => Raise ParserError).

Definition strict_env (t : datetime) : Env :=
  mkEnv t (fun _ => Raise (ValueError "Invalid URL"))
        (fun _ => Raise TransferError) (fun _ _ => Raise ParserError).

Definition unreadable_env (t : datetime) : Env :=
  mkEnv t (fun url => Ok url) (fun _ => Ok "not,a,billing,export")
        (fun _ _ => Raise ParserError).

(** A world that already holds a file. *)
Definition world_with_file (path data : string) : World :=
  mkWorld ∅ {[path := data]} [] [].

(** Two tables hold the same (key, cost) rows, in any order. *)
Definition same_rows (keys1 : column) (vals1 : list (option Qc))
    (keys2 : column) (vals2 : list (option Qc)) : Prop :=
  match keys1, keys2 with
  | ColStr k1, ColStr k2 => zip k1 vals1 ≡ₚ zip k2 vals2
  | ColFloat k1, ColFloat k2 => zip k1 vals1 ≡ₚ zip k2 vals2
  | ColDatetime k1, ColDatetime k2 => zip k1 vals1 ≡ₚ zip k2 vals2
  | ColPeriod f1 k1, ColPeriod f2 k2 => f1 = f2 /\ zip k1 vals1 ≡ₚ zip k2 vals2
  | _, _ => False
  end.

(** [column.fillna(0)] on the cells of a float column. *)
Definition fill_zero (vals : list (option Qc)) : list (option Qc) :=
  map (fun v => Some (default 0%Qc v)) vals.

(** The example table with its rows in another order. *)
Definition example_table_reordered : DataFrame :=
  [ ("SubscriptionName", ColStr [Some "B"; Some "A"; Some "A"]);
    ("CostInBillingCurrency", ColFloat [cost 3; cost 5; cost 10]);
    ("Date", ColStr [Some "2024-02-01"; Some "2024-01-15"; Some "2024-01-01"]) ].

(** A table with no rows. *)
Definition empty_table : DataFrame :=
  [ ("SubscriptionName", ColStr []); ("MeterCategory", ColStr []);
    ("AccountName", ColStr []); ("Date", ColStr []);
    ("CostInBillingCurrency", ColFloat []) ].

(** A table in which one cost is missing. *)
Definition table_missing_cost : DataFrame :=
  [ ("SubscriptionName", ColStr [Some "A"; Some "A"; Some "B"]);
    ("CostInBillingCurrency", ColFloat [cost 10; None; None]) ].

(** No file stands where [main] makes its three directories. *)
Definition can_make_dirs (env : Env) (out_dir : string) (w : World) : Prop :=
  (files w !! out_dir = None) /\
  (files w !! report_dir env out_dir = None) /\
  (files w !! download_dir out_dir = None).

(** A run of [main] that downloads [text] and loads the table [df] from
    it. *)
Definition fetches (env : Env) (source out_dir : string) (w : World)
    (text : string) (df : DataFrame) : Prop :=
  source <> "" /\
  can_make_dirs env out_dir w /\
  exists client,
    from_blob_url env source = Ok client /\
    download_blob env client = Ok text /\
    read_csv env text BILLING_DETAIL_TYPES = Ok df.

(** What [os.path.join] puts before a relative second component. *)
Definition join_prefix (a : string) : string :=
  if String.eqb a "" || ends_with_sep a then a else a ++ "/".

(** An environment whose reader returns a given table. *)
Definition table_env (t : datetime) (df : DataFrame) : Env :=
  mkEnv t (fun url => Ok url) (fun _ => Ok "billing export") (fun _ _ => Ok df).

(** A setting that is given (a non-empty text), or absent (not there, or
    the empty text); and the value a setting resolves to: the flag when it
    is given, otherwise the environment variable when that is given. *)
Definition given (o : option string) (s : string) : Prop := o = Some s /\ s <> "".

Definition absent (o : option string) : Prop := o = None \/ o = Some "".

Definition configured (flag var : option string) (s : string) : Prop :=
  given flag s \/ (absent flag /\ given var s).

(** A clock reading as [datetime.now()] returns it, in a year of four
    digits. *)
Definition valid_clock (t : datetime) : Prop :=
  (1000 <= Z.of_nat (year t) <= 9999)%Z /\ 1 <= month t <= 12 /\
  1 <= day t <= 31 /\ hour t <= 23 /\ minute t <= 59 /\
  second t <= 59.

(** Reads a decimal number back. *)
Definition read_nat (s : string) : option Z := number (list_ascii_of_string s) 0.

(** *** Reading a CSV text back *)

(** Where a reader of the dialect [to_csv] writes stands in a record. *)
Inductive csv_state : Type :=
| FieldStart | Unquoted | Quoted | QuoteSeen | AfterCR.

Definition field_text (field : list ascii) : string :=
  string_of_list_ascii (rev field).

Definition close_record (field : list ascii) (record : list string)
  : list string :=
  rev (field_text field :: record).

(** The records of a text.  [field] holds the characters of the current
    field and [record] the fields of the current record, both latest
    first.  Fields are separated by commas and records by a line feed, a
    carriage return or both; a field that starts with a quote runs to the
    closing quote, a doubled quote inside it standing for one; a line
    with nothing on it is no record. *)
Fixpoint csv_scan (st : csv_state) (field : list ascii) (record : list string)
    (cs : list ascii) : list (list string) :=
  match cs with
  | [] =>
      match st, record with
      | FieldStart, [] => []
      | AfterCR, _ => []
      | _, _ => [close_record field record]
      end
  | c :: cs' =>
      let break (next : csv_state) :=
        match st, record with
        | FieldStart, [] => csv_scan next [] [] cs'
        | _, _ => close_record field record :: csv_scan next [] [] cs'
        end in
      match st with
      | AfterCR =>
          if Ascii.eqb c LF then csv_scan FieldStart [] [] cs'
          else if Ascii.eqb c dquote then csv_scan Quoted [] [] cs'
          else if Ascii.eqb c comma then csv_scan FieldStart [] [""] cs'
          else if Ascii.eqb c CR then csv_scan AfterCR [] [] cs'
          else csv_scan Unquoted [c] [] cs'
      | FieldStart =>
          if Ascii.eqb c dquote then csv_scan Quoted [] record cs'
          else if Ascii.eqb c comma then csv_scan FieldStart [] ("" :: record) cs'
          else if Ascii.eqb c LF then break FieldStart
          else if Ascii.eqb c CR then break AfterCR
          else csv_scan Unquoted [c] record cs'
      | Unquoted =>
          if Ascii.eqb c comma
          then csv_scan FieldStart [] (field_text field :: record) cs'
          else if Ascii.eqb c LF then break FieldStart
          else if Ascii.eqb c CR then break AfterCR
          else csv_scan Unquoted (c :: field) record cs'
      | Quoted =>
          if Ascii.eqb c dquote then csv_scan QuoteSeen field record cs'
          else csv_scan Quoted (c :: field) record cs'
      | QuoteSeen =>
          if Ascii.eqb c dquote then csv_scan Quoted (dquote :: field) record cs'
          else if Ascii.eqb c comma
          then csv_scan FieldStart [] (field_text field :: record) cs'
          else if Ascii.eqb c LF then break FieldStart
          else if Ascii.eqb c CR then break AfterCR
          else csv_scan Unquoted (c :: field) record cs'
      end
  end.

(** What a CSV reader makes of the content of a file. *)
Definition csv_reader (text : string) : list (list string) :=
  csv_scan FieldStart [] [] (list_ascii_of_string text).

(** What the writer makes of a list of records. *)
Definition csv_text (records : list (list string)) : string :=
  String.concat "" (map (fun l => l ++ String LF "") (map csv_line records)).

(** The data rows of a report with two columns. *)
Definition report_rows (labels costs : column) : list (list string) :=
  zip_with (fun label cost => [label; cost])
           (column_text labels) (column_text costs).


(** *** Notions of the float64 proofs *)

(** [2^z * d <= n], for an exponent of either sign. *)
Definition above (z n d : Z) : Prop :=
  (2 ^ Z.max z 0 * d <= 2 ^ Z.max (- z) 0 * n)%Z.

(** The binary64 values are multiples of [2^-1074]. *)
Definition grid : positive := Z.to_pos (2 ^ 1074).

Definition on_grid (q : Q) : Prop := exists k : Z, (q == k # grid)%Q.

(** [2^-53]: the relative error of one rounding is at most this. *)
Definition ulp_half : Q := 1 # 9007199254740992.

(** What holds of the running sum [s] and its compensation [c] after
    [k] values whose exact sum is [S], whose absolute values add up to
    [A], with [B] the sum of the successive values of [A]. *)
Definition kahan_inv (s c : Qc) (S A B : Q) (k : Z) : Prop :=
  on_grid s /\ on_grid c /\ (0 <= A)%Q /\ (0 <= B)%Q /\
  (B <= inject_Z k * A)%Q /\
  (Qabs S <= A)%Q /\ (Qabs c <= 4 * ulp_half * A)%Q /\
  (Qabs (s - c - S) <= 3 * ulp_half * A + 32 * ulp_half * ulp_half * B)%Q.



(** * Properties *)

(** ** Grouping *)

Section GroupByFacts.
Context {K : Type} `{KeyDtype K}.

Lemma elem_of_present (keys : list (option K)) (k : K) :
  k ∈ present keys <-> Some k ∈ keys.
Proof.
  unfold present. rewrite list_elem_of_omap. split.
  - intros (x & Hx & Hid). simpl in Hid. subst. exact Hx.
  - intros Hk. exists (Some k). split; [exact Hk|reflexivity].
Qed.

Lemma group_keys_perm (keys : list (option K)) :
  group_keys keys ≡ₚ remove_dups (present keys).
Proof. apply merge_sort_Permutation. Qed.

Lemma NoDup_group_keys (keys : list (option K)) : NoDup (group_keys keys).
Proof. rewrite group_keys_perm. apply NoDup_remove_dups. Qed.

Lemma elem_of_group_keys (keys : list (option K)) (k : K) :
  k ∈ group_keys keys <-> Some k ∈ keys.
Proof.
  rewrite group_keys_perm, elem_of_remove_dups. apply elem_of_present.
Qed.

Lemma strictly_sorted (l : list K) :
  StronglySorted key_le l -> NoDup l -> StronglySorted key_lt l.
Proof.
  induction 1 as [|x l Hs IH Hx]; intros Hnd; [constructor|].
  apply NoDup_cons in Hnd as [Hnotin Hnd].
  constructor; [auto|].
  rewrite Forall_forall in Hx |- *. intros y Hy. split; [auto|].
  intros ->. apply Hnotin. exact Hy.
Qed.

Lemma group_keys_sorted (keys : list (option K)) :
  StronglySorted key_lt (group_keys keys).
Proof.
  apply strictly_sorted; [|apply NoDup_group_keys].
  apply StronglySorted_merge_sort; apply _.
Qed.

Lemma length_group_keys `{Countable K} (keys : list (option K)) :
  length (group_keys keys) = distinct_count keys.
Proof.
  unfold distinct_count. rewrite group_keys_perm.
  rewrite <- (size_list_to_set (C := gset K)) by apply NoDup_remove_dups.
  f_equal. apply set_eq. intros k.
  rewrite !elem_of_list_to_set, elem_of_remove_dups. reflexivity.
Qed.

End GroupByFacts.

(** ** binary64 rounding *)

Local Open Scope Z_scope.

Lemma round_half_even_near (n d : Z) :
  0 < d -> - d <= 2 * (round_half_even n d * d - n) <= d.
Proof.
  intros Hd. unfold round_half_even.
  pose proof (Z.div_mod n d ltac:(lia)) as Hdm.
  pose proof (Z.mod_pos_bound n d Hd) as Hr.
  destruct (Z.compare_spec (2 * (n mod d)) d) as [E|E|E];
    [destruct (Z.even (n / d))| |]; nia.
Qed.

Lemma round_half_even_exact (k d : Z) :
  0 < d -> round_half_even (k * d) d = k.
Proof.
  intros Hd. unfold round_half_even.
  rewrite Z.mod_mul, Z.div_mul by lia.
  destruct (Z.compare_spec (2 * 0) d); lia.
Qed.

Lemma above_binade (n d : Z) :
  0 < n -> 0 < d ->
  let l := Z.log2 n - Z.log2 d in
  above (if (2 ^ Z.max l 0 * d <=? 2 ^ Z.max (- l) 0 * n) then l else l - 1) n d.
Proof.
  intros Hn Hd l. destruct (Z.leb_spec (2 ^ Z.max l 0 * d) (2 ^ Z.max (- l) 0 * n)) as [Hle|Hgt].
  - exact Hle.
  - unfold above.
    pose proof (Z.log2_spec n Hn) as [Hn1 Hn2].
    pose proof (Z.log2_spec d Hd) as [Hd1 Hd2].
    pose proof (Z.log2_nonneg n). pose proof (Z.log2_nonneg d).
    rewrite Z.pow_succ_r in Hn2, Hd2 by lia.
    destruct (Z.le_gt_cases 1 l) as [Hl|Hl].
    + rewrite (Z.max_l (l - 1) 0), (Z.max_r (- (l - 1)) 0) by lia.
      replace (Z.log2 n) with (Z.log2 d + 1 + (l - 1)) in Hn1 by lia.
      rewrite Z.pow_add_r, Z.pow_add_r in Hn1 by lia.
      assert (0 < 2 ^ (l - 1)) by (apply Z.pow_pos_nonneg; lia).
      assert (0 < 2 ^ Z.log2 d) by (apply Z.pow_pos_nonneg; lia).
      change (2 ^ 0) with 1. change (2 ^ 1) with 2 in Hn1. nia.
    + rewrite (Z.max_r (l - 1) 0), (Z.max_l (- (l - 1)) 0) by lia.
      replace (Z.log2 d) with (Z.log2 n + (- (l - 1)) - 1) in Hd2 by lia.
      replace (2 * 2 ^ (Z.log2 n + - (l - 1) - 1))
        with (2 ^ (Z.log2 n + - (l - 1))) in Hd2.
      2:{ replace (Z.log2 n + - (l - 1)) with (Z.succ (Z.log2 n + - (l - 1) - 1)) at 1 by lia.
          rewrite Z.pow_succ_r by lia. reflexivity. }
      rewrite Z.pow_add_r in Hd2 by lia.
      assert (0 < 2 ^ (- (l - 1))) by (apply Z.pow_pos_nonneg; lia).
      change (2 ^ 0) with 1. nia.
Qed.

Lemma ulp_exponent_above (q : Q) :
  Qnum q <> 0 ->
  exists e0, above e0 (Z.abs (Qnum q)) (Zpos (Qden q)) /\
             ulp_exponent q = Z.max (e0 - 52) (-1074).
Proof.
  intros Hn. unfold ulp_exponent. eexists. split; [|reflexivity].
  apply above_binade; lia.
Qed.

Lemma ulp_exponent_min (q : Q) : -1074 <= ulp_exponent q.
Proof. unfold ulp_exponent. lia. Qed.

Lemma pow2_pos (z : Z) : 0 < 2 ^ Z.max z 0.
Proof. apply Z.pow_pos_nonneg; lia. Qed.

Lemma round64Q_diff (q : Q) :
  let e := ulp_exponent q in
  let N := Qnum q * 2 ^ Z.max (- e) 0 in
  let D := Zpos (Qden q) * 2 ^ Z.max e 0 in
  (round64Q q - q == (round_half_even N D * D - N)
                       # (Z.to_pos (2 ^ Z.max (- e) 0) * Qden q))%Q.
Proof.
  intros e N D. unfold round64Q. fold e. fold N. fold D.
  set (m := round_half_even N D). unfold scale2, Qminus, Qplus, Qopp, Qeq.
  cbn [Qnum Qden]. subst N D. destruct q as [n d]. cbn [Qnum Qden].
  pose proof (pow2_pos (- e)) as Ha.
  rewrite !Pos2Z.inj_mul, !Z2Pos.id by exact Ha. ring.
Qed.

Lemma round64Q_error (q : Q) :
  on_grid q ->
  (Qabs (round64Q q - q) <= (1 # 2 ^ 53) * Qabs q)%Q.
Proof.
  intros [k Hk]. rewrite round64Q_diff.
  destruct q as [n d]. cbn [Qnum Qden] in *.
  set (e := ulp_exponent (n # d)).
  set (N := n * 2 ^ Z.max (- e) 0). set (D := Z.pos d * 2 ^ Z.max e 0).
  pose proof (pow2_pos e) as Hb. pose proof (pow2_pos (- e)) as Ha.
  assert (HD : 0 < D) by (unfold D; nia).
  pose proof (round_half_even_near N D HD) as Hnear.
  set (m := round_half_even N D) in *.
  unfold Qle, Qmult, Qabs. cbn [Qnum Qden].
  rewrite !Pos2Z.inj_mul, !Z2Pos.id by exact Ha.
  change (Z.pos (2 ^ 53)) with (2 ^ 53).
  assert (Hgoal : Z.abs (m * D - N) * 2 ^ 53 <= Z.abs n * 2 ^ Z.max (- e) 0);
    [|nia].
  destruct (Z.eq_dec n 0) as [Hn|Hn].
  { assert (HN : N = 0 * D) by (unfold N; rewrite Hn; ring).
    assert (Hm : m = 0) by (unfold m; rewrite HN; apply round_half_even_exact, HD).
    rewrite Hm, HN. rewrite Z.mul_0_l. cbn. nia. }
  destruct (ulp_exponent_above (n # d)) as (e0 & Habove & He); [exact Hn|].
  fold e in He. unfold above in Habove. cbn [Qnum Qden] in Habove.
  assert (Hn' : 0 < Z.abs n) by lia.
  destruct (Z.le_gt_cases (-1074) (e0 - 52)) as [Hnorm|Hsub].
  - assert (Ee : e = e0 - 52) by lia.
    assert (HE : Z.abs (m * D - N) * 2 ^ 53 <= D * 2 ^ 52).
    { replace (2 ^ 53) with (2 * 2 ^ 52) by reflexivity. nia. }
    apply (Z.le_trans _ _ _ HE). unfold D. clear HE Hnear.
    destruct (Z.le_gt_cases 52 e0) as [H1|H1].
    + rewrite (Z.max_l e0 0), (Z.max_r (- e0) 0) in Habove by lia.
      rewrite (Z.max_l e 0), (Z.max_r (- e) 0) by lia.
      change (2 ^ 0) with 1 in *. rewrite Ee.
      replace (Z.pos d * 2 ^ (e0 - 52) * 2 ^ 52) with (Z.pos d * 2 ^ e0).
      * lia.
      * replace e0 with ((e0 - 52) + 52) at 1 by lia.
        rewrite Z.pow_add_r by lia. ring.
    + rewrite (Z.max_r e 0), (Z.max_l (- e) 0) by lia.
      change (2 ^ 0) with 1. rewrite Ee.
      destruct (Z.le_gt_cases 0 e0) as [H2|H2].
      * rewrite (Z.max_l e0 0), (Z.max_r (- e0) 0) in Habove by lia.
        change (2 ^ 0) with 1 in Habove.
        replace 52 with (e0 + - (e0 - 52)) at 1 by lia.
        rewrite Z.pow_add_r by lia.
        assert (0 < 2 ^ (- (e0 - 52))) by (apply Z.pow_pos_nonneg; lia).
        nia.
      * rewrite (Z.max_r e0 0), (Z.max_l (- e0) 0) in Habove by lia.
        change (2 ^ 0) with 1 in Habove.
        replace (- (e0 - 52)) with (- e0 + 52) by lia.
        rewrite Z.pow_add_r by lia.
        assert (0 < 2 ^ 52) by reflexivity.
        nia.
  - assert (Ee : e = -1074) by lia.
    assert (HN : N = k * D).
    { unfold N, D. rewrite Ee. change (Z.max (- -1074) 0) with 1074.
      change (Z.max (-1074) 0) with 0. change (2 ^ 0) with 1.
      unfold Qeq in Hk. cbn [Qnum Qden] in Hk.
      unfold grid in Hk. rewrite Z2Pos.id in Hk by (apply Z.pow_pos_nonneg; lia).
      rewrite Hk. ring. }
    assert (Hm : m = k) by (unfold m; rewrite HN; apply round_half_even_exact, HD).
    rewrite Hm, HN. replace (k * D - k * D) with 0 by ring. cbn. nia.
Qed.

Lemma round64Q_on_grid (q : Q) : on_grid (round64Q q).
Proof.
  unfold round64Q, on_grid, scale2.
  set (e := ulp_exponent q). set (m := round_half_even _ _).
  pose proof (ulp_exponent_min q) as Hmin. fold e in Hmin.
  exists (m * 2 ^ Z.max e 0 * 2 ^ (1074 - Z.max (- e) 0)).
  unfold Qeq. cbn [Qnum Qden]. unfold grid.
  pose proof (pow2_pos (- e)) as Ha.
  rewrite !Z2Pos.id by (try exact Ha; apply Z.pow_pos_nonneg; lia).
  replace 1074 with ((1074 - Z.max (- e) 0) + Z.max (- e) 0) at 1 by lia.
  rewrite Z.pow_add_r by lia. ring.
Qed.

Lemma on_grid_plus (a b : Q) : on_grid a -> on_grid b -> on_grid (a + b)%Q.
Proof.
  intros [k Hk] [l Hl]. exists (k + l). rewrite Hk, Hl.
  generalize grid. intros g. unfold Qeq, Qplus. cbn [Qnum Qden].
  rewrite Pos2Z.inj_mul. ring.
Qed.

Lemma on_grid_opp (a : Q) : on_grid a -> on_grid (- a)%Q.
Proof.
  intros [k Hk]. exists (- k). rewrite Hk. reflexivity.
Qed.

Lemma on_grid_minus (a b : Q) : on_grid a -> on_grid b -> on_grid (a - b)%Q.
Proof. intros Ha Hb. apply on_grid_plus; [exact Ha|apply on_grid_opp, Hb]. Qed.

Lemma on_grid_0 : on_grid 0%Q.
Proof. exists 0. reflexivity. Qed.

#[global] Instance on_grid_proper : Proper (Qeq ==> iff) on_grid.
Proof.
  intros a b Hab. unfold on_grid. split; intros [k Hk]; exists k.
  - rewrite <- Hab. exact Hk.
  - rewrite Hab. exact Hk.
Qed.

Local Close Scope Z_scope.
Local Open Scope Q_scope.

Lemma Qabs_cases (z : Q) :
  (0 <= z /\ Qabs z == z) \/ (z <= 0 /\ Qabs z == - z).
Proof.
  destruct (Qlt_le_dec z 0) as [Hneg|Hpos].
  - right. split; [apply Qlt_le_weak, Hneg|]. apply Qabs_neg, Qlt_le_weak, Hneg.
  - left. split; [exact Hpos|]. apply Qabs_pos, Hpos.
Qed.

(** One step of the compensated sum, with the four roundings it makes. *)
Lemma kahan_step_bound (x s c S A B y t d c' : Q) :
  Qabs (y - (x - c)) <= ulp_half * Qabs (x - c) ->
  Qabs (t - (s + y)) <= ulp_half * Qabs (s + y) ->
  Qabs (d - (t - s)) <= ulp_half * Qabs (t - s) ->
  Qabs (c' - (d - y)) <= ulp_half * Qabs (d - y) ->
  0 <= A -> 0 <= B -> B <= 4294967296 * A ->
  Qabs S <= A ->
  Qabs c <= 4 * ulp_half * A ->
  Qabs (s - c - S) <= 3 * ulp_half * A + 32 * ulp_half * ulp_half * B ->
  Qabs (S + x) <= A + Qabs x /\
  Qabs c' <= 4 * ulp_half * (A + Qabs x) /\
  Qabs (t - c' - (S + x))
    <= 3 * ulp_half * (A + Qabs x)
       + 32 * ulp_half * ulp_half * (B + (A + Qabs x)).
Proof.
  unfold ulp_half.
  intros H1 H2 H3 H4 HA HB HBA HS Hc Hr.
  apply Qabs_Qle_condition in HS, Hc, Hr.
  destruct (Qabs_cases (x - c)) as [[? E1]|[? E1]]; rewrite E1 in H1; clear E1;
  destruct (Qabs_cases (s + y)) as [[? E2]|[? E2]]; rewrite E2 in H2; clear E2;
  destruct (Qabs_cases (t - s)) as [[? E3]|[? E3]]; rewrite E3 in H3; clear E3;
  destruct (Qabs_cases (d - y)) as [[? E4]|[? E4]]; rewrite E4 in H4; clear E4;
  destruct (Qabs_cases x) as [[? E5]|[? E5]]; rewrite E5; clear E5;
  apply Qabs_Qle_condition in H1, H2, H3, H4;
  rewrite !Qabs_Qle_condition; repeat split; lra.
Qed.

Lemma this_round64 (q : Qc) : this (round64 q) == round64Q q.
Proof. unfold round64. cbn. apply Qred_correct. Qed.

Lemma this_plus (a b : Qc) : this (a + b)%Qc == this a + this b.
Proof. cbn. apply Qred_correct. Qed.

Lemma this_minus (a b : Qc) : this (a - b)%Qc == this a - this b.
Proof.
  unfold Qcminus. rewrite this_plus. cbn. rewrite Qred_correct. reflexivity.
Qed.

Lemma this_abs (a : Qc) : this (Qcabs a) == Qabs (this a).
Proof. cbn. apply Qred_correct. Qed.

Lemma round64_on_grid (q : Qc) : on_grid (round64 q).
Proof. rewrite this_round64. apply round64Q_on_grid. Qed.

Lemma is_float64_on_grid (q : Qc) : is_float64 q -> on_grid q.
Proof. intros <-. apply round64_on_grid. Qed.

Lemma round64_error (q : Qc) :
  on_grid q -> Qabs (round64 q - q) <= ulp_half * Qabs q.
Proof.
  intros Hq. rewrite this_round64. apply round64Q_error, Hq.
Qed.

Lemma kahan_inv_step (s c x : Qc) (S A B : Q) (k : Z) :
  (0 <= k < 2 ^ 32)%Z ->
  is_float64 x ->
  kahan_inv s c S A B k ->
  kahan_inv (kahan_step (s, c) x).1 (kahan_step (s, c) x).2
            (S + x) (A + Qabs x) (B + (A + Qabs x)) (k + 1).
Proof.
  intros Hk Hx (Gs & Gc & HA & HB & HBk & HS & Hc & Hr).
  apply is_float64_on_grid in Hx.
  unfold kahan_step. cbn [fst snd].
  set (y := round64 (x - c)%Qc).
  set (t := round64 (s + y)%Qc).
  set (d := round64 (t - s)%Qc).
  set (c' := round64 (d - y)%Qc).
  assert (Gy : on_grid y) by apply round64_on_grid.
  assert (Gt : on_grid t) by apply round64_on_grid.
  assert (Gd : on_grid d) by apply round64_on_grid.
  assert (H1 : Qabs (y - (x - c)) <= ulp_half * Qabs (x - c)).
  { rewrite <- this_minus. apply round64_error. rewrite this_minus.
    apply on_grid_minus; assumption. }
  assert (H2 : Qabs (t - (s + y)) <= ulp_half * Qabs (s + y)).
  { rewrite <- this_plus. apply round64_error. rewrite this_plus.
    apply on_grid_plus; assumption. }
  assert (H3 : Qabs (d - (t - s)) <= ulp_half * Qabs (t - s)).
  { rewrite <- this_minus. apply round64_error. rewrite this_minus.
    apply on_grid_minus; assumption. }
  assert (H4 : Qabs (c' - (d - y)) <= ulp_half * Qabs (d - y)).
  { rewrite <- this_minus. apply round64_error. rewrite this_minus.
    apply on_grid_minus; assumption. }
  assert (HB32 : B <= 4294967296 * A).
  { apply (Qle_trans _ _ _ HBk).
    apply Qmult_le_compat_r; [|exact HA].
    change 4294967296 with (inject_Z (2 ^ 32)). rewrite <- Zle_Qle. lia. }
  destruct (kahan_step_bound x s c S A B y t d c' H1 H2 H3 H4 HA HB HB32 HS Hc Hr)
    as (HS' & Hc' & Hr').
  pose proof (Qabs_nonneg x) as Hax.
  repeat split; try assumption; try apply round64_on_grid.
  - lra.
  - lra.
  - rewrite inject_Z_plus.
    assert (Hk0 : 0 <= inject_Z k)
      by (change 0 with (inject_Z 0); rewrite <- Zle_Qle; lia).
    assert (Hmono : inject_Z k * A <= inject_Z k * (A + Qabs x)).
    { rewrite !(Qmult_comm (inject_Z k)).
      apply Qmult_le_compat_r; [lra|exact Hk0]. }
    change (inject_Z 1) with 1. lra.
Qed.

Lemma kahan_inv_wd (s c : Qc) (S S' A A' B : Q) (k : Z) :
  S == S' -> A == A' -> kahan_inv s c S A B k -> kahan_inv s c S' A' B k.
Proof.
  intros HS HA (Gs & Gc & H1 & H2 & H3 & H4 & H5 & H6).
  unfold kahan_inv. rewrite <- HS, <- HA. repeat split; assumption.
Qed.

Lemma kahan_inv_fold (xs : list Qc) :
  forall (s c : Qc) (S A B : Q) (k : Z),
    (0 <= k)%Z -> (k + Z.of_nat (length xs) <= 2 ^ 32)%Z ->
    Forall is_float64 xs ->
    kahan_inv s c S A B k ->
    exists B',
      kahan_inv (foldl kahan_step (s, c) xs).1 (foldl kahan_step (s, c) xs).2
                (S + qsum xs) (A + qsum (map Qcabs xs)) B'
                (k + Z.of_nat (length xs)).
Proof.
  induction xs as [|x xs IH]; intros s c S A B k Hk Hlen Hfl Hinv.
  - exists B. cbn [foldl length fst snd qsum map foldr].
    rewrite Z.add_0_r.
    apply (kahan_inv_wd s c S _ A _ B k); [| |exact Hinv];
      change (this 0%Qc) with (0 # 1); lra.
  - apply Forall_cons in Hfl as [Hx Hfl].
    cbn [length] in Hlen. rewrite Nat2Z.inj_succ in Hlen.
    pose proof (kahan_inv_step s c x S A B k ltac:(lia) Hx Hinv) as Hstep.
    destruct (kahan_step (s, c) x) as [s1 c1] eqn:E. cbn [fst snd] in Hstep.
    destruct (IH s1 c1 _ _ _ (k + 1)%Z ltac:(lia) ltac:(lia) Hfl Hstep)
      as [B' HB'].
    exists B'. cbn [foldl]. rewrite E.
    cbn [length]. rewrite Nat2Z.inj_succ.
    replace (k + Z.succ (Z.of_nat (length xs)))%Z
      with (k + 1 + Z.of_nat (length xs))%Z by lia.
    refine (kahan_inv_wd _ _ _ _ _ _ _ _ _ _ HB').
    + change (qsum (x :: xs)) with (x + qsum xs)%Qc. rewrite this_plus. lra.
    + change (qsum (map Qcabs (x :: xs))) with (Qcabs x + qsum (map Qcabs xs))%Qc.
      rewrite this_plus, this_abs. lra.
Qed.

Lemma kahan_sum_error (xs : list Qc) :
  Forall is_float64 xs ->
  (Z.of_nat (length xs) <= 2 ^ 32)%Z ->
  Qabs (kahan_sum xs - qsum xs) <= (1 # 1125899906842624) * qsum (map Qcabs xs).
Proof.
  intros Hfl Hlen.
  destruct (kahan_inv_fold xs 0%Qc 0%Qc 0 0 0 0%Z ltac:(lia) ltac:(lia) Hfl)
    as (B & Gs & Gc & HA & HB & HBk & HS & Hc & Hr).
  { unfold kahan_inv. repeat split; try apply on_grid_0; try (cbn; lra);
      try (vm_compute; discriminate). }
  unfold kahan_sum.
  set (s := (foldl kahan_step (0%Qc, 0%Qc) xs).1) in *.
  set (c := (foldl kahan_step (0%Qc, 0%Qc) xs).2) in *.
  rewrite Z.add_0_l in HBk. rewrite !Qplus_0_l in *.
  assert (HB32 : B <= 4294967296 * qsum (map Qcabs xs)).
  { apply (Qle_trans _ _ _ HBk).
    apply Qmult_le_compat_r; [|exact HA].
    change 4294967296 with (inject_Z (2 ^ 32)). rewrite <- Zle_Qle. exact Hlen. }
  unfold ulp_half in *.
  apply Qabs_Qle_condition in Hc, Hr. apply Qabs_Qle_condition.
  split; lra.
Qed.

Local Close Scope Q_scope.

(** ** Selecting the rows of a group *)

Section SumFacts.
Context {K : Type} `{KeyDtype K}.

Lemma select_nil_r (P : option K -> bool) (keys : list (option K)) :
  select P keys [] = [].
Proof. destruct keys; reflexivity. Qed.

Lemma select_cons (P : option K -> bool) ko keys v vals :
  select P (ko :: keys) (v :: vals) =
  if P ko then v :: select P keys vals else select P keys vals.
Proof.
  unfold select. simpl. destruct (P ko) eqn:E.
  - rewrite filter_cons_True by exact E. reflexivity.
  - rewrite filter_cons_False by (simpl; congruence). reflexivity.
Qed.

End SumFacts.

(** ** Exact sums *)


Lemma exact_sum_present (vals : list (option Qc)) :
  exact_sum vals = qsum (omap id vals).
Proof.
  induction vals as [|[v|] vals IH]; [reflexivity| |].
  - change (exact_sum (Some v :: vals)) with (v + exact_sum vals)%Qc.
    rewrite IH. reflexivity.
  - change (exact_sum (None :: vals)) with (0 + exact_sum vals)%Qc.
    rewrite IH. apply Qcplus_0_l.
Qed.

Lemma abs_sum_present (vals : list (option Qc)) :
  abs_sum vals = qsum (map Qcabs (omap id vals)).
Proof.
  unfold abs_sum. rewrite exact_sum_present. f_equal.
  induction vals as [|[v|] vals IH]; [reflexivity| |].
  - simpl. f_equal. apply IH.
  - simpl. apply IH.
Qed.

Section ExactSums.
Context {K : Type} `{KeyDtype K}.

Lemma select_masked (P : option K -> bool) (keys : list (option K))
    (vals : list (option Qc)) :
  select P keys vals = masked (map P keys) vals.
Proof.
  unfold masked. revert vals.
  induction keys as [|ko keys IH]; intros [|v vals]; try reflexivity.
  rewrite select_cons. simpl. destruct (P ko) eqn:E.
  - rewrite filter_cons_True by reflexivity. simpl. rewrite IH. reflexivity.
  - rewrite filter_cons_False by (simpl; congruence). apply IH.
Qed.

Lemma select_map (P : option K -> bool) (f : option Qc -> option Qc)
    (keys : list (option K)) (vals : list (option Qc)) :
  select P keys (map f vals) = map f (select P keys vals).
Proof.
  revert vals. induction keys as [|ko keys IH]; intros [|v vals];
    try reflexivity.
  cbn [map]. rewrite !select_cons. destruct (P ko); cbn [map]; rewrite IH;
    reflexivity.
Qed.

Lemma select_sublist (P : option K -> bool) (keys : list (option K))
    (vals : list (option Qc)) :
  sublist (select P keys vals) vals.
Proof.
  revert vals. induction keys as [|ko keys IH]; intros [|v vals];
    try (apply sublist_nil_l).
  rewrite select_cons. destruct (P ko).
  - apply sublist_skip, IH.
  - apply sublist_cons, IH.
Qed.




End ExactSums.



(** ** Float64 sums against exact sums *)

Lemma this_mult (a b : Qc) : (this (a * b)%Qc == this a * this b)%Q.
Proof. cbn. apply Qred_correct. Qed.

Lemma close_to_iff (a b scale : Qc) :
  close_to a b scale <->
  (Qabs (a - b) <= (1 # 1125899906842624) * scale)%Q.
Proof.
  unfold close_to, Qcle.
  rewrite this_abs, this_minus, this_mult.
  unfold tolerance. cbn [this Q2Qc]. rewrite Qred_correct. reflexivity.
Qed.

(** The sum pandas computes is the exact sum within tolerance. *)
Lemma nansum_close (vals : list (option Qc)) :
  Forall is_float64 (omap id vals) ->
  (Z.of_nat (length vals) <= 2 ^ 32)%Z ->
  close_to (nansum vals) (exact_sum vals) (abs_sum vals).
Proof.
  intros Hfl Hlen. apply close_to_iff.
  rewrite exact_sum_present, abs_sum_present. unfold nansum.
  apply kahan_sum_error; [exact Hfl|].
  assert (Hle : (length (omap id vals) <= length vals)%nat).
  { clear. induction vals as [|[v|] vals IH]; [apply Nat.le_refl| |].
    - change (omap id (Some v :: vals)) with (v :: omap id vals).
      cbn [length]. apply le_n_S, IH.
    - change (omap id (None :: vals)) with (omap id vals).
      cbn [length]. apply Nat.le_le_succ_r, IH. }
  apply Nat2Z.inj_le in Hle. exact (Z.le_trans _ _ _ Hle Hlen).
Qed.




Section GroupSums.
Context {K : Type} `{KeyDtype K}.

Lemma select_present (P : option K -> bool) (Q : Qc -> Prop)
    (keys : list (option K)) (vals : list (option Qc)) :
  Forall Q (omap id vals) -> Forall Q (omap id (select P keys vals)).
Proof.
  revert vals. induction keys as [|ko keys IH]; intros [|v vals] Hall;
    try (rewrite ?select_nil_r; constructor).
  rewrite select_cons.
  assert (Hrest : Forall Q (omap id vals)).
  { destruct v as [q|]; [|exact Hall].
    change (omap id (Some q :: vals)) with (q :: omap id vals) in Hall.
    apply Forall_cons in Hall as [_ Hall]. exact Hall. }
  destruct (P ko); [|apply IH, Hrest].
  destruct v as [q|].
  - change (omap id (Some q :: select P keys vals))
      with (q :: omap id (select P keys vals)).
    change (omap id (Some q :: vals)) with (q :: omap id vals) in Hall.
    apply Forall_cons in Hall as [Hq _].
    constructor; [exact Hq|apply IH, Hrest].
  - apply IH, Hrest.
Qed.

(** The sum written for one group is, within tolerance, the exact sum of
    the costs of its rows. *)
Lemma group_sum_close (k : K) (keys : list (option K))
    (vals : list (option Qc)) :
  Forall is_float64 (omap id vals) ->
  (Z.of_nat (length vals) <= 2 ^ 32)%Z ->
  close_to (group_sum k keys vals)
           (exact_sum (select (is_key k) keys vals))
           (abs_sum (select (is_key k) keys vals)).
Proof.
  intros Hfl Hlen. unfold group_sum. apply nansum_close.
  - apply select_present, Hfl.
  - pose proof (sublist_length _ _ (select_sublist (is_key k) keys vals)) as Hle.
    apply Nat2Z.inj_le in Hle. exact (Z.le_trans _ _ _ Hle Hlen).
Qed.


End GroupSums.



(** ** Frames *)

Lemma get_set_column_eq (df : DataFrame) (name : string) (c : column) :
  get_column (set_column df name c) name = Ok c.
Proof.
  induction df as [|[n c'] df IH]; simpl.
  - rewrite String.eqb_refl. reflexivity.
  - destruct (String.eqb n name) eqn:E; simpl.
    + rewrite String.eqb_refl. reflexivity.
    + rewrite E. exact IH.
Qed.

Lemma get_set_column_ne (df : DataFrame) (name name' : string) (c : column) :
  name <> name' ->
  get_column (set_column df name c) name' = get_column df name'.
Proof.
  intros Hne. induction df as [|[n c'] df IH]; simpl.
  - apply String.eqb_neq in Hne. rewrite Hne. reflexivity.
  - destruct (String.eqb n name) eqn:E; simpl.
    + apply String.eqb_eq in E. subst n.
      apply String.eqb_neq in Hne. rewrite Hne. reflexivity.
    + rewrite IH. reflexivity.
Qed.

Lemma rectangular_get (df : DataFrame) (name : string) (c : column) :
  rectangular df -> get_column df name = Ok c -> col_len c = nrows df.
Proof.
  unfold rectangular. generalize (nrows df). intros n Hrect.
  induction Hrect as [|[m c'] df Hc Hrect IH]; simpl; [discriminate|].
  destruct (String.eqb m name); [|exact IH].
  intros [= <-]. exact Hc.
Qed.

(** The frame [aggregate] returns. *)
Lemma aggregate_ok (df : DataFrame) (by_ : string) (keys : column)
    (vals : list (option Qc)) :
  get_column df by_ = Ok keys ->
  get_column df COST = Ok (ColFloat vals) ->
  by_ <> COST ->
  aggregate df by_
  = Ok [ (by_, column_group_keys keys);
         (COST, ColFloat (Some <$> column_group_sums keys vals)) ].
Proof.
  intros Hk Hv Hne.
  assert (E : String.eqb "CostInBillingCurrency" by_ = false).
  { apply String.eqb_neq. intros E. apply Hne. symmetry. exact E. }
  unfold aggregate, groupby. rewrite Hk.
  cbn [mbind result_bind mret result_ret].
  unfold agg_sum. cbn [gb_by gb_obj gb_keys]. rewrite E.
  unfold COST in Hv. rewrite Hv.
  cbn [mbind result_bind mret result_ret].
  unfold reset_index. cbn [ix_name ix_data ix_labels column_names map fst].
  rewrite bool_decide_eq_false_2; [reflexivity|].
  rewrite list_elem_of_singleton. exact Hne.
Qed.


Lemma length_column_group_sums (keys : column) (vals : list (option Qc)) :
  length (column_group_sums keys vals) = col_len (column_group_keys keys).
Proof.
  destruct keys; simpl; unfold group_sums;
    rewrite length_map, length_fmap; reflexivity.
Qed.

(** ** The CSV writer *)


Lemma length_column_text (c : column) : length (column_text c) = col_len c.
Proof. destruct c; simpl; apply length_map. Qed.

Lemma length_to_csv_lines (df : DataFrame) :
  length (to_csv_lines df) = S (nrows df).
Proof.
  unfold to_csv_lines, csv_records. cbn [map length].
  rewrite !length_map, length_seq. reflexivity.
Qed.


(** *** Lines of the text *)

Lemma count_char_app (c : ascii) (a b : string) :
  count_char c (a ++ b) = count_char c a + count_char c b.
Proof.
  induction a as [|x a IH]; [reflexivity|].
  change (count_char c (String x (a ++ b))
          = count_char c (String x a) + count_char c b).
  cbn [count_char]. rewrite IH. lia.
Qed.

Lemma count_char_of_list (c : ascii) (l : list ascii) :
  Forall (fun x => x <> c) l -> count_char c (string_of_list_ascii l) = 0.
Proof.
  induction 1 as [|x l Hx _ IH]; [reflexivity|].
  cbn [string_of_list_ascii count_char]. rewrite IH.
  apply Ascii.eqb_neq in Hx. rewrite Hx. reflexivity.
Qed.

Lemma count_char_to_list (c : ascii) (s : string) :
  count_char c s = 0 -> Forall (fun x => x <> c) (list_ascii_of_string s).
Proof.
  induction s as [|x s IH]; cbn [count_char list_ascii_of_string];
    [constructor|].
  destruct (Ascii.eqb x c) eqn:E; [discriminate|].
  intros Hs. constructor; [apply Ascii.eqb_neq; exact E|apply IH; exact Hs].
Qed.

Lemma count_char_substring (c : ascii) (n m : nat) (s : string) :
  count_char c s = 0 -> count_char c (substring n m s) = 0.
Proof.
  revert n m. induction s as [|x s IH]; intros n m Hs.
  - destruct n, m; reflexivity.
  - cbn [count_char] in Hs.
    destruct (Ascii.eqb x c) eqn:E; [discriminate|].
    destruct n as [|n]; [destruct m as [|m]|]; cbn [substring count_char];
      rewrite ?E, ?IH by exact Hs; reflexivity.
Qed.

Lemma count_char_digits (c : ascii) (u : Decimal.uint) :
  (forall d, In d (list_ascii_of_string "0123456789") -> d <> c) ->
  count_char c (NilZero.string_of_uint u) = 0.
Proof.
  intros Hd.
  assert (Hne : count_char c (NilEmpty.string_of_uint u) = 0).
  { induction u; cbn [NilEmpty.string_of_uint count_char]; rewrite ?IHu;
      try reflexivity;
      match goal with
      | |- context [Ascii.eqb ?d c] =>
          assert (E : Ascii.eqb d c = false)
            by (apply Ascii.eqb_neq, Hd; cbn; tauto);
          rewrite E; reflexivity
      end. }
  destruct u; try exact Hne. cbn [NilZero.string_of_uint count_char].
  assert (E : Ascii.eqb "0" c = false) by (apply Ascii.eqb_neq, Hd; cbn; tauto).
  rewrite E. reflexivity.
Qed.

Lemma count_LF_digits (u : Decimal.uint) :
  count_char LF (NilZero.string_of_uint u) = 0.
Proof.
  apply count_char_digits. cbn. intros d Hd.
  repeat (destruct Hd as [<-|Hd]; [discriminate|]). destruct Hd.
Qed.

Lemma count_LF_zeros (n : nat) : count_char LF (zeros n) = 0.
Proof.
  unfold zeros. apply count_char_of_list. apply Forall_replicate. discriminate.
Qed.

Lemma count_LF_zfill (n : nat) (s : string) :
  count_char LF s = 0 -> count_char LF (zfill n s) = 0.
Proof.
  intros Hs. unfold zfill. rewrite count_char_app, count_LF_zeros, Hs.
  reflexivity.
Qed.

Lemma count_LF_strip (s : string) :
  count_char LF s = 0 -> count_char LF (strip_trailing_zeros s) = 0.
Proof.
  intros Hs. unfold strip_trailing_zeros. apply count_char_of_list.
  apply count_char_to_list in Hs.
  assert (Hdrop : forall l, Forall (fun x => x <> LF) l ->
                            Forall (fun x => x <> LF) (drop_zeros l)).
  { induction 1 as [|x l Hx Hl IH]; cbn [drop_zeros]; [constructor|].
    destruct (Ascii.eqb x "0"); [exact IH|constructor; assumption]. }
  apply Forall_rev, Hdrop, Forall_rev. exact Hs.
Qed.

Lemma count_LF_decimal_repr (q : Qc) : count_char LF (decimal_repr q) = 0.
Proof.
  unfold decimal_repr.
  assert (Hsign : forall n : Z,
             count_char LF (if (n <? 0)%Z then "-" else "") = 0).
  { intros n. destruct (n <? 0)%Z; reflexivity. }
  repeat match goal with
         | |- context [if ?b then _ else _] => destruct b
         end;
    rewrite ?count_char_app, ?Hsign, ?count_LF_zeros;
    rewrite ?count_char_substring, ?count_LF_zfill, ?count_LF_strip;
    unfold digits; rewrite ?count_LF_digits; try reflexivity;
    try apply count_LF_digits; try apply count_LF_strip;
    try apply count_LF_digits.
Qed.

(** The text of a float holds no line feed. *)
Lemma count_LF_float_repr (q : Qc) : count_char LF (float_repr q) = 0.
Proof.
  unfold float_repr. destruct (Qnum (round64 q) =? 0)%Z; [reflexivity|].
  apply count_LF_decimal_repr.
Qed.

Lemma count_LF_csv_field (s : string) :
  count_char LF (csv_field s) = count_char LF s.
Proof.
  assert (Hdq : forall t, count_char LF (double_quotes t) = count_char LF t).
  { induction t as [|x t IH]; [reflexivity|]. cbn [double_quotes].
    destruct (Ascii.eqb x dquote) eqn:E.
    - apply Ascii.eqb_eq in E. subst x. cbn [count_char]. rewrite IH.
      reflexivity.
    - cbn [count_char]. rewrite IH. reflexivity. }
  unfold csv_field. destruct (needs_quote s); [|reflexivity].
  cbn [count_char]. rewrite count_char_app, Hdq. cbn. lia.
Qed.

Lemma count_LF_csv_line (fields : list string) :
  Forall (fun f => count_char LF f = 0) fields ->
  count_char LF (csv_line fields) = 0.
Proof.
  unfold csv_line. induction 1 as [|f fields Hf Hfs IH]; [reflexivity|].
  cbn [map join]. destruct (map csv_field fields) eqn:E.
  - rewrite count_LF_csv_field. exact Hf.
  - rewrite !count_char_app, count_LF_csv_field, Hf, IH. reflexivity.
Qed.

Lemma line_count_concat (lines : list string) :
  Forall (fun l => count_char LF l = 0) lines ->
  line_count (String.concat "" (map (fun l => l ++ nl) lines)) = length lines.
Proof.
  unfold line_count. induction 1 as [|l lines Hl Hls IH]; [reflexivity|].
  cbn [map String.concat length].
  destruct (map (fun l0 => l0 ++ nl) lines) eqn:E.
  - destruct lines; [|discriminate E]. rewrite count_char_app, Hl. reflexivity.
  - rewrite !count_char_app, Hl, IH. reflexivity.
Qed.

Lemma Forall_nth_default {A} (P : A -> Prop) (l : list A) (d : A) (i : nat) :
  Forall P l -> P d -> P (nth i l d).
Proof.
  intros Hl Hd. revert i.
  induction Hl as [|x l Hx _ IH]; intros [|i]; cbn [nth]; auto.
Qed.

Lemma string_app_assoc (a b c : string) : (a ++ b) ++ c = a ++ (b ++ c).
Proof.
  induction a as [|x a IH]; [reflexivity|].
  change (String x ((a ++ b) ++ c) = String x (a ++ (b ++ c))).
  rewrite IH. reflexivity.
Qed.

(** *** The reader undoes the writer *)

Lemma list_ascii_app (a b : string) :
  list_ascii_of_string (a ++ b)
  = (list_ascii_of_string a ++ list_ascii_of_string b)%list.
Proof.
  induction a as [|x a IH]; [reflexivity|].
  change (String x a ++ b) with (String x (a ++ b)).
  cbn [list_ascii_of_string]. rewrite IH. reflexivity.
Qed.

Lemma field_text_rev (s : string) (c : list ascii) :
  field_text (rev (list_ascii_of_string s) ++ c)%list
  = string_of_list_ascii (rev c) ++ s.
Proof.
  unfold field_text. rewrite rev_app_distr, rev_involutive.
  induction (rev c) as [|x l IH]; cbn [app string_of_list_ascii].
  - apply string_of_list_ascii_of_string.
  - rewrite IH. reflexivity.
Qed.

Lemma special_false (c : ascii) :
  special c = false ->
  Ascii.eqb c comma = false /\ Ascii.eqb c dquote = false /\
  Ascii.eqb c LF = false /\ Ascii.eqb c CR = false.
Proof.
  unfold special. intros H.
  repeat (apply orb_false_iff in H as [H ?]). auto.
Qed.

Lemma scan_unquoted (s : string) :
  forall field record rest,
    needs_quote s = false ->
    csv_scan Unquoted field record (list_ascii_of_string s ++ rest)
    = csv_scan Unquoted (rev (list_ascii_of_string s) ++ field) record rest.
Proof.
  induction s as [|c s IH]; intros field record rest Hq; [reflexivity|].
  cbn [needs_quote] in Hq. apply orb_false_iff in Hq as [Hc Hs].
  apply special_false in Hc as (H1 & H2 & H3 & H4).
  cbn [list_ascii_of_string app csv_scan]. rewrite H1, H3, H4.
  rewrite IH by exact Hs. cbn [rev]. rewrite <- app_assoc. reflexivity.
Qed.

Lemma scan_quoted (s : string) :
  forall field record rest,
    csv_scan Quoted field record
             (list_ascii_of_string (double_quotes s) ++ dquote :: rest)
    = csv_scan QuoteSeen (rev (list_ascii_of_string s) ++ field) record rest.
Proof.
  induction s as [|c s IH]; intros field record rest.
  - cbn [double_quotes list_ascii_of_string app csv_scan rev].
    rewrite Ascii.eqb_refl. reflexivity.
  - cbn [double_quotes]. destruct (Ascii.eqb c dquote) eqn:E.
    + apply Ascii.eqb_eq in E. subst c.
      cbn [list_ascii_of_string app csv_scan]. rewrite !Ascii.eqb_refl.
      cbv iota.
      rewrite IH. cbn [rev]. rewrite <- app_assoc. reflexivity.
    + cbn [list_ascii_of_string app csv_scan]. rewrite E.
      rewrite IH. cbn [rev]. rewrite <- app_assoc. reflexivity.
Qed.

(** A written field, read up to the comma that follows it. *)
Lemma scan_field_comma (f : string) (record : list string) (rest : list ascii) :
  csv_scan FieldStart [] record
           (list_ascii_of_string (csv_field f) ++ comma :: rest)
  = csv_scan FieldStart [] (f :: record) rest.
Proof.
  unfold csv_field. destruct (needs_quote f) eqn:Hq.
  - cbn [list_ascii_of_string app csv_scan]. rewrite Ascii.eqb_refl.
    rewrite list_ascii_app, <- app_assoc. cbn [list_ascii_of_string app].
    rewrite scan_quoted. cbn [csv_scan].
    change (Ascii.eqb comma dquote) with false. rewrite Ascii.eqb_refl. cbv iota.
    rewrite field_text_rev. reflexivity.
  - destruct f as [|c f].
    + cbn [list_ascii_of_string app csv_scan].
      change (Ascii.eqb comma dquote) with false. rewrite Ascii.eqb_refl.
      reflexivity.
    + cbn [needs_quote] in Hq. apply orb_false_iff in Hq as [Hc Hs].
      apply special_false in Hc as (H1 & H2 & H3 & H4).
      cbn [list_ascii_of_string app csv_scan]. rewrite H1, H2, H3, H4.
      rewrite scan_unquoted by exact Hs. cbn [csv_scan].
      rewrite Ascii.eqb_refl. rewrite field_text_rev. reflexivity.
Qed.

(** A written field, read up to the line feed that ends its record. *)
Lemma scan_field_LF (f : string) (record : list string) (rest : list ascii) :
  f <> "" \/ record <> [] ->
  csv_scan FieldStart [] record
           (list_ascii_of_string (csv_field f) ++ LF :: rest)
  = rev (f :: record) :: csv_scan FieldStart [] [] rest.
Proof.
  intros Hne. unfold csv_field. destruct (needs_quote f) eqn:Hq.
  - cbn [list_ascii_of_string app csv_scan]. rewrite Ascii.eqb_refl.
    rewrite list_ascii_app, <- app_assoc. cbn [list_ascii_of_string app].
    rewrite scan_quoted. cbn [csv_scan].
    change (Ascii.eqb LF dquote) with false.
    change (Ascii.eqb LF comma) with false. rewrite Ascii.eqb_refl. cbv iota.
    unfold close_record. rewrite field_text_rev. reflexivity.
  - destruct f as [|c f].
    + cbn [list_ascii_of_string app csv_scan].
      change (Ascii.eqb LF dquote) with false.
      change (Ascii.eqb LF comma) with false. rewrite Ascii.eqb_refl. cbv iota.
      destruct record as [|g record]; [destruct Hne as [H|H]; congruence|].
      reflexivity.
    + cbn [needs_quote] in Hq. apply orb_false_iff in Hq as [Hc Hs].
      apply special_false in Hc as (H1 & H2 & H3 & H4).
      cbn [list_ascii_of_string app csv_scan]. rewrite H1, H2, H3, H4.
      rewrite scan_unquoted by exact Hs. cbn [csv_scan].
      change (Ascii.eqb LF comma) with false. rewrite Ascii.eqb_refl. cbv iota.
      unfold close_record. rewrite field_text_rev. reflexivity.
Qed.

(** A written record, read up to its line feed. *)
Lemma scan_record (fields : list string) :
  forall (record : list string) (rest : list ascii),
    fields <> [] -> fields <> [""] \/ record <> [] ->
    csv_scan FieldStart [] record
             (list_ascii_of_string (csv_line fields) ++ LF :: rest)
    = (rev record ++ fields)%list :: csv_scan FieldStart [] [] rest.
Proof.
  unfold csv_line.
  induction fields as [|f fields IH]; intros record rest Hne Hblank;
    [congruence|].
  destruct fields as [|g fields].
  - cbn [map join]. rewrite scan_field_LF.
    + cbn [rev]. reflexivity.
    + destruct Hblank as [H|H]; [|right; exact H].
      left. intros ->. apply H. reflexivity.
  - change (join "," (map csv_field (f :: g :: fields)))
      with (csv_field f ++ "," ++ join "," (map csv_field (g :: fields))).
    rewrite !list_ascii_app, <- !app_assoc.
    change (list_ascii_of_string "," ++ ?l)%list with (comma :: l).
    rewrite scan_field_comma.
    rewrite IH; [|discriminate|right; discriminate].
    cbn [rev]. rewrite <- app_assoc. reflexivity.
Qed.

Lemma string_app_nil_r (s : string) : s ++ "" = s.
Proof.
  induction s as [|c s IH]; [reflexivity|].
  change (String c s ++ "") with (String c (s ++ "")). rewrite IH. reflexivity.
Qed.

Lemma concat_empty_cons (a : string) (l : list string) :
  String.concat "" (a :: l) = a ++ String.concat "" l.
Proof.
  destruct l as [|b l]; [symmetry; apply string_app_nil_r|reflexivity].
Qed.

Lemma csv_text_cons (r : list string) (records : list (list string)) :
  csv_text (r :: records) = csv_line r ++ String LF "" ++ csv_text records.
Proof.
  unfold csv_text. cbn [map]. rewrite concat_empty_cons.
  apply string_app_assoc.
Qed.

(** Reading back what was written gives the records that were written,
    as long as no record is a single empty field (a blank line). *)
Lemma csv_reader_csv_text (records : list (list string)) :
  Forall (fun r => r <> [] /\ r <> [""]) records ->
  csv_reader (csv_text records) = records.
Proof.
  unfold csv_reader.
  induction 1 as [|r records [Hr1 Hr2] _ IH]; [reflexivity|].
  rewrite csv_text_cons, !list_ascii_app.
  change (list_ascii_of_string (String LF "") ++ ?l)%list with (LF :: l).
  rewrite scan_record; [|exact Hr1|left; exact Hr2].
  rewrite IH. reflexivity.
Qed.

Lemma csv_reader_to_csv (df : DataFrame) :
  (2 <= length df)%nat -> csv_reader (to_csv df) = csv_records df.
Proof.
  intros Hlen. change (to_csv df) with (csv_text (csv_records df)).
  apply csv_reader_csv_text.
  assert (Hgen : forall r : list string,
             (2 <= length r)%nat -> r <> [] /\ r <> [""]).
  { intros [|a [|b r]] Hr; simpl in Hr; try lia. split; discriminate. }
  unfold csv_records. constructor.
  - apply Hgen. unfold column_names. rewrite length_map. exact Hlen.
  - rewrite Forall_map. apply Forall_true. intros i. apply Hgen.
    rewrite length_map. exact Hlen.
Qed.

Lemma zip_with_nth (la lb : list string) :
  length la = length lb ->
  map (fun i => [nth i la ""; nth i lb ""]) (seq 0 (length la))
  = zip_with (fun a b => [a; b]) la lb.
Proof.
  revert lb. induction la as [|a la IH]; intros [|b lb] Hlen;
    try discriminate; [reflexivity|].
  cbn [length seq map nth zip_with]. f_equal.
  rewrite <- seq_shift, map_map. apply IH. simpl in Hlen. lia.
Qed.

(** The records of a report: the header, then a key and a cost per row. *)
Lemma csv_records_report (key : string) (labels costs : column) :
  col_len labels = col_len costs ->
  csv_records [(key, labels); (COST, costs)]
  = [key; COST] :: report_rows labels costs.
Proof.
  intros Hlen. unfold csv_records, report_rows.
  cbn [column_names map fst snd nrows]. f_equal.
  rewrite <- (length_column_text labels).
  apply zip_with_nth. rewrite !length_column_text. exact Hlen.
Qed.


Lemma report_rows_first_fields (labels costs : column) :
  col_len labels = col_len costs ->
  map (hd "") (report_rows labels costs) = column_text labels.
Proof.
  intros Hlen. unfold report_rows.
  rewrite <- !length_column_text in Hlen. revert Hlen.
  generalize (column_text costs).
  induction (column_text labels) as [|a la IH]; intros [|b lb] Hlen;
    try discriminate; [reflexivity|].
  cbn [zip_with map hd]. f_equal. apply IH. simpl in Hlen. lia.
Qed.

Lemma length_report_rows (labels costs : column) :
  col_len labels = col_len costs ->
  length (report_rows labels costs) = col_len labels.
Proof.
  intros Hlen.
  rewrite <- (length_column_text labels).
  rewrite <- (report_rows_first_fields labels costs Hlen).
  symmetry. apply length_map.
Qed.

(** The text of a report, read back. *)
Lemma csv_reader_report (key : string) (labels costs : column) :
  col_len labels = col_len costs ->
  csv_reader (to_csv [(key, labels); (COST, costs)])
  = [key; COST] :: report_rows labels costs.
Proof.
  intros Hlen. rewrite csv_reader_to_csv by (simpl; lia).
  apply csv_records_report, Hlen.
Qed.

(** ** Well-formed tables *)

Ltac solve_elem :=
  repeat first [apply list_elem_of_here | apply list_elem_of_further].

Lemma conforms_dtype (df : DataFrame) (name : string) (d : dtype) (c : column) :
  conforms df -> In (name, d) BILLING_DETAIL_TYPES ->
  get_column df name = Ok c -> has_dtype c d = true.
Proof.
  intros [_ Hall] Hin Hget. rewrite Forall_forall in Hall.
  apply (Hall (name, d)); [apply list_elem_of_In; exact Hin|exact Hget].
Qed.

Lemma well_formed_dates (ds : list (option string)) :
  Forall (fun x => exists s, x = Some s /\ is_Some (parse_iso_date s)) ds ->
  exists ts, parse_dates ds = Ok (Some <$> ts) /\ length ts = length ds.
Proof.
  induction 1 as [|x ds (s & -> & t & Ht) _ (ts & IH & Hlen)].
  - exists []. split; reflexivity.
  - exists (t :: ts). cbn [parse_dates]. rewrite Ht, IH.
    split; [reflexivity|]. simpl. rewrite Hlen. reflexivity.
Qed.

(** Well-formedness of a table given cell by cell. *)
Ltac solve_well_formed :=
  split;
  [ split;
    [ repeat constructor
    | repeat (apply Forall_cons; split;
              [ let c := fresh "c" in
                let Hc := fresh "Hc" in
                intros c Hc; vm_compute in Hc;
                first [discriminate Hc | injection Hc as <-; reflexivity]
              | ]);
      apply Forall_nil_2 ]
  | split;
    [ let name := fresh "name" in
      let Hin := fresh "Hin" in
      intros name Hin; rewrite !elem_of_cons, elem_of_nil in Hin;
      destruct Hin as [->|[->|[->|[->|[]]]]]; eexists; reflexivity
    | eexists; split;
      [ reflexivity
      | repeat constructor; eexists; (split; [reflexivity|]);
        eexists; vm_compute; reflexivity ] ] ].



(** ** The report generators *)

(** What a generator does to the world: it prints one line and, when the
    aggregation succeeds, writes the aggregate as CSV to the joined path;
    it creates no directory and requests no download. *)
Lemma generator_run (key : string)
    (gen : DataFrame -> string -> string -> M unit)
    (df : DataFrame) (dest_dir file_name : string) :
  (key, gen) ∈ report_generators ->
  exists line, forall w : World,
    run (gen df dest_dir file_name) w =
    match aggregate df key with
    | Ok agg_df =>
        (mkWorld (dirs w)
                 (<[os_path_join dest_dir file_name := to_csv agg_df]> (files w))
                 (stdout w ++ [Line line]) (requests w), Ok tt)
    | Raise e =>
        (mkWorld (dirs w) (files w) (stdout w ++ [Line line]) (requests w),
         Raise e)
    end.
Proof.
  unfold report_generators. rewrite !elem_of_cons, elem_of_nil.
  intros [E|[E|[E|[E|[]]]]]; injection E as -> ->; eexists; intros w;
    [unfold cost_by_sub|unfold cost_by_meter_cat|unfold cost_by_account
    |unfold cost_by_month];
    cbn [run mbind M_bind print lift df_to_csv write_file];
    match goal with
    | |- context [aggregate df ?k] =>
        change (g ← groupby df k;
                fr ← agg_sum g "CostInBillingCurrency";
                reset_index fr) with (aggregate df k);
        destruct (aggregate df k); reflexivity
    end.
Qed.

Lemma generator_key_not_cost (key : string)
    (gen : DataFrame -> string -> string -> M unit) :
  (key, gen) ∈ report_generators -> key <> COST.
Proof.
  unfold report_generators. rewrite !elem_of_cons, elem_of_nil.
  intros [E|[E|[E|[E|[]]]]]; injection E as -> ->; discriminate.
Qed.

(** What every generator does on a table that has its key column and a
    float cost column. *)
Lemma generator_ok (key : string)
    (gen : DataFrame -> string -> string -> M unit)
    (df : DataFrame) (dest_dir file_name : string) (w : World)
    (keys : column) (vals : list (option Qc)) :
  (key, gen) ∈ report_generators ->
  get_column df key = Ok keys ->
  get_column df COST = Ok (ColFloat vals) ->
  exists w',
    run (gen df dest_dir file_name) w = (w', Ok tt) /\
    dirs w' = dirs w /\ requests w' = requests w /\
    files w' =
      <[os_path_join dest_dir file_name :=
          to_csv [ (key, column_group_keys keys);
                   (COST, ColFloat (Some <$> column_group_sums keys vals)) ]]>
        (files w).
Proof.
  intros Hin Hk Hv.
  destruct (generator_run key gen df dest_dir file_name Hin) as [line Hrun].
  specialize (Hrun w).
  rewrite (aggregate_ok df key keys vals Hk Hv
             (generator_key_not_cost key gen Hin)) in Hrun.
  eexists. split; [exact Hrun|]. simpl. auto.
Qed.





(** The text of a report starts with its header line. *)
Lemma to_csv_header (key : string) (labels costs : column) :
  needs_quote key = false ->
  exists rest,
    to_csv [(key, labels); (COST, costs)] = key ++ "," ++ COST ++ nl ++ rest.
Proof.
  intros Hq. change (to_csv [(key, labels); (COST, costs)])
    with (csv_text (csv_records [(key, labels); (COST, costs)])).
  unfold csv_records. cbn [column_names map fst]. rewrite csv_text_cons.
  eexists. unfold csv_line. cbn [map join]. unfold csv_field at 1.
  rewrite Hq. rewrite !string_app_assoc. reflexivity.
Qed.




(** C3, as amended. When no subscription name holds a line break, the
    subscription report has one line for the header and one line for each
    distinct subscription name: on a table whose [SubscriptionName] column
    holds [k] distinct values the text written has [k + 1] lines; it
    starts with the header line, and read back as CSV it has [k + 1]
    records, the first fields of the data records being the distinct
    names in ascending order. *)
Theorem subscription_report_line_count (df : DataFrame)
    (dest_dir file_name : string) (w : World)
    (names : list (option string)) (vals : list (option Qc)) :
  get_column df "SubscriptionName" = Ok (ColStr names) ->
  get_column df COST = Ok (ColFloat vals) ->
  (forall s, Some s ∈ names -> count_char LF s = 0) ->
  exists w' text,
    run (cost_by_sub df dest_dir file_name) w = (w', Ok tt) /\
    files w' !! os_path_join dest_dir file_name = Some text /\
    line_count text = S (distinct_count names) /\
    (exists rest, text = "SubscriptionName" ++ "," ++ COST ++ nl ++ rest) /\
    length (csv_reader text) = S (distinct_count names) /\
    exists labels,
      map (hd "") (tail (csv_reader text)) = labels /\
      StronglySorted key_lt labels /\
      forall name, name ∈ labels <-> Some name ∈ names.
Proof.
  intros Hk Hv Hnames.
  destruct (generator_ok "SubscriptionName" cost_by_sub df dest_dir file_name w
              (ColStr names) vals) as (w' & Hrun & _ & _ & Hfiles);
    [apply list_elem_of_here|exact Hk|exact Hv|].
  assert (Hcols : col_len (column_group_keys (ColStr names))
                  = col_len (ColFloat (Some <$> column_group_sums
                                                  (ColStr names) vals))).
  { cbn [col_len]. rewrite length_fmap. symmetry.
    apply (length_column_group_sums (ColStr names)). }
  eexists w', _. split; [exact Hrun|].
  split; [rewrite Hfiles; apply lookup_insert_eq|].
  split.
  { unfold to_csv. fold nl. rewrite line_count_concat.
    - fold (to_csv_lines
              [("SubscriptionName", column_group_keys (ColStr names));
               (COST, ColFloat (Some <$> column_group_sums (ColStr names) vals))]).
      rewrite length_to_csv_lines. cbn [nrows column_group_keys col_len].
      rewrite length_fmap, length_group_keys. reflexivity.
    - unfold to_csv_lines, csv_records. rewrite Forall_map.
      constructor; [reflexivity|].
      rewrite Forall_map. apply Forall_true. intros i.
      apply count_LF_csv_line.
      change (Forall (fun f => count_char LF f = 0)
                [ nth i (column_text (column_group_keys (ColStr names))) "";
                  nth i (column_text
                           (ColFloat (Some <$> column_group_sums
                                                 (ColStr names) vals)))
                      "" ]).
      cbn [column_text column_group_keys].
      constructor; [|constructor; [|constructor]].
      + apply Forall_nth_default; [|reflexivity].
        rewrite Forall_map, Forall_fmap. apply Forall_forall. intros k Hkin.
        apply Hnames, elem_of_group_keys. exact Hkin.
      + apply Forall_nth_default; [|reflexivity].
        rewrite Forall_map, Forall_fmap. apply Forall_true. intros q.
        apply count_LF_float_repr. }
  split; [apply to_csv_header; reflexivity|].
  rewrite (csv_reader_report "SubscriptionName" _ _ Hcols).
  split.
  { cbn [length]. rewrite (length_report_rows _ _ Hcols).
    cbn [column_group_keys col_len].
    rewrite length_fmap, length_group_keys. reflexivity. }
  exists (group_keys names). split.
  - cbn [tail]. rewrite (report_rows_first_fields _ _ Hcols).
    cbn [column_group_keys column_text]. rewrite map_map. cbn [default].
    apply map_id.
  - split; [apply group_keys_sorted|intros name; apply elem_of_group_keys].
Qed.

Lemma subscription_report_line_count_witness :
  exists w' text,
    run (cost_by_sub example_table "out" "cost_by_subscription.csv") empty_world
      = (w', Ok tt) /\
    files w' !! os_path_join "out" "cost_by_subscription.csv" = Some text /\
    line_count text = S (distinct_count [Some "A"; Some "A"; Some "B"]) /\
    (exists rest, text = "SubscriptionName" ++ "," ++ COST ++ nl ++ rest) /\
    length (csv_reader text) = S (distinct_count [Some "A"; Some "A"; Some "B"]) /\
    exists labels,
      map (hd "") (tail (csv_reader text)) = labels /\
      StronglySorted key_lt labels /\
      forall name, name ∈ labels <-> Some name ∈ [Some "A"; Some "A"; Some "B"].
Proof.
  apply (subscription_report_line_count example_table "out"
           "cost_by_subscription.csv" empty_world
           [Some "A"; Some "A"; Some "B"] [cost 10; cost 5; cost 3]).
  - reflexivity.
  - reflexivity.
  - intros s Hs. rewrite !elem_of_cons, elem_of_nil in Hs.
    destruct Hs as [[= ->]|[[= ->]|[[= ->]|[]]]]; reflexivity.
Defined.

Lemma well_formed_table_line_break : well_formed table_line_break.
Proof. solve_well_formed. Qed.

(** C3, as stated, fails: a well-formed table whose one subscription name
    holds a line break.  The name is written quoted and its record spans
    two lines: one distinct name, three lines. *)
Lemma line_break_in_name_spans_lines :
  well_formed table_line_break /\
  exists names w' text,
    get_column table_line_break "SubscriptionName" = Ok (ColStr names) /\
    distinct_count names = 1 /\
    run (cost_by_sub table_line_break "out" "cost_by_subscription.csv")
        empty_world = (w', Ok tt) /\
    files w' !! os_path_join "out" "cost_by_subscription.csv" = Some text /\
    line_count text = 3 /\
    length (csv_reader text) = 2.
Proof.
  split; [exact well_formed_table_line_break|].
  eexists _, _, _. split; [reflexivity|]. split; [vm_compute; reflexivity|].
  split; [reflexivity|]. split; [reflexivity|].
  split; vm_compute; reflexivity.
Qed.

(** ** The temporal columns *)

Lemma parse_dates_ok (ds : list (option string)) :
  Forall (fun x => forall s, x = Some s -> is_Some (parse_iso_date s)) ds ->
  parse_dates ds = Ok (map (fun x => x ≫= parse_iso_date) ds).
Proof.
  induction 1 as [|x ds Hx _ IH]; [reflexivity|].
  destruct x as [s|]; cbn [parse_dates map].
  - destruct (Hx s eq_refl) as [t Ht]. rewrite IH.
    cbn [mbind option_bind]. rewrite Ht. reflexivity.
  - rewrite IH. reflexivity.
Qed.

Lemma add_temporal_columns_ok (df : DataFrame) (ds : list (option string))
    (ts : list (option Timestamp)) :
  get_column df "Date" = Ok (ColStr ds) ->
  parse_dates ds = Ok ts ->
  add_temporal_columns df
  = Ok (set_column
          (set_column (set_column df "Date" (ColDatetime ts))
                      "Month" (month_column ts))
          "Year" (year_column ts)).
Proof.
  intros Hd Hp. unfold add_temporal_columns. rewrite Hd.
  cbn [mbind result_bind mret result_ret to_datetime]. rewrite Hp.
  cbn [mbind result_bind mret result_ret]. rewrite get_set_column_eq.
  cbn [mbind result_bind mret result_ret to_period].
  rewrite get_set_column_ne by discriminate. rewrite get_set_column_eq.
  reflexivity.
Qed.

Lemma column_names_set_existing (df : DataFrame) (name : string) (c c0 : column) :
  get_column df name = Ok c0 ->
  column_names (set_column df name c) = column_names df.
Proof.
  induction df as [|[n c'] df IH]; cbn [get_column set_column];
    [discriminate|].
  destruct (String.eqb n name) eqn:E.
  - intros _. apply String.eqb_eq in E. subst. reflexivity.
  - intros Hget. unfold column_names in *. cbn [map fst]. f_equal.
    apply IH. exact Hget.
Qed.

(** C8. Adding the temporal columns does more than append [Month] and
    [Year]: the [Date] column is assigned over, in its place, with the
    parsed dates, so the loaded table no longer holds the text of the
    dates; every other column is left as it was. *)
Theorem date_column_overwritten (df : DataFrame) (ds : list (option string))
    (ts : list (option Timestamp)) :
  get_column df "Date" = Ok (ColStr ds) ->
  parse_dates ds = Ok ts ->
  exists df',
    add_temporal_columns df = Ok df' /\
    get_column df' "Date" = Ok (ColDatetime ts) /\
    get_column df' "Date" <> get_column df "Date" /\
    column_names (set_column df "Date" (ColDatetime ts)) = column_names df /\
    get_column df' "Month" = Ok (month_column ts) /\
    get_column df' "Year" = Ok (year_column ts) /\
    forall name, name ∉ ["Date"; "Month"; "Year"] ->
                 get_column df' name = get_column df name.
Proof.
  intros Hd Hp. eexists.
  split; [exact (add_temporal_columns_ok df ds ts Hd Hp)|].
  split.
  { rewrite !get_set_column_ne by discriminate. apply get_set_column_eq. }
  split.
  { rewrite !get_set_column_ne by discriminate.
    rewrite get_set_column_eq, Hd. discriminate. }
  split; [eapply column_names_set_existing; exact Hd|].
  split.
  { rewrite get_set_column_ne by discriminate. apply get_set_column_eq. }
  split; [apply get_set_column_eq|].
  intros name Hname. rewrite !not_elem_of_cons in Hname.
  destruct Hname as (H1 & H2 & H3 & _).
  rewrite !get_set_column_ne by congruence. reflexivity.
Qed.

Lemma date_column_overwritten_witness :
  exists df',
    add_temporal_columns example_table = Ok df' /\
    get_column df' "Date"
      = Ok (ColDatetime [Some (mkTimestamp 2024 1 1); Some (mkTimestamp 2024 1 15);
                         Some (mkTimestamp 2024 2 1)]) /\
    get_column df' "Date" <> get_column example_table "Date" /\
    column_names
      (set_column example_table "Date"
         (ColDatetime [Some (mkTimestamp 2024 1 1); Some (mkTimestamp 2024 1 15);
                       Some (mkTimestamp 2024 2 1)]))
      = column_names example_table /\
    get_column df' "Month"
      = Ok (month_column [Some (mkTimestamp 2024 1 1); Some (mkTimestamp 2024 1 15);
                          Some (mkTimestamp 2024 2 1)]) /\
    get_column df' "Year"
      = Ok (year_column [Some (mkTimestamp 2024 1 1); Some (mkTimestamp 2024 1 15);
                         Some (mkTimestamp 2024 2 1)]) /\
    forall name, name ∉ ["Date"; "Month"; "Year"] ->
                 get_column df' name = get_column example_table name.
Proof.
  apply (date_column_overwritten example_table
           [Some "2024-01-01"; Some "2024-01-15"; Some "2024-02-01"]);
    reflexivity.
Defined.

Lemma parse_iso_date_valid (s : string) (t : Timestamp) :
  parse_iso_date s = Some t ->
  valid_date (ts_year t) (ts_month t) (ts_day t) = true.
Proof.
  unfold parse_iso_date. intros Hp.
  repeat case_match; try discriminate.
  apply bind_Some in Hp as (y & _ & Hp).
  apply bind_Some in Hp as (m & _ & Hp).
  apply bind_Some in Hp as (d & _ & Hp).
  destruct (valid_date y m d) eqn:Ev; [|discriminate].
  injection Hp as <-. exact Ev.
Qed.


(** *** The month report *)







(** ** Totals *)






(** ** The worked example *)

(** C2, as amended. On the example table, loaded with the declared
    dtypes, the subscription report is the header followed by [A,15.0]
    and [B,3.0]: the cost is a float and is written as one.  The month
    report has exactly two data rows, for 2024-01 and 2024-02, whose costs
    are 15 and 3. *)
Theorem example_reports :
  written (cost_by_sub example_table "out" "cost_by_subscription.csv")
          "out/cost_by_subscription.csv"
    = Some ("SubscriptionName,CostInBillingCurrency" ++ nl
            ++ "A,15.0" ++ nl ++ "B,3.0" ++ nl) /\
  exists df' agg_df,
    add_temporal_columns example_table = Ok df' /\
    aggregate df' "Month" = Ok agg_df /\
    written (cost_by_month df' "out" "cost_by_month.csv") "out/cost_by_month.csv"
      = Some (to_csv agg_df) /\
    to_csv agg_df = "Month,CostInBillingCurrency" ++ nl
                    ++ "2024-01,15.0" ++ nl ++ "2024-02,3.0" ++ nl /\
    nrows agg_df = 2 /\
    cost_values agg_df = [Some (15 # 1)%Q; Some (3 # 1)%Q].
Proof.
  split; [vm_compute; reflexivity|].
  destruct (add_temporal_columns example_table) as [df'|e] eqn:Hadd;
    [|vm_compute in Hadd; discriminate Hadd].
  destruct (aggregate df' "Month") as [agg_df|e] eqn:Hagg.
  - exists df', agg_df. split; [reflexivity|]. split; [exact Hagg|].
    vm_compute in Hadd. injection Hadd as <-.
    vm_compute in Hagg. injection Hagg as <-.
    repeat split; vm_compute; reflexivity.
  - vm_compute in Hadd. injection Hadd as <-.
    vm_compute in Hagg. discriminate Hagg.
Qed.

(** C2, as stated, fails: the subscription report is not the text with
    the costs written as [15] and [3]. *)
Lemma example_subscription_report_not_integer_text :
  written (cost_by_sub example_table "out" "cost_by_subscription.csv")
          "out/cost_by_subscription.csv"
    <> Some ("SubscriptionName,CostInBillingCurrency" ++ nl
             ++ "A,15" ++ nl ++ "B,3" ++ nl).
Proof. vm_compute. discriminate. Qed.

(** ** Configuration *)

(** C4. When the source is missing (no [--source] and no [STORAGE_URL])
    or the output directory is missing (no [--out] and no [OUT_FOLDER]),
    the program raises a [ValueError] carrying one of its two messages and
    leaves the world as it found it: no directory created, no download
    requested, no file written, nothing printed. *)
Theorem missing_configuration_raises_before_io (env : Env) (args : Namespace)
    (environ : gmap string string) (w : World) :
  (args_source args = None /\ environ !! "STORAGE_URL" = None) \/
  (args_out args = None /\ environ !! "OUT_FOLDER" = None) ->
  exists msg,
    run (program env args environ) w = (w, Raise (ValueError msg)) /\
    msg ∈ [ "Source is required. Have you set the STORAGE_URL env variable?";
            "Out is required. Have you set the OUT_FOLDER env variable?" ].
Proof.
  intros Hmissing. unfold program.
  destruct (truthy (py_or (args_source args) (environ !! "STORAGE_URL")))
    eqn:Hsrc; cbn [negb].
  - destruct Hmissing as [[Ha He]|[Ha He]].
    + rewrite Ha, He in Hsrc. discriminate Hsrc.
    + rewrite Ha, He. cbn [py_or truthy negb].
      eexists. split; [reflexivity|]. solve_elem.
  - eexists. split; [reflexivity|]. solve_elem.
Qed.

Lemma missing_configuration_raises_before_io_witness :
  exists msg,
    run (program (example_env clock_1) (mkNamespace (Some "https://blob") None) ∅)
        empty_world
      = (empty_world, Raise (ValueError msg)) /\
    msg ∈ [ "Source is required. Have you set the STORAGE_URL env variable?";
            "Out is required. Have you set the OUT_FOLDER env variable?" ].
Proof.
  apply (missing_configuration_raises_before_io (example_env clock_1)
           (mkNamespace (Some "https://blob") None) ∅ empty_world).
  right. split; reflexivity.
Defined.

(** ** Paths *)

Lemma os_path_join_inj (d a b : string) :
  starts_with_sep a = false -> starts_with_sep b = false ->
  os_path_join d a = os_path_join d b -> a = b.
Proof.
  unfold os_path_join. intros -> ->.
  destruct (String.eqb d "" || ends_with_sep d); intros E.
  - exact (String.app_inj d _ _ E).
  - apply (String.app_inj d) in E. exact (String.app_inj "/" _ _ E).
Qed.

Lemma strftime_relative (t : datetime) : starts_with_sep (strftime t) = false.
Proof.
  unfold strftime.
  assert (Hd : forall n, exists c rest,
               nat_digits n = String c rest /\ Ascii.eqb c "/" = false).
  { intros n. unfold nat_digits.
    destruct (Nat.to_uint n); cbn; eexists _, _; split; reflexivity. }
  destruct (Hd (year t)) as (c & rest & E & Hc). unfold zfill. rewrite E.
  destruct (4 - String.length (String c rest)); cbn; [exact Hc|reflexivity].
Qed.

(** ** A whole run *)

Lemma run_bind {A B} (m : M A) (f : A -> M B) (w : World) :
  run (m ≫= f) w =
  match run m w with
  | (w', Ok a) => run (f a) w'
  | (w', Raise e) => (w', Raise e)
  end.
Proof. reflexivity. Qed.

(** What a run does when nothing fails: three directories, one download,
    the raw file and the four reports. *)
Lemma main_run_ok (env : Env) (source out_dir : string) (w : World)
    (client text : string) (df df' a_sub a_meter a_acc a_month : DataFrame) :
  source <> "" ->
  files w !! out_dir = None ->
  files w !! report_dir env out_dir = None ->
  files w !! download_dir out_dir = None ->
  from_blob_url env source = Ok client ->
  download_blob env client = Ok text ->
  read_csv env text BILLING_DETAIL_TYPES = Ok df ->
  add_temporal_columns df = Ok df' ->
  aggregate df' "SubscriptionName" = Ok a_sub ->
  aggregate df' "MeterCategory" = Ok a_meter ->
  aggregate df' "AccountName" = Ok a_acc ->
  aggregate df' "Month" = Ok a_month ->
  exists w',
    run (main env source out_dir) w = (w', Ok tt) /\
    dirs w' = {[download_dir out_dir]} ∪ ({[report_dir env out_dir]}
                ∪ ({[out_dir]} ∪ dirs w)) /\
    requests w' = client :: requests w /\
    files w' =
      <[os_path_join (report_dir env out_dir) "cost_by_month.csv" := to_csv a_month]>
      (<[os_path_join (report_dir env out_dir) "cost_by_account.csv" := to_csv a_acc]>
      (<[os_path_join (report_dir env out_dir) "cost_by_meter_cat.csv" := to_csv a_meter]>
      (<[os_path_join (report_dir env out_dir) "cost_by_subscription.csv" := to_csv a_sub]>
      (<[billing_file env out_dir := text]>
      (<[billing_file env out_dir := ""]> (files w)))))).
Proof.
  intros Hsrc Hf1 Hf2 Hf3 Hurl Hdl Hread Hadd Hsub Hmeter Hacc Hmonth.
  unfold report_dir, download_dir, billing_file in *.
  unfold main.
  assert (Hlen : (0 <? String.length source)%nat = true).
  { destruct source; [congruence|reflexivity]. }
  rewrite Hlen.
  cbn [run mbind M_bind mret M_ret makedirs files dirs stdout requests].
  rewrite Hf1.
  cbn [run mbind M_bind mret M_ret makedirs files dirs stdout requests].
  rewrite Hf2.
  cbn [run mbind M_bind mret M_ret makedirs files dirs stdout requests].
  rewrite Hf3.
  unfold load_csv_from_azure_blob.
  cbn [run mbind M_bind mret M_ret lift write_file print files dirs stdout
       requests].
  rewrite Hurl.
  cbn [run mbind M_bind mret M_ret lift write_file print files dirs stdout
       requests].
  rewrite Hdl.
  cbn [run mbind M_bind mret M_ret lift write_file print read_file files dirs
       stdout requests].
  rewrite lookup_insert_eq.
  cbn [run mbind M_bind mret M_ret lift write_file print read_file files dirs
       stdout requests].
  rewrite Hread.
  cbn [run mbind M_bind mret M_ret lift print_frame files dirs stdout requests].
  rewrite Hadd.
  cbn [run mbind M_bind mret M_ret lift print_frame files dirs stdout requests].
  destruct (generator_run "SubscriptionName" cost_by_sub df'
              (os_path_join out_dir (strftime (now env)))
              "cost_by_subscription.csv" ltac:(solve_elem)) as [l1 E1].
  destruct (generator_run "MeterCategory" cost_by_meter_cat df'
              (os_path_join out_dir (strftime (now env)))
              "cost_by_meter_cat.csv" ltac:(solve_elem)) as [l2 E2].
  destruct (generator_run "AccountName" cost_by_account df'
              (os_path_join out_dir (strftime (now env)))
              "cost_by_account.csv" ltac:(solve_elem)) as [l3 E3].
  destruct (generator_run "Month" cost_by_month df'
              (os_path_join out_dir (strftime (now env)))
              "cost_by_month.csv" ltac:(solve_elem)) as [l4 E4].
  rewrite Hsub in E1. rewrite Hmeter in E2. rewrite Hacc in E3.
  rewrite Hmonth in E4.
  rewrite run_bind, E1, run_bind, E2, run_bind, E3, E4.
  cbn [files dirs stdout requests].
  eexists. split; [reflexivity|]. repeat split; reflexivity.
Qed.

(** A well-formed table goes through the temporal columns and the four
    aggregations. *)
Lemma well_formed_aggregates (df : DataFrame) :
  well_formed df ->
  exists df', add_temporal_columns df = Ok df' /\
    forall key, key ∈ map fst report_plan ->
                exists agg_df, aggregate df' key = Ok agg_df.
Proof.
  intros (Hconf & Hcols & ds & Hd & Hdates).
  destruct (well_formed_dates ds Hdates) as (ts & Hp & _).
  destruct (Hcols COST) as [c Hc]; [solve_elem|].
  assert (Hty : has_dtype c DFloat = true)
    by (apply (conforms_dtype df COST DFloat c Hconf); [cbn; tauto|exact Hc]).
  destruct c as [|vals| |]; try discriminate Hty.
  eexists. split; [exact (add_temporal_columns_ok df ds _ Hd Hp)|].
  intros key Hin. cbn [map fst report_plan] in Hin.
  rewrite !elem_of_cons, elem_of_nil in Hin.
  assert (Hcost : forall d1 d2 d3,
             get_column (set_column (set_column (set_column df "Date" d1)
                                                "Month" d2) "Year" d3) COST
             = Ok (ColFloat vals)).
  { intros. rewrite !get_set_column_ne by discriminate. exact Hc. }
  destruct Hin as [->|[->|[->|[->|[]]]]].
  - destruct (Hcols "SubscriptionName") as [k Hk]; [solve_elem|].
    eexists. apply (aggregate_ok _ _ k vals); [|apply Hcost|discriminate].
    rewrite !get_set_column_ne by discriminate. exact Hk.
  - destruct (Hcols "MeterCategory") as [k Hk]; [solve_elem|].
    eexists. apply (aggregate_ok _ _ k vals); [|apply Hcost|discriminate].
    rewrite !get_set_column_ne by discriminate. exact Hk.
  - destruct (Hcols "AccountName") as [k Hk]; [solve_elem|].
    eexists. apply (aggregate_ok _ _ k vals); [|apply Hcost|discriminate].
    rewrite !get_set_column_ne by discriminate. exact Hk.
  - eexists. eapply aggregate_ok; [|apply Hcost|discriminate].
    rewrite get_set_column_ne by discriminate. apply get_set_column_eq.
Qed.

(** The reports a run leaves behind are the aggregates of the loaded
    table, each at its path under the report directory. *)
Lemma main_reports (env : Env) (source out_dir : string) (w : World)
    (df df' : DataFrame) :
  loads env source out_dir w df ->
  add_temporal_columns df = Ok df' ->
  (forall key, key ∈ map fst report_plan ->
               exists agg_df, aggregate df' key = Ok agg_df) ->
  exists w',
    run (main env source out_dir) w = (w', Ok tt) /\
    forall key file, (key, file) ∈ report_plan ->
      exists agg_df,
        aggregate df' key = Ok agg_df /\
        files w' !! os_path_join (report_dir env out_dir) file
          = Some (to_csv agg_df).
Proof.
  intros (Hsrc & Hf1 & Hf2 & Hf3 & client & text & Hurl & Hdl & Hread)
         Hadd Haggs.
  destruct (Haggs "SubscriptionName") as [a1 H1]; [cbn; solve_elem|].
  destruct (Haggs "MeterCategory") as [a2 H2]; [cbn; solve_elem|].
  destruct (Haggs "AccountName") as [a3 H3]; [cbn; solve_elem|].
  destruct (Haggs "Month") as [a4 H4]; [cbn; solve_elem|].
  destruct (main_run_ok env source out_dir w client text df df' a1 a2 a3 a4)
    as (w' & Hrun & _ & _ & Hfiles); try assumption.
  exists w'. split; [exact Hrun|].
  assert (Hne : forall a b : string,
             starts_with_sep a = false -> starts_with_sep b = false ->
             a <> b ->
             os_path_join (report_dir env out_dir) a
             <> os_path_join (report_dir env out_dir) b).
  { intros a b Ha Hb Hab E. apply Hab. exact (os_path_join_inj _ a b Ha Hb E). }
  intros key file Hin. unfold report_plan in Hin.
  rewrite !elem_of_cons, elem_of_nil in Hin. rewrite Hfiles.
  destruct Hin as [E|[E|[E|[E|[]]]]]; injection E as -> ->;
    eexists; (split; [eassumption|]);
    rewrite ?lookup_insert_ne by (apply Hne; [reflexivity|reflexivity|discriminate]);
    apply lookup_insert_eq.
Qed.

(** C7. From the loaded table on, the reports are a function of the table
    alone.  Two runs that load the same table, whatever their clock,
    output directory, source or starting world, both succeed and leave
    reports with identical contents, file by file; and when the two
    timestamps differ, so do the two report directories under one output
    directory. *)
Theorem reports_deterministic (env1 env2 : Env)
    (source1 source2 out_dir1 out_dir2 : string) (w1 w2 : World)
    (df : DataFrame) :
  loads env1 source1 out_dir1 w1 df ->
  loads env2 source2 out_dir2 w2 df ->
  well_formed df ->
  exists w1' w2',
    run (main env1 source1 out_dir1) w1 = (w1', Ok tt) /\
    run (main env2 source2 out_dir2) w2 = (w2', Ok tt) /\
    (forall file, file ∈ report_files ->
       exists content,
         files w1' !! os_path_join (report_dir env1 out_dir1) file = Some content /\
         files w2' !! os_path_join (report_dir env2 out_dir2) file = Some content) /\
    (strftime (now env1) <> strftime (now env2) ->
     report_dir env1 out_dir1 <> report_dir env2 out_dir1).
Proof.
  intros Hl1 Hl2 Hwf.
  destruct (well_formed_aggregates df Hwf) as (df' & Hadd & Haggs).
  destruct (main_reports env1 source1 out_dir1 w1 df df' Hl1 Hadd Haggs)
    as (w1' & Hrun1 & Hrep1).
  destruct (main_reports env2 source2 out_dir2 w2 df df' Hl2 Hadd Haggs)
    as (w2' & Hrun2 & Hrep2).
  exists w1', w2'. split; [exact Hrun1|]. split; [exact Hrun2|]. split.
  - intros file Hin.
    assert (Hkey : exists key, (key, file) ∈ report_plan).
    { unfold report_files in Hin. rewrite !elem_of_cons, elem_of_nil in Hin.
      destruct Hin as [->|[->|[->|[->|[]]]]]; eexists; unfold report_plan;
        solve_elem. }
    destruct Hkey as [key Hkey].
    destruct (Hrep1 key file Hkey) as (a1 & Ha1 & Hf1).
    destruct (Hrep2 key file Hkey) as (a2 & Ha2 & Hf2).
    assert (a1 = a2) as -> by congruence.
    exists (to_csv a2). split; assumption.
  - intros Hts E. apply Hts. unfold report_dir in E.
    exact (os_path_join_inj out_dir1 _ _ (strftime_relative _)
             (strftime_relative _) E).
Qed.

Lemma reports_deterministic_witness :
  exists w1' w2',
    run (main (example_env clock_1) "https://blob/a" "out") empty_world
      = (w1', Ok tt) /\
    run (main (example_env clock_2) "https://blob/b" "reports") empty_world
      = (w2', Ok tt) /\
    (forall file, file ∈ report_files ->
       exists content,
         files w1' !! os_path_join (report_dir (example_env clock_1) "out") file
           = Some content /\
         files w2' !! os_path_join (report_dir (example_env clock_2) "reports") file
           = Some content) /\
    (strftime (now (example_env clock_1)) <> strftime (now (example_env clock_2)) ->
     report_dir (example_env clock_1) "out" <> report_dir (example_env clock_2) "out").
Proof.
  apply (reports_deterministic (example_env clock_1) (example_env clock_2)
           "https://blob/a" "https://blob/b" "out" "reports"
           empty_world empty_world complete_table).
  - split; [discriminate|]. repeat (split; [reflexivity|]).
    exists "https://blob/a", "billing export". repeat split; reflexivity.
  - split; [discriminate|]. repeat (split; [reflexivity|]).
    exists "https://blob/b", "billing export". repeat split; reflexivity.
  - solve_well_formed.
Defined.

(** * Further properties of the script *)

(** ** The download *)

(** X1. A download that succeeds leaves exactly the downloaded data at the
    destination, whatever the path held before, touches no other file and
    no directory, asks the blob service once, and what is then read from
    the destination is the data. *)
Theorem download_stores_blob (env : Env) (blob_url dest_file : string)
    (w : World) (client data : string) :
  from_blob_url env blob_url = Ok client ->
  download_blob env client = Ok data ->
  exists w',
    run (load_csv_from_azure_blob env blob_url dest_file) w = (w', Ok tt) /\
    files w' !! dest_file = Some data /\
    (forall path, path <> dest_file -> files w' !! path = files w !! path) /\
    dirs w' = dirs w /\
    requests w' = client :: requests w /\
    run (read_file dest_file) w' = (w', Ok data).
Proof.
  intros Hurl Hdl. unfold load_csv_from_azure_blob.
  cbn [run mbind M_bind lift]. rewrite Hurl.
  cbn [run mbind M_bind lift write_file print files dirs stdout requests].
  rewrite Hdl.
  cbn [run mbind M_bind lift write_file print files dirs stdout requests].
  eexists. split; [reflexivity|].
  cbn [files dirs requests run read_file].
  split; [apply lookup_insert_eq|]. split.
  - intros path Hne. rewrite !lookup_insert_ne by congruence. reflexivity.
  - split; [reflexivity|]. split; [reflexivity|].
    rewrite lookup_insert_eq. reflexivity.
Qed.

Lemma download_stores_blob_witness :
  exists w',
    run (load_csv_from_azure_blob (example_env clock_1) "https://blob/a"
           "out/raw/x.csv")
        (world_with_file "out/raw/x.csv" "old") = (w', Ok tt) /\
    files w' !! "out/raw/x.csv" = Some "billing export" /\
    (forall path, path <> "out/raw/x.csv" ->
       files w' !! path = files (world_with_file "out/raw/x.csv" "old") !! path) /\
    dirs w' = dirs (world_with_file "out/raw/x.csv" "old") /\
    requests w'
      = "https://blob/a" :: requests (world_with_file "out/raw/x.csv" "old") /\
    run (read_file "out/raw/x.csv") w' = (w', Ok "billing export").
Proof.
  apply (download_stores_blob (example_env clock_1) "https://blob/a"
           "out/raw/x.csv" (world_with_file "out/raw/x.csv" "old")
           "https://blob/a" "billing export"); reflexivity.
Defined.

(** X2. The destination is opened for writing before the download starts:
    when the download fails, the error is passed on, the destination
    exists and is empty (what it held is lost), no other file changes and
    the completion message is not printed. *)
Theorem failed_download_leaves_empty_file (env : Env)
    (blob_url dest_file : string) (w : World) (client : string) (e : exn) :
  from_blob_url env blob_url = Ok client ->
  download_blob env client = Raise e ->
  exists w',
    run (load_csv_from_azure_blob env blob_url dest_file) w = (w', Raise e) /\
    files w' !! dest_file = Some "" /\
    (forall path, path <> dest_file -> files w' !! path = files w !! path) /\
    stdout w' = stdout w /\
    requests w' = client :: requests w.
Proof.
  intros Hurl Hdl. unfold load_csv_from_azure_blob.
  cbn [run mbind M_bind lift]. rewrite Hurl.
  cbn [run mbind M_bind lift write_file print files dirs stdout requests].
  rewrite Hdl.
  eexists. split; [reflexivity|]. cbn [files stdout requests].
  split; [apply lookup_insert_eq|]. split; [|split; reflexivity].
  intros path Hne. rewrite lookup_insert_ne by congruence. reflexivity.
Qed.

Lemma failed_download_leaves_empty_file_witness :
  exists w',
    run (load_csv_from_azure_blob (offline_env clock_1) "https://blob/a"
           "out/raw/x.csv")
        (world_with_file "out/raw/x.csv" "old") = (w', Raise TransferError) /\
    files w' !! "out/raw/x.csv" = Some "" /\
    (forall path, path <> "out/raw/x.csv" ->
       files w' !! path = files (world_with_file "out/raw/x.csv" "old") !! path) /\
    stdout w' = stdout (world_with_file "out/raw/x.csv" "old") /\
    requests w'
      = "https://blob/a" :: requests (world_with_file "out/raw/x.csv" "old").
Proof.
  apply (failed_download_leaves_empty_file (offline_env clock_1)
           "https://blob/a" "out/raw/x.csv"
           (world_with_file "out/raw/x.csv" "old") "https://blob/a"
           TransferError); reflexivity.
Defined.

(** X3. A URL the blob client rejects fails the download before the
    destination is opened: the world is left as it was. *)
Theorem rejected_url_touches_nothing (env : Env) (blob_url dest_file : string)
    (w : World) (e : exn) :
  from_blob_url env blob_url = Raise e ->
  run (load_csv_from_azure_blob env blob_url dest_file) w = (w, Raise e).
Proof.
  intros Hurl. unfold load_csv_from_azure_blob.
  cbn [run mbind M_bind lift]. rewrite Hurl. reflexivity.
Qed.

Lemma rejected_url_touches_nothing_witness :
  run (load_csv_from_azure_blob (strict_env clock_1) "nonsense" "out/raw/x.csv")
      (world_with_file "out/raw/x.csv" "old")
  = (world_with_file "out/raw/x.csv" "old", Raise (ValueError "Invalid URL")).
Proof.
  apply (rejected_url_touches_nothing (strict_env clock_1) "nonsense"
           "out/raw/x.csv" (world_with_file "out/raw/x.csv" "old")
           (ValueError "Invalid URL")).
  reflexivity.
Defined.

(** ** The report generators on tables they cannot aggregate *)

Lemma get_column_absent (df : DataFrame) (name : string) :
  name ∉ column_names df -> get_column df name = Raise (KeyError name).
Proof.
  induction df as [|[n c] df IH]; [reflexivity|].
  cbn [column_names map fst get_column]. rewrite not_elem_of_cons.
  intros [Hne Hrest]. destruct (String.eqb n name) eqn:E.
  - apply String.eqb_eq in E. congruence.
  - apply IH. exact Hrest.
Qed.

(** X4. A generator given a table without its key column raises
    [KeyError] naming the key.  It has by then announced the report on
    standard output, but it writes no file: the files and directories are
    as they were. *)
Theorem generator_without_key_column (key : string)
    (gen : DataFrame -> string -> string -> M unit)
    (df : DataFrame) (dest_dir file_name : string) (w : World) :
  (key, gen) ∈ report_generators ->
  key ∉ column_names df ->
  exists w' line,
    run (gen df dest_dir file_name) w = (w', Raise (KeyError key)) /\
    files w' = files w /\ dirs w' = dirs w /\
    stdout w' = (stdout w ++ [Line line])%list.
Proof.
  intros Hin Habsent.
  destruct (generator_run key gen df dest_dir file_name Hin) as [line Hrun].
  specialize (Hrun w). unfold aggregate, groupby in Hrun.
  rewrite (get_column_absent df key Habsent) in Hrun.
  cbn [mbind result_bind] in Hrun.
  eexists _, line. split; [exact Hrun|]. repeat split.
Qed.

Lemma generator_without_key_column_witness :
  exists w' line,
    run (cost_by_meter_cat example_table "out" "cost_by_meter_cat.csv")
        empty_world = (w', Raise (KeyError "MeterCategory")) /\
    files w' = files empty_world /\ dirs w' = dirs empty_world /\
    stdout w' = (stdout empty_world ++ [Line line])%list.
Proof.
  apply (generator_without_key_column "MeterCategory" cost_by_meter_cat
           example_table "out" "cost_by_meter_cat.csv" empty_world).
  - unfold report_generators. solve_elem.
  - cbn. rewrite !not_elem_of_cons. repeat split; try discriminate.
    apply not_elem_of_nil.
Defined.

(** X5. A generator given a table that has the key column but no cost
    column raises [KeyError] naming [CostInBillingCurrency] and, again,
    writes no file. *)
Theorem generator_without_cost_column (key : string)
    (gen : DataFrame -> string -> string -> M unit)
    (df : DataFrame) (dest_dir file_name : string) (w : World) (keys : column) :
  (key, gen) ∈ report_generators ->
  get_column df key = Ok keys ->
  COST ∉ column_names df ->
  exists w' line,
    run (gen df dest_dir file_name) w = (w', Raise (KeyError COST)) /\
    files w' = files w /\ dirs w' = dirs w /\
    stdout w' = (stdout w ++ [Line line])%list.
Proof.
  intros Hin Hk Habsent.
  destruct (generator_run key gen df dest_dir file_name Hin) as [line Hrun].
  specialize (Hrun w).
  assert (Hagg : aggregate df key = Raise (KeyError COST)).
  { unfold aggregate, groupby. rewrite Hk.
    cbn [mbind result_bind mret result_ret]. unfold agg_sum.
    cbn [gb_by gb_obj gb_keys].
    assert (E : String.eqb "CostInBillingCurrency" key = false).
    { apply String.eqb_neq. intros E.
      apply (generator_key_not_cost key gen Hin). symmetry. exact E. }
    rewrite E.
    pose proof (get_column_absent df COST Habsent) as Hc. unfold COST in Hc.
    rewrite Hc. reflexivity. }
  rewrite Hagg in Hrun.
  eexists _, line. split; [exact Hrun|]. repeat split.
Qed.

Lemma generator_without_cost_column_witness :
  exists w' line,
    run (cost_by_sub [("SubscriptionName", ColStr [Some "A"])] "out" "r.csv")
        empty_world = (w', Raise (KeyError COST)) /\
    files w' = files empty_world /\ dirs w' = dirs empty_world /\
    stdout w' = (stdout empty_world ++ [Line line])%list.
Proof.
  apply (generator_without_cost_column "SubscriptionName" cost_by_sub
           [("SubscriptionName", ColStr [Some "A"])] "out" "r.csv" empty_world
           (ColStr [Some "A"])).
  - unfold report_generators. solve_elem.
  - reflexivity.
  - cbn. rewrite !not_elem_of_cons. repeat split; try discriminate.
    apply not_elem_of_nil.
Defined.

(** ** The report generators: edge cases and what the report depends on *)

(** X6. On a table with no rows every generator still writes its file: the
    header line alone. *)
Theorem report_of_empty_table (key : string)
    (gen : DataFrame -> string -> string -> M unit)
    (df : DataFrame) (dest_dir file_name : string) (w : World)
    (keys : column) (vals : list (option Qc)) :
  (key, gen) ∈ report_generators ->
  get_column df key = Ok keys ->
  get_column df COST = Ok (ColFloat vals) ->
  col_len keys = 0 ->
  exists w',
    run (gen df dest_dir file_name) w = (w', Ok tt) /\
    files w' !! os_path_join dest_dir file_name
      = Some (key ++ "," ++ COST ++ nl).
Proof.
  intros Hin Hk Hv Hlen.
  destruct (generator_ok key gen df dest_dir file_name w keys vals Hin Hk Hv)
    as (w' & Hrun & _ & _ & Hfiles).
  exists w'. split; [exact Hrun|]. rewrite Hfiles, lookup_insert_eq. f_equal.
  revert Hin. unfold report_generators. rewrite !elem_of_cons, elem_of_nil.
  destruct keys as [xs|xs|xs|f xs]; destruct xs; try discriminate Hlen;
    intros [E|[E|[E|[E|[]]]]]; injection E as -> ->; reflexivity.
Qed.

Lemma report_of_empty_table_witness :
  exists w',
    run (cost_by_account empty_table "out" "cost_by_account.csv") empty_world
      = (w', Ok tt) /\
    files w' !! os_path_join "out" "cost_by_account.csv"
      = Some ("AccountName" ++ "," ++ COST ++ nl).
Proof.
  apply (report_of_empty_table "AccountName" cost_by_account empty_table
           "out" "cost_by_account.csv" empty_world (ColStr []) []).
  - unfold report_generators. solve_elem.
  - reflexivity.
  - reflexivity.
  - reflexivity.
Defined.

Section RowOrder.
Context {K : Type} `{KeyDtype K}.

Lemma keys_of_zip (keys : list (option K)) (vals : list (option Qc)) :
  length keys = length vals -> (zip keys vals).*1 = keys.
Proof. intros Hlen. apply fst_zip. lia. Qed.

Lemma group_keys_same_rows (k1 k2 : list (option K)) :
  k1 ≡ₚ k2 -> group_keys k1 = group_keys k2.
Proof.
  intros Hperm. apply (StronglySorted_unique key_le).
  - apply StronglySorted_merge_sort; apply _.
  - apply StronglySorted_merge_sort; apply _.
  - rewrite !group_keys_perm. apply NoDup_Permutation.
    + apply NoDup_remove_dups.
    + apply NoDup_remove_dups.
    + intros k. rewrite !elem_of_remove_dups, !elem_of_present, Hperm.
      reflexivity.
Qed.

End RowOrder.

Lemma exact_sum_perm (l1 l2 : list (option Qc)) :
  l1 ≡ₚ l2 -> exact_sum l1 = exact_sum l2.
Proof.
  unfold exact_sum.
  induction 1 as [|x l1 l2 _ IH|x y l|l1 l2 l3 _ IH1 _ IH2]; simpl.
  - reflexivity.
  - rewrite IH. reflexivity.
  - ring.
  - congruence.
Qed.

Lemma abs_sum_perm (l1 l2 : list (option Qc)) :
  l1 ≡ₚ l2 -> abs_sum l1 = abs_sum l2.
Proof.
  intros Hperm. unfold abs_sum. apply exact_sum_perm.
  apply fmap_Permutation, Hperm.
Qed.

(** Two float64 sums that are near the same exact sum are near each
    other. *)
Lemma close_to_both (a b e s : Qc) :
  close_to a e s -> close_to b e s -> close_to a b (s + s)%Qc.
Proof.
  rewrite !close_to_iff, !this_plus. intros H1 H2.
  apply Qabs_Qle_condition in H1, H2. apply Qabs_Qle_condition.
  split; lra.
Qed.

Lemma exact_sum_fill_zero (vals : list (option Qc)) :
  exact_sum (fill_zero vals) = exact_sum vals.
Proof.
  unfold exact_sum, fill_zero.
  induction vals as [|v vals IH]; [reflexivity|].
  cbn [map foldr default]. rewrite IH. reflexivity.
Qed.

Lemma abs_sum_fill_zero (vals : list (option Qc)) :
  abs_sum (fill_zero vals) = abs_sum vals.
Proof.
  unfold abs_sum, exact_sum, fill_zero.
  induction vals as [|[v|] vals IH]; [reflexivity| |];
    cbn [map foldr default option_map]; rewrite IH; reflexivity.
Qed.

Lemma present_fill_zero (vals : list (option Qc)) :
  Forall is_float64 (omap id vals) ->
  Forall is_float64 (omap id (fill_zero vals)).
Proof.
  unfold fill_zero.
  induction vals as [|[v|] vals IH]; intros Hall; [constructor| |].
  - change (omap id (Some v :: vals)) with (v :: omap id vals) in Hall.
    apply Forall_cons in Hall as [Hv Hall].
    change (Forall is_float64 (v :: omap id (map (fun v0 => Some (default 0%Qc v0)) vals))).
    constructor; [exact Hv|apply IH, Hall].
  - change (omap id (None :: vals)) with (omap id vals) in Hall.
    change (Forall is_float64 (0%Qc :: omap id (map (fun v0 => Some (default 0%Qc v0)) vals))).
    constructor; [apply (bool_decide_unpack _); vm_compute; exact I|apply IH, Hall].
Qed.

Section RowOrderSums.
Context {K : Type} `{KeyDtype K}.

Lemma select_same_rows (P : option K -> bool) (k1 k2 : list (option K))
    (v1 v2 : list (option Qc)) :
  zip k1 v1 ≡ₚ zip k2 v2 -> select P k1 v1 ≡ₚ select P k2 v2.
Proof.
  intros Hperm. unfold select. apply fmap_Permutation. rewrite Hperm.
  reflexivity.
Qed.

(** The costs written for a group on two orders of the same rows. *)
Lemma group_sum_same_rows (k : K) (k1 k2 : list (option K))
    (v1 v2 : list (option Qc)) :
  length k1 = length v1 -> length k2 = length v2 ->
  zip k1 v1 ≡ₚ zip k2 v2 ->
  Forall is_float64 (omap id v1) ->
  (Z.of_nat (length v1) <= 2 ^ 32)%Z ->
  close_to (group_sum k k1 v1) (group_sum k k2 v2)
           (abs_sum (select (is_key k) k1 v1)
            + abs_sum (select (is_key k) k1 v1))%Qc.
Proof.
  intros H1 H2 Hperm Hfl Hlen.
  assert (Hv : v1 ≡ₚ v2).
  { rewrite <- (snd_zip k1 v1), <- (snd_zip k2 v2) by lia.
    apply fmap_Permutation, Hperm. }
  pose proof (select_same_rows (is_key k) k1 k2 v1 v2 Hperm) as Hsel.
  apply (close_to_both _ _ (exact_sum (select (is_key k) k1 v1))).
  - apply group_sum_close; assumption.
  - rewrite (exact_sum_perm _ _ Hsel), (abs_sum_perm _ _ Hsel).
    apply group_sum_close.
    + rewrite <- Hv. exact Hfl.
    + rewrite <- (Permutation_length Hv). exact Hlen.
Qed.

Lemma group_sum_fill_zero (k : K) (keys : list (option K))
    (vals : list (option Qc)) :
  Forall is_float64 (omap id vals) ->
  (Z.of_nat (length vals) <= 2 ^ 32)%Z ->
  close_to (group_sum k keys (fill_zero vals)) (group_sum k keys vals)
           (abs_sum (select (is_key k) keys vals)
            + abs_sum (select (is_key k) keys vals))%Qc.
Proof.
  intros Hfl Hlen.
  apply (close_to_both _ _ (exact_sum (select (is_key k) keys vals))).
  - rewrite <- (exact_sum_fill_zero (select (is_key k) keys vals)).
    rewrite <- (abs_sum_fill_zero (select (is_key k) keys vals)).
    unfold fill_zero. rewrite <- select_map. apply group_sum_close.
    + apply present_fill_zero, Hfl.
    + rewrite length_map. exact Hlen.
  - apply group_sum_close; assumption.
Qed.

End RowOrderSums.

(** The labels and, within tolerance, the costs of a report on two orders
    of the same rows. *)
Lemma column_groups_same_rows (keys1 keys2 : column)
    (vals1 vals2 : list (option Qc)) :
  col_len keys1 = length vals1 -> col_len keys2 = length vals2 ->
  same_rows keys1 vals1 keys2 vals2 ->
  Forall is_float64 (omap id vals1) ->
  (Z.of_nat (length vals1) <= 2 ^ 32)%Z ->
  column_group_keys keys1 = column_group_keys keys2 /\
  forall j s1 s2,
    column_group_sums keys1 vals1 !! j = Some s1 ->
    column_group_sums keys2 vals2 !! j = Some s2 ->
    exists rows,
      label_rows keys1 (column_group_keys keys1) j = Some rows /\
      close_to s1 s2 (abs_sum (masked rows vals1) + abs_sum (masked rows vals1))%Qc.
Proof.
  intros H1 H2 Hsame Hfl Hlen.
  destruct keys1 as [k1|k1|k1|f1 k1], keys2 as [k2|k2|k2|f2 k2];
    try contradiction; cbn [same_rows col_len] in *;
    try (destruct Hsame as [<- Hsame]);
    (assert (Hk : group_keys k1 = group_keys k2)
       by (apply group_keys_same_rows;
           rewrite <- (keys_of_zip k1 vals1 H1), <- (keys_of_zip k2 vals2 H2),
             Hsame; reflexivity));
    cbn [column_group_keys column_group_sums label_rows]; rewrite Hk;
    (split; [reflexivity|]);
    intros j s1 s2 Hs1 Hs2; unfold group_sums in Hs1, Hs2;
    rewrite Hk in Hs1; rewrite list_lookup_fmap in Hs1, Hs2;
    destruct (group_keys k2 !! j) as [k|] eqn:Ek;
    try discriminate Hs1; injection Hs1 as <-; injection Hs2 as <-;
    (exists (map (is_key k) k1); split;
     [rewrite list_lookup_fmap, Ek; reflexivity
     |rewrite <- select_masked; apply group_sum_same_rows; assumption]).
Qed.

Lemma column_groups_fill_zero (keys : column) (vals : list (option Qc)) :
  Forall is_float64 (omap id vals) ->
  (Z.of_nat (length vals) <= 2 ^ 32)%Z ->
  forall j s f,
    column_group_sums keys vals !! j = Some s ->
    column_group_sums keys (fill_zero vals) !! j = Some f ->
    exists rows,
      label_rows keys (column_group_keys keys) j = Some rows /\
      close_to f s (abs_sum (masked rows vals) + abs_sum (masked rows vals))%Qc.
Proof.
  intros Hfl Hlen j s f Hs Hf.
  destruct keys as [ks|ks|ks|fr ks];
    cbn [column_group_keys column_group_sums label_rows] in *;
    unfold group_sums in Hs, Hf; rewrite list_lookup_fmap in Hs, Hf;
    destruct (group_keys ks !! j) as [k|] eqn:Ek;
    try discriminate Hs; injection Hs as <-; injection Hf as <-;
    (exists (map (is_key k) ks); split;
     [rewrite list_lookup_fmap, Ek; reflexivity
     |rewrite <- select_masked; apply group_sum_fill_zero; assumption]).
Qed.

(** X7. A report depends on the order of the rows only through rounding.
    On two tables that hold the same (key, cost) rows in different orders
    a generator writes the same labels in the same order, and the two
    costs written beside a label differ by at most the tolerance of the
    two sums: [2^-50] times twice the absolute costs of the group. *)
Theorem report_independent_of_row_order (key : string)
    (gen : DataFrame -> string -> string -> M unit)
    (df1 df2 : DataFrame) (dest_dir file_name : string) (w : World)
    (keys1 keys2 : column) (vals1 vals2 : list (option Qc)) :
  (key, gen) ∈ report_generators ->
  get_column df1 key = Ok keys1 ->
  get_column df1 COST = Ok (ColFloat vals1) ->
  get_column df2 key = Ok keys2 ->
  get_column df2 COST = Ok (ColFloat vals2) ->
  col_len keys1 = length vals1 ->
  col_len keys2 = length vals2 ->
  same_rows keys1 vals1 keys2 vals2 ->
  float64_costs vals1 ->
  exists w1 w2 labels sums1 sums2,
    run (gen df1 dest_dir file_name) w = (w1, Ok tt) /\
    run (gen df2 dest_dir file_name) w = (w2, Ok tt) /\
    files w1 !! os_path_join dest_dir file_name
      = Some (to_csv [(key, labels); (COST, ColFloat (Some <$> sums1))]) /\
    files w2 !! os_path_join dest_dir file_name
      = Some (to_csv [(key, labels); (COST, ColFloat (Some <$> sums2))]) /\
    length sums1 = col_len labels /\ length sums2 = col_len labels /\
    forall j s1 s2,
      sums1 !! j = Some s1 -> sums2 !! j = Some s2 ->
      exists rows,
        label_rows keys1 labels j = Some rows /\
        close_to s1 s2
                 (abs_sum (masked rows vals1) + abs_sum (masked rows vals1))%Qc.
Proof.
  intros Hin Hk1 Hv1 Hk2 Hv2 Hl1 Hl2 Hsame (Hfl & Hlen & _).
  destruct (generator_ok key gen df1 dest_dir file_name w keys1 vals1 Hin Hk1 Hv1)
    as (w1 & Hrun1 & _ & _ & Hfiles1).
  destruct (generator_ok key gen df2 dest_dir file_name w keys2 vals2 Hin Hk2 Hv2)
    as (w2 & Hrun2 & _ & _ & Hfiles2).
  destruct (column_groups_same_rows keys1 keys2 vals1 vals2 Hl1 Hl2 Hsame
              Hfl Hlen) as [Hlabels Hsums].
  exists w1, w2, (column_group_keys keys1), (column_group_sums keys1 vals1),
    (column_group_sums keys2 vals2).
  split; [exact Hrun1|]. split; [exact Hrun2|].
  split; [rewrite Hfiles1; apply lookup_insert_eq|].
  split; [rewrite Hfiles2, Hlabels; apply lookup_insert_eq|].
  split; [apply length_column_group_sums|].
  split; [rewrite Hlabels; apply length_column_group_sums|].
  exact Hsums.
Qed.

Lemma report_independent_of_row_order_witness :
  exists w1 w2 labels sums1 sums2,
    run (cost_by_sub example_table "out" "cost_by_subscription.csv")
        empty_world = (w1, Ok tt) /\
    run (cost_by_sub example_table_reordered "out" "cost_by_subscription.csv")
        empty_world = (w2, Ok tt) /\
    files w1 !! os_path_join "out" "cost_by_subscription.csv"
      = Some (to_csv [("SubscriptionName", labels);
                      (COST, ColFloat (Some <$> sums1))]) /\
    files w2 !! os_path_join "out" "cost_by_subscription.csv"
      = Some (to_csv [("SubscriptionName", labels);
                      (COST, ColFloat (Some <$> sums2))]) /\
    length sums1 = col_len labels /\ length sums2 = col_len labels /\
    forall j s1 s2,
      sums1 !! j = Some s1 -> sums2 !! j = Some s2 ->
      exists rows,
        label_rows (ColStr [Some "A"; Some "A"; Some "B"]) labels j = Some rows /\
        close_to s1 s2
                 (abs_sum (masked rows [cost 10; cost 5; cost 3])
                  + abs_sum (masked rows [cost 10; cost 5; cost 3]))%Qc.
Proof.
  apply (report_independent_of_row_order "SubscriptionName" cost_by_sub
           example_table example_table_reordered "out"
           "cost_by_subscription.csv" empty_world
           (ColStr [Some "A"; Some "A"; Some "B"])
           (ColStr [Some "B"; Some "A"; Some "A"])
           [cost 10; cost 5; cost 3] [cost 3; cost 5; cost 10]).
  - unfold report_generators. solve_elem.
  - reflexivity.
  - reflexivity.
  - reflexivity.
  - reflexivity.
  - reflexivity.
  - reflexivity.
  - exact (Permutation_rev
             [(Some "A", cost 10); (Some "A", cost 5); (Some "B", cost 3)]).
  - split; [apply (bool_decide_unpack _); vm_compute; exact I|].
    split; [vm_compute; discriminate|vm_compute; discriminate].
Defined.

(** X8. A missing cost counts as zero, up to rounding: with the missing
    cells of the cost column filled with 0 a generator writes the same
    labels, and the cost written beside each label differs from the one
    written without filling by at most the tolerance of the two sums. *)
Theorem missing_cost_counts_as_zero (key : string)
    (gen : DataFrame -> string -> string -> M unit)
    (df : DataFrame) (dest_dir file_name : string) (w : World)
    (keys : column) (vals : list (option Qc)) :
  (key, gen) ∈ report_generators ->
  get_column df key = Ok keys ->
  get_column df COST = Ok (ColFloat vals) ->
  float64_costs vals ->
  exists w1 w2 labels sums filled,
    run (gen df dest_dir file_name) w = (w1, Ok tt) /\
    run (gen (set_column df COST (ColFloat (fill_zero vals)))
             dest_dir file_name) w = (w2, Ok tt) /\
    files w1 !! os_path_join dest_dir file_name
      = Some (to_csv [(key, labels); (COST, ColFloat (Some <$> sums))]) /\
    files w2 !! os_path_join dest_dir file_name
      = Some (to_csv [(key, labels); (COST, ColFloat (Some <$> filled))]) /\
    length sums = col_len labels /\ length filled = col_len labels /\
    forall j s f,
      sums !! j = Some s -> filled !! j = Some f ->
      exists rows,
        label_rows keys labels j = Some rows /\
        close_to f s (abs_sum (masked rows vals) + abs_sum (masked rows vals))%Qc.
Proof.
  intros Hin Hk Hv (Hfl & Hlen & _).
  pose proof (generator_key_not_cost key gen Hin) as Hne.
  destruct (generator_ok key gen df dest_dir file_name w keys vals Hin Hk Hv)
    as (w1 & Hrun1 & _ & _ & Hfiles1).
  destruct (generator_ok key gen (set_column df COST (ColFloat (fill_zero vals)))
              dest_dir file_name w keys (fill_zero vals) Hin)
    as (w2 & Hrun2 & _ & _ & Hfiles2);
    [rewrite get_set_column_ne by congruence; exact Hk
    |apply get_set_column_eq|].
  exists w1, w2, (column_group_keys keys), (column_group_sums keys vals),
    (column_group_sums keys (fill_zero vals)).
  split; [exact Hrun1|]. split; [exact Hrun2|].
  split; [rewrite Hfiles1; apply lookup_insert_eq|].
  split; [rewrite Hfiles2; apply lookup_insert_eq|].
  split; [apply length_column_group_sums|].
  split; [apply length_column_group_sums|].
  apply column_groups_fill_zero; assumption.
Qed.

Lemma missing_cost_counts_as_zero_witness :
  exists w1 w2 labels sums filled,
    run (cost_by_sub table_missing_cost "out" "cost_by_subscription.csv")
        empty_world = (w1, Ok tt) /\
    run (cost_by_sub
           (set_column table_missing_cost COST
              (ColFloat (fill_zero [cost 10; None; None])))
           "out" "cost_by_subscription.csv") empty_world = (w2, Ok tt) /\
    files w1 !! os_path_join "out" "cost_by_subscription.csv"
      = Some (to_csv [("SubscriptionName", labels);
                      (COST, ColFloat (Some <$> sums))]) /\
    files w2 !! os_path_join "out" "cost_by_subscription.csv"
      = Some (to_csv [("SubscriptionName", labels);
                      (COST, ColFloat (Some <$> filled))]) /\
    length sums = col_len labels /\ length filled = col_len labels /\
    forall j s f,
      sums !! j = Some s -> filled !! j = Some f ->
      exists rows,
        label_rows (ColStr [Some "A"; Some "A"; Some "B"]) labels j = Some rows /\
        close_to f s (abs_sum (masked rows [cost 10; None; None])
                      + abs_sum (masked rows [cost 10; None; None]))%Qc.
Proof.
  apply (missing_cost_counts_as_zero "SubscriptionName" cost_by_sub
           table_missing_cost "out" "cost_by_subscription.csv" empty_world
           (ColStr [Some "A"; Some "A"; Some "B"]) [cost 10; None; None]).
  - unfold report_generators. solve_elem.
  - reflexivity.
  - reflexivity.
  - split; [apply (bool_decide_unpack _); vm_compute; exact I|].
    split; [vm_compute; discriminate|vm_compute; discriminate].
Defined.

(** The line a generator announces its report with depends on the path
    alone, not on the table. *)
Lemma generator_run_any (key : string)
    (gen : DataFrame -> string -> string -> M unit)
    (dest_dir file_name : string) :
  (key, gen) ∈ report_generators ->
  exists line, forall (df : DataFrame) (w : World),
    run (gen df dest_dir file_name) w =
    match aggregate df key with
    | Ok agg_df =>
        (mkWorld (dirs w)
                 (<[os_path_join dest_dir file_name := to_csv agg_df]> (files w))
                 (stdout w ++ [Line line]) (requests w), Ok tt)
    | Raise e =>
        (mkWorld (dirs w) (files w) (stdout w ++ [Line line]) (requests w),
         Raise e)
    end.
Proof.
  unfold report_generators. rewrite !elem_of_cons, elem_of_nil.
  intros [E|[E|[E|[E|[]]]]]; injection E as -> ->; eexists; intros df w;
    [unfold cost_by_sub|unfold cost_by_meter_cat|unfold cost_by_account
    |unfold cost_by_month];
    cbn [run mbind M_bind print lift df_to_csv write_file];
    match goal with
    | |- context [aggregate df ?k] =>
        change (g ← groupby df k;
                fr ← agg_sum g "CostInBillingCurrency";
                reset_index fr) with (aggregate df k);
        destruct (aggregate df k); reflexivity
    end.
Qed.

(** ** The temporal columns: errors, shape and coherence *)

Lemma temporal_columns_need_date_absent (df : DataFrame) :
  "Date" ∉ column_names df ->
  add_temporal_columns df = Raise (KeyError "Date").
Proof.
  intros Habsent. unfold add_temporal_columns.
  rewrite (get_column_absent df "Date" Habsent). reflexivity.
Qed.

(** X9. Without a [Date] column the temporal columns cannot be added: the
    step raises [KeyError] naming [Date], whatever else the table holds,
    and so does not depend on the other columns being well typed. *)
Theorem temporal_columns_need_date (df : DataFrame) :
  "Date" ∉ column_names df ->
  add_temporal_columns df = Raise (KeyError "Date") /\
  forall name c, name <> "Date" ->
    add_temporal_columns (set_column df name c) = Raise (KeyError "Date").
Proof.
  intros Habsent. split; [exact (temporal_columns_need_date_absent df Habsent)|].
  intros name c Hne. unfold add_temporal_columns.
  rewrite get_set_column_ne by exact Hne.
  rewrite (get_column_absent df "Date" Habsent). reflexivity.
Qed.

Lemma temporal_columns_need_date_witness :
  add_temporal_columns table_missing_cost = Raise (KeyError "Date") /\
  forall name c, name <> "Date" ->
    add_temporal_columns (set_column table_missing_cost name c)
    = Raise (KeyError "Date").
Proof.
  apply (temporal_columns_need_date table_missing_cost).
  cbn. rewrite !not_elem_of_cons. repeat split; try discriminate.
  apply not_elem_of_nil.
Defined.

Lemma column_names_set_new (df : DataFrame) (name : string) (c : column) :
  name ∉ column_names df ->
  column_names (set_column df name c) = (column_names df ++ [name])%list.
Proof.
  induction df as [|[n c'] df IH]; [reflexivity|].
  cbn [column_names map fst set_column]. rewrite not_elem_of_cons.
  intros [Hne Hrest]. destruct (String.eqb n name) eqn:E.
  - apply String.eqb_eq in E. congruence.
  - cbn [map fst app]. f_equal. apply IH. exact Hrest.
Qed.

Lemma rectangular_set_column (df : DataFrame) (name : string) (c : column) :
  df <> [] -> col_len c = nrows df -> rectangular df ->
  rectangular (set_column df name c) /\ nrows (set_column df name c) = nrows df.
Proof.
  unfold rectangular. intros Hne Hc Hrect.
  assert (Hrows : nrows (set_column df name c) = nrows df).
  { destruct df as [|[n c'] df]; [congruence|]. cbn [set_column].
    destruct (String.eqb n name); cbn [nrows]; [exact Hc|reflexivity]. }
  split; [|exact Hrows]. rewrite Hrows.
  assert (Hall : forall (r : nat) (l : DataFrame),
             col_len c = r ->
             Forall (fun nc => col_len (snd nc) = r) l ->
             Forall (fun nc => col_len (snd nc) = r) (set_column l name c)).
  { intros r l Hr. induction 1 as [|[n c'] l Hx Hl IH]; cbn [set_column].
    - constructor; [exact Hr|constructor].
    - destruct (String.eqb n name); constructor; auto. }
  apply Hall; assumption.
Qed.

(** X10. On a rectangular table with parseable dates and no [Month] or
    [Year] column yet, adding the temporal columns succeeds, appends
    [Month] and [Year] as the last two columns, keeps every other column in
    its place, and keeps the table rectangular with the same number of
    rows. *)
Theorem temporal_columns_shape (df : DataFrame) (ds : list (option string)) :
  rectangular df ->
  get_column df "Date" = Ok (ColStr ds) ->
  Forall (fun x => forall s, x = Some s -> is_Some (parse_iso_date s)) ds ->
  "Month" ∉ column_names df ->
  "Year" ∉ column_names df ->
  exists df',
    add_temporal_columns df = Ok df' /\
    column_names df' = (column_names df ++ ["Month"; "Year"])%list /\
    rectangular df' /\
    nrows df' = nrows df.
Proof.
  intros Hrect Hd Hparse Hm Hy.
  pose proof (parse_dates_ok ds Hparse) as Hp.
  eexists. split; [exact (add_temporal_columns_ok df ds _ Hd Hp)|].
  set (ts := map (fun x => x ≫= parse_iso_date) ds).
  assert (Hlen : length ts = nrows df).
  { subst ts. rewrite length_map.
    exact (rectangular_get df "Date" _ Hrect Hd). }
  assert (Hne : df <> []) by (intros ->; discriminate Hd).
  assert (Hn1 : column_names (set_column df "Date" (ColDatetime ts))
                = column_names df)
    by exact (column_names_set_existing df "Date" _ _ Hd).
  destruct (rectangular_set_column df "Date" (ColDatetime ts) Hne Hlen Hrect)
    as [Hr1 Hrows1].
  set (df1 := set_column df "Date" (ColDatetime ts)) in *.
  assert (Hne1 : df1 <> []).
  { subst df1. destruct df as [|[n c] df]; [congruence|]. cbn [set_column].
    destruct (String.eqb n "Date"); discriminate. }
  assert (Hmlen : col_len (month_column ts) = nrows df1).
  { unfold month_column, col_len. rewrite length_map. congruence. }
  destruct (rectangular_set_column df1 "Month" (month_column ts) Hne1 Hmlen Hr1)
    as [Hr2 Hrows2].
  set (df2 := set_column df1 "Month" (month_column ts)) in *.
  assert (Hn2 : column_names df2 = (column_names df ++ ["Month"])%list).
  { subst df2. rewrite column_names_set_new by (rewrite Hn1; exact Hm).
    rewrite Hn1. reflexivity. }
  assert (Hne2 : df2 <> []).
  { intros E. rewrite E in Hn2. destruct (column_names df); discriminate Hn2. }
  assert (Hylen : col_len (year_column ts) = nrows df2).
  { unfold year_column, col_len. rewrite length_map. congruence. }
  destruct (rectangular_set_column df2 "Year" (year_column ts) Hne2 Hylen Hr2)
    as [Hr3 Hrows3].
  split.
  - rewrite column_names_set_new.
    + rewrite Hn2, <- app_assoc. reflexivity.
    + rewrite Hn2, elem_of_app, list_elem_of_singleton.
      intros [Hin|Heq]; [exact (Hy Hin)|discriminate Heq].
  - split; [exact Hr3|]. congruence.
Qed.

Lemma temporal_columns_shape_witness :
  exists df',
    add_temporal_columns complete_table = Ok df' /\
    column_names df' = (column_names complete_table ++ ["Month"; "Year"])%list /\
    rectangular df' /\
    nrows df' = nrows complete_table.
Proof.
  apply (temporal_columns_shape complete_table
           [Some "2024-01-01"; Some "2024-01-15"; Some "2024-02-01"]).
  - repeat constructor.
  - reflexivity.
  - repeat constructor; intros s [= <-]; eexists; reflexivity.
  - cbn. rewrite !not_elem_of_cons. repeat split; try discriminate.
    apply not_elem_of_nil.
  - cbn. rewrite !not_elem_of_cons. repeat split; try discriminate.
    apply not_elem_of_nil.
Defined.

(** X11. [Month] and [Year] agree row by row: the year of a row is the
    year its month lies in (the month ordinal divided by 12), and a row has
    no month exactly when it has no date. *)
Theorem month_and_year_agree (df : DataFrame) (ds : list (option string)) :
  get_column df "Date" = Ok (ColStr ds) ->
  Forall (fun x => forall s, x = Some s -> is_Some (parse_iso_date s)) ds ->
  exists df' ms,
    add_temporal_columns df = Ok df' /\
    get_column df' "Month" = Ok (ColPeriod FreqM ms) /\
    get_column df' "Year"
      = Ok (ColPeriod FreqY (map (option_map (fun m => (m / 12)%Z)) ms)) /\
    length ms = length ds /\
    forall i, ms !! i = Some None <-> ds !! i = Some None.
Proof.
  intros Hd Hparse.
  pose proof (parse_dates_ok ds Hparse) as Hp.
  eexists. exists (map (option_map (period_ordinal FreqM))
                       (map (fun x => x ≫= parse_iso_date) ds)).
  split; [exact (add_temporal_columns_ok df ds _ Hd Hp)|]. split.
  { rewrite get_set_column_ne by discriminate. apply get_set_column_eq. }
  split.
  { rewrite get_set_column_eq. unfold year_column. do 2 f_equal.
    clear Hd Hp. induction Hparse as [|x ds Hx _ IH]; [reflexivity|].
    cbn [map]. rewrite IH. f_equal.
    destruct x as [s|]; [|reflexivity]. cbn [mbind option_bind].
    destruct (Hx s eq_refl) as [t Ht]. rewrite Ht. cbn [option_map].
    f_equal. apply parse_iso_date_valid in Ht. unfold valid_date in Ht.
    unfold period_ordinal.
    apply (Z.div_unique _ 12 _ (ts_month t - 1)); lia. }
  split; [rewrite !length_map; reflexivity|].
  intros i. clear Hd Hp. revert i.
  induction Hparse as [|x ds Hx _ IH]; intros [|i]; cbn [map lookup list_lookup];
    try (split; discriminate); [|apply IH].
  destruct x as [s|]; [|split; reflexivity].
  cbn [mbind option_bind]. destruct (Hx s eq_refl) as [t Ht]. rewrite Ht.
  split; discriminate.
Qed.

Lemma month_and_year_agree_witness :
  exists df' ms,
    add_temporal_columns example_table = Ok df' /\
    get_column df' "Month" = Ok (ColPeriod FreqM ms) /\
    get_column df' "Year"
      = Ok (ColPeriod FreqY (map (option_map (fun m => (m / 12)%Z)) ms)) /\
    length ms = length [Some "2024-01-01"; Some "2024-01-15"; Some "2024-02-01"] /\
    forall i, ms !! i = Some None <->
              [Some "2024-01-01"; Some "2024-01-15"; Some "2024-02-01"] !! i
              = Some None.
Proof.
  apply (month_and_year_agree example_table
           [Some "2024-01-01"; Some "2024-01-15"; Some "2024-02-01"]).
  - reflexivity.
  - repeat constructor; intros s [= <-]; eexists; reflexivity.
Defined.

Lemma set_column_same (df : DataFrame) (name : string) (c : column) :
  get_column df name = Ok c -> set_column df name c = df.
Proof.
  induction df as [|[n c'] df IH]; cbn [get_column set_column];
    [discriminate|].
  destruct (String.eqb n name) eqn:E.
  - intros [= ->]. apply String.eqb_eq in E. subst. reflexivity.
  - intros Hget. rewrite IH by exact Hget. reflexivity.
Qed.

Lemma add_temporal_columns_datetime (df : DataFrame) (c : column)
    (ts : list (option Timestamp)) :
  get_column df "Date" = Ok c ->
  to_datetime c = Ok (ColDatetime ts) ->
  add_temporal_columns df
  = Ok (set_column
          (set_column (set_column df "Date" (ColDatetime ts))
                      "Month" (month_column ts))
          "Year" (year_column ts)).
Proof.
  intros Hd Hp. unfold add_temporal_columns. rewrite Hd.
  cbn [mbind result_bind mret result_ret]. rewrite Hp.
  cbn [mbind result_bind mret result_ret]. rewrite get_set_column_eq.
  cbn [mbind result_bind mret result_ret to_period].
  rewrite get_set_column_ne by discriminate. rewrite get_set_column_eq.
  reflexivity.
Qed.

(** X12. Adding the temporal columns twice is the same as adding them
    once: on a table that already went through the step, the step succeeds
    and changes nothing. *)
Theorem temporal_columns_idempotent (df df' : DataFrame) :
  add_temporal_columns df = Ok df' ->
  add_temporal_columns df' = Ok df'.
Proof.
  intros Hadd.
  assert (Hshape : exists c ts, get_column df "Date" = Ok c /\
                                to_datetime c = Ok (ColDatetime ts)).
  { unfold add_temporal_columns in Hadd.
    destruct (get_column df "Date") as [c|e]; [|discriminate Hadd].
    exists c. cbn [mbind result_bind] in Hadd.
    destruct c as [xs|xs|xs|f xs]; cbn [to_datetime] in *;
      try discriminate Hadd.
    - destruct (parse_dates xs) as [ts|e]; [|discriminate Hadd].
      exists ts. split; reflexivity.
    - exists xs. split; reflexivity. }
  destruct Hshape as (c & ts & Hd & Hp).
  rewrite (add_temporal_columns_datetime df c ts Hd Hp) in Hadd.
  injection Hadd as <-.
  set (df' := set_column _ "Year" _).
  assert (Hdate : get_column df' "Date" = Ok (ColDatetime ts)).
  { subst df'. rewrite !get_set_column_ne by discriminate.
    apply get_set_column_eq. }
  assert (Hmonth : get_column df' "Month" = Ok (month_column ts)).
  { subst df'. rewrite get_set_column_ne by discriminate.
    apply get_set_column_eq. }
  assert (Hyear : get_column df' "Year" = Ok (year_column ts)).
  { subst df'. apply get_set_column_eq. }
  rewrite (add_temporal_columns_datetime df' (ColDatetime ts) ts Hdate eq_refl).
  rewrite (set_column_same df' "Date" _ Hdate).
  rewrite (set_column_same df' "Month" _ Hmonth).
  rewrite (set_column_same df' "Year" _ Hyear).
  reflexivity.
Qed.

Lemma temporal_columns_idempotent_witness :
  exists df',
    add_temporal_columns example_table = Ok df' /\
    add_temporal_columns df' = Ok df'.
Proof.
  eexists. split; [reflexivity|].
  apply (temporal_columns_idempotent example_table). reflexivity.
Defined.

(** ** Paths of a run *)

Lemma os_path_join_relative (a b : string) :
  starts_with_sep b = false -> os_path_join a b = join_prefix a ++ b.
Proof.
  intros Hb. unfold os_path_join, join_prefix. rewrite Hb.
  destruct (String.eqb a "" || ends_with_sep a); [reflexivity|].
  symmetry. apply string_app_assoc.
Qed.

Lemma ends_with_sep_app (a b : string) :
  b <> "" -> ends_with_sep (a ++ b) = ends_with_sep b.
Proof.
  intros Hb. induction a as [|x a IH]; [reflexivity|].
  change (ends_with_sep (String x (a ++ b)) = ends_with_sep b).
  cbn [ends_with_sep]. rewrite IH.
  destruct (a ++ b) eqn:E; [|reflexivity].
  destruct a; [change (b = "") in E; congruence|discriminate E].
Qed.

Lemma ends_with_sep_count (s : string) :
  count_char "/" s = 0 -> ends_with_sep s = false.
Proof.
  induction s as [|x s IH]; [reflexivity|]. cbn [count_char ends_with_sep].
  destruct (Ascii.eqb x "/") eqn:E; [discriminate|]. intros Hs.
  destruct s; [reflexivity|]. apply IH. exact Hs.
Qed.

Lemma count_sep_zfill (n m : nat) :
  count_char "/" (zfill n (nat_digits m)) = 0.
Proof.
  unfold zfill, nat_digits. rewrite count_char_app.
  rewrite (count_char_digits "/").
  - unfold zeros. rewrite count_char_of_list; [reflexivity|].
    apply Forall_replicate. discriminate.
  - cbn. intros d Hd.
    repeat (destruct Hd as [<-|Hd]; [discriminate|]). destruct Hd.
Qed.

(** A timestamp holds no path separator. *)
Lemma count_sep_strftime (t : datetime) : count_char "/" (strftime t) = 0.
Proof.
  unfold strftime. rewrite !count_char_app, !count_sep_zfill. reflexivity.
Qed.

(** A timestamp starts with a digit. *)
Lemma strftime_head (t : datetime) :
  exists c rest, strftime t = String c rest /\
                 In c (list_ascii_of_string "0123456789").
Proof.
  unfold strftime.
  assert (Hd : forall n, exists c rest,
               nat_digits n = String c rest /\
               In c (list_ascii_of_string "0123456789")).
  { intros n. unfold nat_digits.
    destruct (Nat.to_uint n); cbn; eexists _, _; (split; [reflexivity|]);
      tauto. }
  destruct (Hd (year t)) as (c & rest & E & Hc). unfold zfill. rewrite E.
  destruct (4 - String.length (String c rest)); cbn.
  - eexists _, _. split; [reflexivity|exact Hc].
  - eexists _, _. split; [reflexivity|]. tauto.
Qed.

(** The raw download and a report of the same run never share a path. *)
Lemma billing_file_not_a_report (env : Env) (out_dir file : string) :
  starts_with_sep file = false ->
  billing_file env out_dir <> os_path_join (report_dir env out_dir) file.
Proof.
  intros Hfile. unfold billing_file, download_dir, report_dir.
  assert (Hts : starts_with_sep (strftime (now env)) = false)
    by apply strftime_relative.
  assert (Hb : starts_with_sep (strftime (now env) ++ ".billing.csv") = false).
  { destruct (strftime_head (now env)) as (c & rest & E & _).
    rewrite E in Hts |- *. exact Hts. }
  rewrite (os_path_join_relative _ _ Hb), (os_path_join_relative _ file Hfile).
  rewrite (os_path_join_relative out_dir "raw" eq_refl).
  rewrite (os_path_join_relative out_dir _ Hts).
  assert (Hp1 : join_prefix (join_prefix out_dir ++ "raw")
                = join_prefix out_dir ++ "raw/").
  { unfold join_prefix at 1.
    rewrite (ends_with_sep_app _ "raw") by discriminate.
    destruct (join_prefix out_dir ++ "raw") eqn:E.
    - destruct (join_prefix out_dir); discriminate E.
    - cbn [String.eqb orb ends_with_sep]. rewrite <- E.
      assert (Hne : String.eqb (join_prefix out_dir ++ "raw") "" = false).
      { rewrite E. reflexivity. }
      rewrite E.
      change (String a s =? "")%string with false. cbn [orb].
      change (ends_with_sep "raw") with false. cbv iota.
      rewrite <- E, string_app_assoc. reflexivity. }
  assert (Hp2 : join_prefix (join_prefix out_dir ++ strftime (now env))
                = join_prefix out_dir ++ strftime (now env) ++ "/").
  { destruct (strftime_head (now env)) as (c & rest & Ets & _).
    unfold join_prefix at 1.
    rewrite ends_with_sep_app by (rewrite Ets; discriminate).
    rewrite (ends_with_sep_count _ (count_sep_strftime (now env))).
    destruct (join_prefix out_dir ++ strftime (now env)) eqn:E.
    - rewrite Ets in E. destruct (join_prefix out_dir); discriminate E.
    - change (String a s =? "")%string with false. cbn [orb]. cbv iota.
      rewrite <- E, string_app_assoc. reflexivity. }
  rewrite Hp1, Hp2, !string_app_assoc. intros E.
  apply (String.app_inj (join_prefix out_dir)) in E.
  destruct (strftime_head (now env)) as (c & rest & Ets & Hc).
  rewrite Ets in E. cbn [String.append] in E. injection E as Ec _.
  subst c. cbn in Hc.
  repeat (destruct Hc as [Hc|Hc]; [discriminate Hc|]). destruct Hc.
Qed.

(** ** A run that fails part of the way *)

(** A run up to the reports: the three directories are made, the blob is
    fetched into the raw file, the table is loaded and the temporal
    columns are added; the first of these to fail ends the run. *)
Lemma main_until_reports (env : Env) (source out_dir : string) (w : World)
    (client : string) :
  source <> "" ->
  can_make_dirs env out_dir w ->
  from_blob_url env source = Ok client ->
  let made := {[download_dir out_dir]}
                ∪ ({[report_dir env out_dir]} ∪ ({[out_dir]} ∪ dirs w)) in
  let raw := billing_file env out_dir in
  run (main env source out_dir) w =
  match download_blob env client with
  | Raise e =>
      (mkWorld made (<[raw := ""]> (files w)) (stdout w)
               (client :: requests w), Raise e)
  | Ok text =>
      let loaded :=
        mkWorld made (<[raw := text]> (<[raw := ""]> (files w)))
                (stdout w ++ [Line ("Downloaded blob data to " ++ raw)])
                (client :: requests w) in
      match read_csv env text BILLING_DETAIL_TYPES with
      | Raise e => (loaded, Raise e)
      | Ok df =>
          match add_temporal_columns df with
          | Raise e => (loaded, Raise e)
          | Ok df' =>
              run (cost_by_sub df' (report_dir env out_dir)
                               "cost_by_subscription.csv";;
                   cost_by_meter_cat df' (report_dir env out_dir)
                                     "cost_by_meter_cat.csv";;
                   cost_by_account df' (report_dir env out_dir)
                                   "cost_by_account.csv";;
                   cost_by_month df' (report_dir env out_dir)
                                 "cost_by_month.csv")
                  (mkWorld made (files loaded)
                           (stdout loaded ++ [Frame (head df')])
                           (requests loaded))
          end
      end
  end.
Proof.
  intros Hsrc (Hf1 & Hf2 & Hf3) Hurl made raw. subst made raw.
  unfold report_dir, download_dir, billing_file in *.
  unfold main.
  assert (Hlen : (0 <? String.length source)%nat = true).
  { destruct source; [congruence|reflexivity]. }
  rewrite Hlen.
  cbn [run mbind M_bind mret M_ret makedirs files dirs stdout requests].
  rewrite Hf1.
  cbn [run mbind M_bind mret M_ret makedirs files dirs stdout requests].
  rewrite Hf2.
  cbn [run mbind M_bind mret M_ret makedirs files dirs stdout requests].
  rewrite Hf3.
  unfold load_csv_from_azure_blob.
  cbn [run mbind M_bind mret M_ret lift write_file print files dirs stdout
       requests].
  rewrite Hurl.
  cbn [run mbind M_bind mret M_ret lift write_file print files dirs stdout
       requests].
  destruct (download_blob env client) as [text|e]; [|reflexivity].
  cbn [run mbind M_bind mret M_ret lift write_file print read_file files dirs
       stdout requests].
  rewrite lookup_insert_eq.
  cbn [run mbind M_bind mret M_ret lift write_file print read_file files dirs
       stdout requests].
  destruct (read_csv env text BILLING_DETAIL_TYPES) as [df|e]; [|reflexivity].
  cbn [run mbind M_bind mret M_ret lift print_frame files dirs stdout requests].
  destruct (add_temporal_columns df) as [df'|e]; [|reflexivity].
  cbn [run mbind M_bind mret M_ret lift print_frame files dirs stdout requests].
  reflexivity.
Qed.

(** X13. When a file stands at the path of the output directory, the run
    fails on making the directory: nothing is downloaded and the world is
    left as it was. *)
Theorem main_blocked_by_file (env : Env) (source out_dir : string) (w : World)
    (data : string) :
  source <> "" ->
  files w !! out_dir = Some data ->
  run (main env source out_dir) w = (w, Raise (OSError "FileExistsError")).
Proof.
  intros Hsrc Hfile. unfold main.
  assert (Hlen : (0 <? String.length source)%nat = true).
  { destruct source; [congruence|reflexivity]. }
  rewrite Hlen.
  cbn [run mbind M_bind mret M_ret makedirs files dirs stdout requests].
  rewrite Hfile. reflexivity.
Qed.

Lemma main_blocked_by_file_witness :
  run (main (example_env clock_1) "https://blob/a" "out")
      (world_with_file "out" "a file")
  = (world_with_file "out" "a file", Raise (OSError "FileExistsError")).
Proof.
  apply (main_blocked_by_file (example_env clock_1) "https://blob/a" "out"
           (world_with_file "out" "a file") "a file").
  - discriminate.
  - reflexivity.
Defined.

(** X14. When the download fails, the run ends with that error and undoes
    nothing: the three directories have been made and the raw file exists,
    empty; no report has been written and nothing else has changed. *)
Theorem main_failed_download (env : Env) (source out_dir : string) (w : World)
    (client : string) (e : exn) :
  source <> "" ->
  can_make_dirs env out_dir w ->
  from_blob_url env source = Ok client ->
  download_blob env client = Raise e ->
  exists w',
    run (main env source out_dir) w = (w', Raise e) /\
    dirs w' = {[download_dir out_dir]}
                ∪ ({[report_dir env out_dir]} ∪ ({[out_dir]} ∪ dirs w)) /\
    files w' = <[billing_file env out_dir := ""]> (files w) /\
    stdout w' = stdout w.
Proof.
  intros Hsrc Hdirs Hurl Hdl.
  rewrite (main_until_reports env source out_dir w client Hsrc Hdirs Hurl).
  rewrite Hdl. eexists. split; [reflexivity|]. repeat split.
Qed.

Lemma main_failed_download_witness :
  exists w',
    run (main (offline_env clock_1) "https://blob/a" "out") empty_world
      = (w', Raise TransferError) /\
    dirs w' = {[download_dir "out"]}
                ∪ ({[report_dir (offline_env clock_1) "out"]}
                   ∪ ({["out"]} ∪ dirs empty_world)) /\
    files w' = <[billing_file (offline_env clock_1) "out" := ""]>
                 (files empty_world) /\
    stdout w' = stdout empty_world.
Proof.
  apply (main_failed_download (offline_env clock_1) "https://blob/a" "out"
           empty_world "https://blob/a" TransferError).
  - discriminate.
  - repeat split; reflexivity.
  - reflexivity.
  - reflexivity.
Defined.

(** X15. When the loaded table has no [Date] column, the run ends with
    [KeyError] naming [Date]: the raw download is kept, with the text that
    was fetched, and no report is written. *)
Theorem main_table_without_date (env : Env) (source out_dir : string)
    (w : World) (text : string) (df : DataFrame) :
  fetches env source out_dir w text df ->
  "Date" ∉ column_names df ->
  exists w',
    run (main env source out_dir) w = (w', Raise (KeyError "Date")) /\
    files w' = <[billing_file env out_dir := text]> (files w) /\
    dirs w' = {[download_dir out_dir]}
                ∪ ({[report_dir env out_dir]} ∪ ({[out_dir]} ∪ dirs w)).
Proof.
  intros (Hsrc & Hdirs & client & Hurl & Hdl & Hread) Habsent.
  rewrite (main_until_reports env source out_dir w client Hsrc Hdirs Hurl).
  rewrite Hdl. cbv zeta. rewrite Hread.
  rewrite (temporal_columns_need_date_absent df Habsent).
  eexists. split; [reflexivity|]. cbn [files dirs].
  split; [apply insert_insert_eq|reflexivity].
Qed.

Lemma main_table_without_date_witness :
  exists w',
    run (main (table_env clock_1 table_missing_cost) "https://blob/a" "out")
        empty_world = (w', Raise (KeyError "Date")) /\
    files w' = <[billing_file (table_env clock_1 table_missing_cost) "out"
                 := "billing export"]> (files empty_world) /\
    dirs w' = {[download_dir "out"]}
                ∪ ({[report_dir (table_env clock_1 table_missing_cost) "out"]}
                   ∪ ({["out"]} ∪ dirs empty_world)).
Proof.
  apply (main_table_without_date (table_env clock_1 table_missing_cost)
           "https://blob/a" "out" empty_world "billing export"
           table_missing_cost).
  - split; [discriminate|]. split; [repeat split; reflexivity|].
    exists "https://blob/a". repeat split; reflexivity.
  - cbn. rewrite !not_elem_of_cons. repeat split; try discriminate.
    apply not_elem_of_nil.
Defined.

(** X16. The reports are written one after the other and a failure stops
    the run where it is.  When the table has no [MeterCategory] column,
    the run ends with [KeyError] naming it; the subscription report, which
    comes first, has been written and stays, beside the raw download; no
    later report is written. *)
Theorem main_stops_at_first_failing_report (env : Env)
    (source out_dir : string) (w : World) (text : string)
    (df df' agg_df : DataFrame) :
  fetches env source out_dir w text df ->
  add_temporal_columns df = Ok df' ->
  aggregate df' "SubscriptionName" = Ok agg_df ->
  "MeterCategory" ∉ column_names df' ->
  exists w',
    run (main env source out_dir) w = (w', Raise (KeyError "MeterCategory")) /\
    files w' =
      <[os_path_join (report_dir env out_dir) "cost_by_subscription.csv"
        := to_csv agg_df]>
      (<[billing_file env out_dir := text]> (files w)).
Proof.
  intros (Hsrc & Hdirs & client & Hurl & Hdl & Hread) Hadd Hsub Habsent.
  rewrite (main_until_reports env source out_dir w client Hsrc Hdirs Hurl).
  rewrite Hdl. cbv zeta. rewrite Hread, Hadd.
  destruct (generator_run_any "SubscriptionName" cost_by_sub
              (report_dir env out_dir) "cost_by_subscription.csv"
              ltac:(solve_elem)) as [l1 E1].
  destruct (generator_run_any "MeterCategory" cost_by_meter_cat
              (report_dir env out_dir) "cost_by_meter_cat.csv"
              ltac:(solve_elem)) as [l2 E2].
  rewrite run_bind, E1, Hsub, run_bind, E2.
  assert (Hagg : aggregate df' "MeterCategory" = Raise (KeyError "MeterCategory")).
  { unfold aggregate, groupby.
    rewrite (get_column_absent df' "MeterCategory" Habsent). reflexivity. }
  rewrite Hagg. eexists. split; [reflexivity|]. cbn [files].
  rewrite insert_insert_eq. reflexivity.
Qed.

Lemma main_stops_at_first_failing_report_witness :
  exists df' agg_df w',
    add_temporal_columns example_table = Ok df' /\
    aggregate df' "SubscriptionName" = Ok agg_df /\
    run (main (table_env clock_1 example_table) "https://blob/a" "out")
        empty_world = (w', Raise (KeyError "MeterCategory")) /\
    files w' =
      <[os_path_join (report_dir (table_env clock_1 example_table) "out")
                     "cost_by_subscription.csv" := to_csv agg_df]>
      (<[billing_file (table_env clock_1 example_table) "out"
         := "billing export"]> (files empty_world)).
Proof.
  destruct (add_temporal_columns example_table) as [df'|e] eqn:Hadd;
    [|vm_compute in Hadd; discriminate Hadd].
  destruct (aggregate df' "SubscriptionName") as [agg_df|e] eqn:Hagg;
    [|vm_compute in Hadd; injection Hadd as <-; vm_compute in Hagg;
      discriminate Hagg].
  exists df', agg_df.
  destruct (main_stops_at_first_failing_report
              (table_env clock_1 example_table) "https://blob/a" "out"
              empty_world "billing export" example_table df' agg_df)
    as (w' & Hrun & Hfiles).
  - split; [discriminate|]. split; [repeat split; reflexivity|].
    exists "https://blob/a". repeat split; reflexivity.
  - exact Hadd.
  - exact Hagg.
  - vm_compute in Hadd. injection Hadd as <-. cbn.
    rewrite !not_elem_of_cons. repeat split; try discriminate.
    apply not_elem_of_nil.
  - exists w'. repeat split; assumption.
Defined.

(** The files of a world after a run that succeeds. *)
Lemma main_files_after_run (env : Env) (source out_dir : string)
    (w : World) (text : string) (df : DataFrame) :
  fetches env source out_dir w text df ->
  well_formed df ->
  exists w',
    run (main env source out_dir) w = (w', Ok tt) /\
    files w' !! billing_file env out_dir = Some text /\
    (forall file, file ∈ report_files ->
       is_Some (files w' !! os_path_join (report_dir env out_dir) file)) /\
    (forall path,
       path <> billing_file env out_dir ->
       (forall file, file ∈ report_files ->
          path <> os_path_join (report_dir env out_dir) file) ->
       files w' !! path = files w !! path).
Proof.
  intros (Hsrc & (Hf1 & Hf2 & Hf3) & client & Hurl & Hdl & Hread) Hwf.
  destruct (well_formed_aggregates df Hwf) as (df' & Hadd & Haggs).
  destruct (Haggs "SubscriptionName") as [a1 H1]; [cbn; solve_elem|].
  destruct (Haggs "MeterCategory") as [a2 H2]; [cbn; solve_elem|].
  destruct (Haggs "AccountName") as [a3 H3]; [cbn; solve_elem|].
  destruct (Haggs "Month") as [a4 H4]; [cbn; solve_elem|].
  destruct (main_run_ok env source out_dir w client text df df' a1 a2 a3 a4)
    as (w' & Hrun & _ & _ & Hfiles); try assumption.
  exists w'. split; [exact Hrun|]. rewrite Hfiles.
  assert (Hraw : forall file, file ∈ report_files ->
                   os_path_join (report_dir env out_dir) file
                   <> billing_file env out_dir).
  { intros file Hin E. symmetry in E. revert E.
    apply billing_file_not_a_report.
    unfold report_files in Hin. rewrite !elem_of_cons, elem_of_nil in Hin.
    destruct Hin as [->|[->|[->|[->|[]]]]]; reflexivity. }
  split.
  { rewrite !lookup_insert_ne by (apply Hraw; unfold report_files; solve_elem).
    apply lookup_insert_eq. }
  split.
  { intros file Hin. unfold report_files in Hin.
    rewrite !elem_of_cons, elem_of_nil in Hin.
    assert (Hne : forall a b : string,
               starts_with_sep a = false -> starts_with_sep b = false ->
               a <> b ->
               os_path_join (report_dir env out_dir) a
               <> os_path_join (report_dir env out_dir) b).
    { intros a b Ha Hb Hab E. apply Hab.
      exact (os_path_join_inj _ a b Ha Hb E). }
    destruct Hin as [->|[->|[->|[->|[]]]]];
      rewrite ?lookup_insert_ne
        by (apply Hne; [reflexivity|reflexivity|discriminate]);
      rewrite lookup_insert_eq; eexists; reflexivity. }
  intros path Hp Hrep.
  rewrite !lookup_insert_ne; [reflexivity| | | | | |];
    try (intros E; apply Hp; symmetry; exact E);
    intros E; symmetry in E; revert E; apply Hrep; unfold report_files;
    solve_elem.
Qed.

(** X17. A run that succeeds keeps the raw download: the raw file holds
    the text that was fetched, beside the four reports, and no other file
    is created or changed. *)
Theorem main_keeps_raw_download (env : Env) (source out_dir : string)
    (w : World) (text : string) (df : DataFrame) :
  fetches env source out_dir w text df ->
  well_formed df ->
  exists w',
    run (main env source out_dir) w = (w', Ok tt) /\
    files w' !! billing_file env out_dir = Some text /\
    (forall file, file ∈ report_files ->
       is_Some (files w' !! os_path_join (report_dir env out_dir) file)) /\
    (forall path,
       path <> billing_file env out_dir ->
       (forall file, file ∈ report_files ->
          path <> os_path_join (report_dir env out_dir) file) ->
       files w' !! path = files w !! path).
Proof. exact (main_files_after_run env source out_dir w text df). Qed.

Lemma main_keeps_raw_download_witness :
  exists w',
    run (main (example_env clock_1) "https://blob/a" "out") empty_world
      = (w', Ok tt) /\
    files w' !! billing_file (example_env clock_1) "out" = Some "billing export" /\
    (forall file, file ∈ report_files ->
       is_Some (files w'
                  !! os_path_join (report_dir (example_env clock_1) "out") file)) /\
    (forall path,
       path <> billing_file (example_env clock_1) "out" ->
       (forall file, file ∈ report_files ->
          path <> os_path_join (report_dir (example_env clock_1) "out") file) ->
       files w' !! path = files empty_world !! path).
Proof.
  apply (main_keeps_raw_download (example_env clock_1) "https://blob/a" "out"
           empty_world "billing export" complete_table).
  - split; [discriminate|]. split; [repeat split; reflexivity|].
    exists "https://blob/a". repeat split; reflexivity.
  - solve_well_formed.
Defined.

(** ** The configuration *)

(** X18. A command-line flag takes precedence over the environment
    variable, and the variable is used when the flag is absent or empty:
    when source and output directory each resolve to a value, the program
    is [main] run on the resolved values. *)
Theorem program_runs_main_on_resolved (env : Env) (args : Namespace)
    (environ : gmap string string) (source out_dir : string) :
  configured (args_source args) (environ !! "STORAGE_URL") source ->
  configured (args_out args) (environ !! "OUT_FOLDER") out_dir ->
  program env args environ = main env source out_dir.
Proof.
  assert (Hres : forall flag var s,
             configured flag var s ->
             py_or flag var = Some s /\ truthy (py_or flag var) = true).
  { intros flag var s [[-> Hs]|[Habs [-> Hs]]]; apply String.eqb_neq in Hs.
    - cbn [py_or]. rewrite Hs. cbn [truthy]. rewrite Hs. split; reflexivity.
    - destruct Habs as [->| ->]; cbn [py_or String.eqb]; cbn [truthy];
        rewrite Hs; split; reflexivity. }
  intros Hs Ho. unfold program.
  destruct (Hres _ _ _ Hs) as [-> ->]. destruct (Hres _ _ _ Ho) as [-> ->].
  reflexivity.
Qed.

Lemma program_runs_main_on_resolved_witness :
  program (example_env clock_1) (mkNamespace (Some "https://flag") (Some ""))
          {["STORAGE_URL" := "https://env"; "OUT_FOLDER" := "out"]}
  = main (example_env clock_1) "https://flag" "out".
Proof.
  apply (program_runs_main_on_resolved (example_env clock_1)
           (mkNamespace (Some "https://flag") (Some ""))
           {["STORAGE_URL" := "https://env"; "OUT_FOLDER" := "out"]}
           "https://flag" "out").
  - left. split; [reflexivity|discriminate].
  - right. split; [right; reflexivity|]. split; [reflexivity|discriminate].
Defined.

(** X19. An empty text counts as no value.  When the source is absent or
    empty both as a flag and as a variable, the program raises the source
    error, whatever the output directory is, and leaves the world as it
    was. *)
Theorem empty_source_is_missing (env : Env) (args : Namespace)
    (environ : gmap string string) (w : World) :
  absent (args_source args) ->
  absent (environ !! "STORAGE_URL") ->
  run (program env args environ) w
  = (w, Raise (ValueError
                 "Source is required. Have you set the STORAGE_URL env variable?")).
Proof.
  intros [Ha|Ha] [He|He]; unfold program; rewrite Ha, He; reflexivity.
Qed.

Lemma empty_source_is_missing_witness :
  run (program (example_env clock_1) (mkNamespace (Some "") (Some "out"))
               {["STORAGE_URL" := ""]}) empty_world
  = (empty_world,
     Raise (ValueError
              "Source is required. Have you set the STORAGE_URL env variable?")).
Proof.
  apply (empty_source_is_missing (example_env clock_1)
           (mkNamespace (Some "") (Some "out")) {["STORAGE_URL" := ""]}
           empty_world).
  - right. reflexivity.
  - right. reflexivity.
Defined.

(** X20. The output directory is checked after the source: when the
    source resolves to a value and the output directory is absent or empty
    both as a flag and as a variable, the program raises the output error
    and leaves the world as it was. *)
Theorem empty_out_is_missing (env : Env) (args : Namespace)
    (environ : gmap string string) (w : World) (source : string) :
  configured (args_source args) (environ !! "STORAGE_URL") source ->
  absent (args_out args) ->
  absent (environ !! "OUT_FOLDER") ->
  run (program env args environ) w
  = (w, Raise (ValueError
                 "Out is required. Have you set the OUT_FOLDER env variable?")).
Proof.
  intros Hs Ha He. unfold program.
  assert (Hsrc : truthy (py_or (args_source args) (environ !! "STORAGE_URL"))
                 = true).
  { destruct Hs as [[-> Hs]|[Habs [-> Hs]]]; apply String.eqb_neq in Hs.
    - cbn [py_or]. rewrite Hs. cbn [truthy]. rewrite Hs. reflexivity.
    - destruct Habs as [->| ->]; cbn [py_or String.eqb]; cbn [truthy];
        rewrite Hs; reflexivity. }
  rewrite Hsrc. destruct Ha as [->| ->], He as [->| ->]; reflexivity.
Qed.

Lemma empty_out_is_missing_witness :
  run (program (example_env clock_1) (mkNamespace None None)
               {["STORAGE_URL" := "https://env"; "OUT_FOLDER" := ""]})
      empty_world
  = (empty_world,
     Raise (ValueError
              "Out is required. Have you set the OUT_FOLDER env variable?")).
Proof.
  apply (empty_out_is_missing (example_env clock_1) (mkNamespace None None)
           {["STORAGE_URL" := "https://env"; "OUT_FOLDER" := ""]} empty_world
           "https://env").
  - right. split; [left; reflexivity|]. split; [reflexivity|discriminate].
  - left. reflexivity.
  - reflexivity || (right; reflexivity).
Defined.

(** ** Timestamps *)

Lemma zfill2_reads_back (n : nat) :
  n <= 99 ->
  String.length (zfill 2 (nat_digits n)) = 2 /\
  read_nat (zfill 2 (nat_digits n)) = Some (Z.of_nat n).
Proof.
  assert (Hall : forallb
            (fun n => Nat.eqb (String.length (zfill 2 (nat_digits n))) 2
                      && match read_nat (zfill 2 (nat_digits n)) with
                         | Some z => Z.eqb z (Z.of_nat n)
                         | None => false
                         end) (seq 0 100) = true)
    by (vm_compute; reflexivity).
  rewrite forallb_forall in Hall. intros Hn.
  specialize (Hall n). rewrite in_seq in Hall.
  specialize (Hall ltac:(lia)). apply andb_prop in Hall as [Hlen Hread].
  apply Nat.eqb_eq in Hlen. split; [exact Hlen|].
  destruct (read_nat (zfill 2 (nat_digits n))) as [z|]; [|discriminate].
  apply Z.eqb_eq in Hread. congruence.
Qed.

Lemma zfill4_reads_back (n : nat) :
  (Z.of_nat n <= 9999)%Z ->
  String.length (zfill 4 (nat_digits n)) = 4 /\
  read_nat (zfill 4 (nat_digits n)) = Some (Z.of_nat n).
Proof.
  assert (Hall : forallb
            (fun n => Nat.eqb (String.length (zfill 4 (nat_digits n))) 4
                      && match read_nat (zfill 4 (nat_digits n)) with
                         | Some z => Z.eqb z (Z.of_nat n)
                         | None => false
                         end) (seq 0 (Z.to_nat 10000)) = true)
    by (vm_compute; reflexivity).
  rewrite forallb_forall in Hall. intros Hn.
  specialize (Hall n). rewrite in_seq in Hall.
  specialize (Hall ltac:(lia)). apply andb_prop in Hall as [Hlen Hread].
  apply Nat.eqb_eq in Hlen. split; [exact Hlen|].
  destruct (read_nat (zfill 4 (nat_digits n))) as [z|]; [|discriminate].
  apply Z.eqb_eq in Hread. congruence.
Qed.

Lemma string_length_app (a b : string) :
  String.length (a ++ b) = String.length a + String.length b.
Proof.
  induction a as [|x a IH]; [reflexivity|].
  change (S (String.length (a ++ b)) = S (String.length a) + String.length b).
  rewrite IH. reflexivity.
Qed.

Lemma string_app_inj_length (a a' b b' : string) :
  String.length a = String.length a' ->
  a ++ b = a' ++ b' -> a = a' /\ b = b'.
Proof.
  revert a'. induction a as [|x a IH]; intros [|x' a'] Hlen E;
    try discriminate Hlen.
  - split; [reflexivity|exact E].
  - change (String x (a ++ b) = String x' (a' ++ b')) in E.
    injection E as -> E. injection Hlen as Hlen.
    destruct (IH a' Hlen E) as [-> ->]. split; reflexivity.
Qed.

Lemma timestamp_identifies_second_parts (t1 t2 : datetime) :
  valid_clock t1 ->
  valid_clock t2 ->
  String.length (strftime t1) = 15 /\ String.length (strftime t2) = 15 /\
  (strftime t1 = strftime t2 -> t1 = t2).
Proof.
  intros (Hy1 & Hm1 & Hd1 & Hh1 & Hmi1 & Hs1) (Hy2 & Hm2 & Hd2 & Hh2 & Hmi2 & Hs2).
  destruct t1 as [y1 m1 d1 h1 mi1 s1], t2 as [y2 m2 d2 h2 mi2 s2].
  cbn [year month day hour minute second] in *.
  destruct (zfill4_reads_back y1 (proj2 Hy1)) as [Ly1 Ry1].
  destruct (zfill4_reads_back y2 (proj2 Hy2)) as [Ly2 Ry2].
  destruct (zfill2_reads_back m1 ltac:(lia)) as [Lm1 Rm1].
  destruct (zfill2_reads_back m2 ltac:(lia)) as [Lm2 Rm2].
  destruct (zfill2_reads_back d1 ltac:(lia)) as [Ld1 Rd1].
  destruct (zfill2_reads_back d2 ltac:(lia)) as [Ld2 Rd2].
  destruct (zfill2_reads_back h1 ltac:(lia)) as [Lh1 Rh1].
  destruct (zfill2_reads_back h2 ltac:(lia)) as [Lh2 Rh2].
  destruct (zfill2_reads_back mi1 ltac:(lia)) as [Lmi1 Rmi1].
  destruct (zfill2_reads_back mi2 ltac:(lia)) as [Lmi2 Rmi2].
  destruct (zfill2_reads_back s1 ltac:(lia)) as [Ls1 Rs1].
  destruct (zfill2_reads_back s2 ltac:(lia)) as [Ls2 Rs2].
  split.
  { unfold strftime. cbn [year month day hour minute second].
    rewrite !string_length_app, Ly1, Lm1, Ld1, Lh1, Lmi1, Ls1. reflexivity. }
  split.
  { unfold strftime. cbn [year month day hour minute second].
    rewrite !string_length_app, Ly2, Lm2, Ld2, Lh2, Lmi2, Ls2. reflexivity. }
  unfold strftime. cbn [year month day hour minute second]. intros E.
  apply string_app_inj_length in E as [Ey E]; [|congruence].
  apply string_app_inj_length in E as [Em E]; [|congruence].
  apply string_app_inj_length in E as [Ed E]; [|congruence].
  apply string_app_inj_length in E as [_ E]; [|reflexivity].
  apply string_app_inj_length in E as [Eh E]; [|congruence].
  apply string_app_inj_length in E as [Emi Es]; [|congruence].
  rewrite Ey in Ry1. rewrite Em in Rm1. rewrite Ed in Rd1.
  rewrite Eh in Rh1. rewrite Emi in Rmi1. rewrite Es in Rs1.
  assert (y1 = y2) by (apply Nat2Z.inj; congruence).
  assert (m1 = m2) by (apply Nat2Z.inj; congruence).
  assert (d1 = d2) by (apply Nat2Z.inj; congruence).
  assert (h1 = h2) by (apply Nat2Z.inj; congruence).
  assert (mi1 = mi2) by (apply Nat2Z.inj; congruence).
  assert (s1 = s2) by (apply Nat2Z.inj; congruence).
  subst. reflexivity.
Qed.

(** X21. A timestamp names its second.  For a clock reading in a year of
    four digits, the timestamp has 15 characters, holds no path separator,
    and two readings with the same timestamp are the same reading: runs
    started in different seconds get different timestamps. *)
Theorem timestamp_identifies_second (t1 t2 : datetime) :
  valid_clock t1 ->
  valid_clock t2 ->
  String.length (strftime t1) = 15 /\
  count_char "/" (strftime t1) = 0 /\
  (strftime t1 = strftime t2 -> t1 = t2).
Proof.
  intros Hv1 Hv2.
  destruct (timestamp_identifies_second_parts t1 t2 Hv1 Hv2) as (L1 & _ & Hinj).
  split; [exact L1|]. split; [apply count_sep_strftime|exact Hinj].
Qed.

Lemma timestamp_identifies_second_witness :
  String.length (strftime clock_1) = 15 /\
  count_char "/" (strftime clock_1) = 0 /\
  (strftime clock_1 = strftime clock_2 -> clock_1 = clock_2).
Proof.
  apply (timestamp_identifies_second clock_1 clock_2);
    unfold valid_clock; cbn; lia.
Defined.

(** ** Runs at different times *)

Lemma join_prefix_extended (a b : string) :
  b <> "" -> ends_with_sep b = false ->
  join_prefix (a ++ b) = a ++ b ++ "/".
Proof.
  intros Hb He. unfold join_prefix. rewrite (ends_with_sep_app a b Hb), He.
  destruct (a ++ b) eqn:E.
  - destruct a; [change (b = "") in E; congruence|discriminate E].
  - change (String a0 s =? "")%string with false. cbn [orb]. cbv iota.
    rewrite <- E. apply string_app_assoc.
Qed.

Lemma billing_path_form (env : Env) (out_dir : string) :
  billing_file env out_dir
  = join_prefix out_dir ++ "raw/" ++ strftime (now env) ++ ".billing.csv".
Proof.
  unfold billing_file, download_dir.
  assert (Hb : starts_with_sep (strftime (now env) ++ ".billing.csv") = false).
  { pose proof (strftime_relative (now env)) as Hts.
    destruct (strftime_head (now env)) as (c & rest & E & _).
    rewrite E in Hts |- *. exact Hts. }
  rewrite (os_path_join_relative _ _ Hb).
  rewrite (os_path_join_relative out_dir "raw" eq_refl).
  rewrite (join_prefix_extended _ "raw") by (discriminate || reflexivity).
  rewrite !string_app_assoc. reflexivity.
Qed.

Lemma report_path_form (env : Env) (out_dir file : string) :
  starts_with_sep file = false ->
  os_path_join (report_dir env out_dir) file
  = join_prefix out_dir ++ strftime (now env) ++ "/" ++ file.
Proof.
  intros Hfile. unfold report_dir.
  rewrite (os_path_join_relative _ file Hfile).
  rewrite (os_path_join_relative out_dir _ (strftime_relative _)).
  rewrite join_prefix_extended.
  - rewrite !string_app_assoc. reflexivity.
  - destruct (strftime_head (now env)) as (c & rest & E & _). rewrite E.
    discriminate.
  - apply ends_with_sep_count, count_sep_strftime.
Qed.

Lemma timestamp_not_raw (t : datetime) (rest rest' : string) :
  strftime t ++ rest <> "raw/" ++ rest'.
Proof.
  destruct (strftime_head t) as (c & tl & E & Hc). rewrite E. intros Heq.
  change (String c (tl ++ rest) = String "r" ("aw/" ++ rest')) in Heq.
  injection Heq as -> _. cbn in Hc.
  repeat (destruct Hc as [Hc|Hc]; [discriminate Hc|]). destruct Hc.
Qed.

(** The paths of a run are not paths of a run started in another second. *)
Lemma paths_of_another_second (env1 env2 : Env) (out_dir : string) :
  valid_clock (now env1) -> valid_clock (now env2) ->
  now env1 <> now env2 ->
  billing_file env1 out_dir <> billing_file env2 out_dir /\
  (forall file, starts_with_sep file = false ->
     billing_file env1 out_dir <> os_path_join (report_dir env2 out_dir) file) /\
  (forall file, starts_with_sep file = false ->
     os_path_join (report_dir env1 out_dir) file <> billing_file env2 out_dir) /\
  (forall file file', starts_with_sep file = false ->
     starts_with_sep file' = false ->
     os_path_join (report_dir env1 out_dir) file
     <> os_path_join (report_dir env2 out_dir) file').
Proof.
  intros Hv1 Hv2 Hne.
  assert (Hts : forall rest rest',
             strftime (now env1) ++ rest <> strftime (now env2) ++ rest').
  { intros rest rest' E.
    destruct (timestamp_identifies_second_parts (now env1) (now env2) Hv1 Hv2)
      as (L1 & L2 & Hinj).
    apply string_app_inj_length in E as [E _]; [|congruence].
    apply Hne, Hinj, E. }
  split; [|split; [|split]].
  - rewrite !billing_path_form. intros E.
    apply (String.app_inj (join_prefix out_dir)) in E.
    apply (String.app_inj "raw/") in E. exact (Hts _ _ E).
  - intros file Hfile. rewrite billing_path_form, report_path_form by exact Hfile.
    intros E. apply (String.app_inj (join_prefix out_dir)) in E.
    symmetry in E. exact (timestamp_not_raw _ _ _ E).
  - intros file Hfile. rewrite billing_path_form, report_path_form by exact Hfile.
    intros E. apply (String.app_inj (join_prefix out_dir)) in E.
    exact (timestamp_not_raw _ _ _ E).
  - intros file file' Hfile Hfile'. rewrite !report_path_form by assumption.
    intros E. apply (String.app_inj (join_prefix out_dir)) in E.
    exact (Hts _ _ E).
Qed.

(** X22. A run does not touch what a run started in another second left in
    the same output directory: it succeeds, and the raw download and the
    four reports of the other run are, each of them, as they were. *)
Theorem later_run_keeps_earlier_files (env1 env2 : Env)
    (source out_dir : string) (w : World) (text : string) (df : DataFrame) :
  valid_clock (now env1) ->
  valid_clock (now env2) ->
  now env1 <> now env2 ->
  fetches env2 source out_dir w text df ->
  well_formed df ->
  exists w',
    run (main env2 source out_dir) w = (w', Ok tt) /\
    files w' !! billing_file env1 out_dir = files w !! billing_file env1 out_dir /\
    forall file, file ∈ report_files ->
      files w' !! os_path_join (report_dir env1 out_dir) file
      = files w !! os_path_join (report_dir env1 out_dir) file.
Proof.
  intros Hv1 Hv2 Hne Hfetch Hwf.
  destruct (main_files_after_run env2 source out_dir w text df Hfetch Hwf)
    as (w' & Hrun & _ & _ & Hother).
  destruct (paths_of_another_second env1 env2 out_dir Hv1 Hv2 Hne)
    as (Hbb & Hbr & Hrb & Hrr).
  assert (Hrel : forall file, file ∈ report_files -> starts_with_sep file = false).
  { intros file Hin. unfold report_files in Hin.
    rewrite !elem_of_cons, elem_of_nil in Hin.
    destruct Hin as [->|[->|[->|[->|[]]]]]; reflexivity. }
  exists w'. split; [exact Hrun|]. split.
  - apply Hother; [exact Hbb|]. intros file Hin. apply Hbr, Hrel, Hin.
  - intros file Hin. apply Hother.
    + apply Hrb, Hrel, Hin.
    + intros file' Hin'. apply Hrr; apply Hrel; assumption.
Qed.

Lemma later_run_keeps_earlier_files_witness :
  exists w',
    run (main (example_env clock_2) "https://blob/a" "out")
        (world_with_file (billing_file (example_env clock_1) "out") "earlier")
      = (w', Ok tt) /\
    files w' !! billing_file (example_env clock_1) "out"
      = files (world_with_file (billing_file (example_env clock_1) "out")
                               "earlier")
          !! billing_file (example_env clock_1) "out" /\
    forall file, file ∈ report_files ->
      files w' !! os_path_join (report_dir (example_env clock_1) "out") file
      = files (world_with_file (billing_file (example_env clock_1) "out")
                               "earlier")
          !! os_path_join (report_dir (example_env clock_1) "out") file.
Proof.
  apply (later_run_keeps_earlier_files (example_env clock_1)
           (example_env clock_2) "https://blob/a" "out"
           (world_with_file (billing_file (example_env clock_1) "out") "earlier")
           "billing export" complete_table).
  - unfold valid_clock. cbn. lia.
  - unfold valid_clock. cbn. lia.
  - discriminate.
  - split; [discriminate|]. split; [repeat split; vm_compute; reflexivity|].
    exists "https://blob/a". repeat split; reflexivity.
  - solve_well_formed.
Defined.

(** ** What a run prints *)

(** X23. A run that succeeds prints six things, in this order: the line
    that names the raw download, the first five rows of the table with its
    temporal columns, and one line for each report, naming its path, in
    the order subscription, meter category, account, month. *)
Theorem main_output_in_order (env : Env) (source out_dir : string)
    (w : World) (text : string) (df : DataFrame) :
  fetches env source out_dir w text df ->
  well_formed df ->
  exists w' df',
    run (main env source out_dir) w = (w', Ok tt) /\
    add_temporal_columns df = Ok df' /\
    stdout w' =
      (stdout w ++
       [ Line ("Downloaded blob data to " ++ billing_file env out_dir);
         Frame (head df');
         Line ("Creating Cost by Subscription report to "
               ++ os_path_join (report_dir env out_dir) "cost_by_subscription.csv");
         Line ("Creating Cost by MeterCategory report to "
               ++ os_path_join (report_dir env out_dir) "cost_by_meter_cat.csv");
         Line ("Creating Cost by AccountName report to "
               ++ os_path_join (report_dir env out_dir) "cost_by_account.csv");
         Line ("Creating Cost by Month report to "
               ++ os_path_join (report_dir env out_dir) "cost_by_month.csv") ])%list.
Proof.
  intros (Hsrc & Hdirs & client & Hurl & Hdl & Hread) Hwf.
  destruct (well_formed_aggregates df Hwf) as (df' & Hadd & Haggs).
  destruct (Haggs "SubscriptionName") as [a1 H1]; [cbn; solve_elem|].
  destruct (Haggs "MeterCategory") as [a2 H2]; [cbn; solve_elem|].
  destruct (Haggs "AccountName") as [a3 H3]; [cbn; solve_elem|].
  destruct (Haggs "Month") as [a4 H4]; [cbn; solve_elem|].
  eexists _, df'.
  split.
  - rewrite (main_until_reports env source out_dir w client Hsrc Hdirs Hurl).
    rewrite Hdl. cbv zeta. rewrite Hread, Hadd.
    unfold cost_by_sub, cost_by_meter_cat, cost_by_account, cost_by_month.
    cbn [run mbind M_bind print lift df_to_csv write_file files dirs stdout
         requests].
    change (g ← groupby df' "SubscriptionName";
            fr ← agg_sum g "CostInBillingCurrency";
            reset_index fr) with (aggregate df' "SubscriptionName").
    rewrite H1. cbn [run write_file files dirs stdout requests].
    change (g ← groupby df' "MeterCategory";
            fr ← agg_sum g "CostInBillingCurrency";
            reset_index fr) with (aggregate df' "MeterCategory").
    rewrite H2. cbn [run write_file files dirs stdout requests].
    change (g ← groupby df' "AccountName";
            fr ← agg_sum g "CostInBillingCurrency";
            reset_index fr) with (aggregate df' "AccountName").
    rewrite H3. cbn [run write_file files dirs stdout requests].
    change (g ← groupby df' "Month";
            fr ← agg_sum g "CostInBillingCurrency";
            reset_index fr) with (aggregate df' "Month").
    rewrite H4. cbn [run write_file files dirs stdout requests].
    reflexivity.
  - split; [exact Hadd|]. cbn [stdout]. rewrite <- !app_assoc. reflexivity.
Qed.

Lemma main_output_in_order_witness :
  exists w' df',
    run (main (example_env clock_1) "https://blob/a" "out") empty_world
      = (w', Ok tt) /\
    add_temporal_columns complete_table = Ok df' /\
    stdout w' =
      (stdout empty_world ++
       [ Line ("Downloaded blob data to "
               ++ billing_file (example_env clock_1) "out");
         Frame (head df');
         Line ("Creating Cost by Subscription report to "
               ++ os_path_join (report_dir (example_env clock_1) "out")
                               "cost_by_subscription.csv");
         Line ("Creating Cost by MeterCategory report to "
               ++ os_path_join (report_dir (example_env clock_1) "out")
                               "cost_by_meter_cat.csv");
         Line ("Creating Cost by AccountName report to "
               ++ os_path_join (report_dir (example_env clock_1) "out")
                               "cost_by_account.csv");
         Line ("Creating Cost by Month report to "
               ++ os_path_join (report_dir (example_env clock_1) "out")
                               "cost_by_month.csv") ])%list.
Proof.
  apply (main_output_in_order (example_env clock_1) "https://blob/a" "out"
           empty_world "billing export" complete_table).
  - split; [discriminate|]. split; [repeat split; reflexivity|].
    exists "https://blob/a". repeat split; reflexivity.
  - solve_well_formed.
Defined.

